(** * bcr_merge_cli: a shallow embedding of the merge pipeline driver

    The development follows [bcr_merge_cli.py]: the Python string
    primitives the script relies on, the naming and adapter helpers, the
    FASTQ to FASTA converter, the command builders and [main], the latter
    over an abstract operating system interface with an event log. *)

From Stdlib Require Import String Ascii DecimalString.
From Stdlib Require Import List Bool Arith ZArith NArith Lia.
Import ListNotations.

Local Open Scope string_scope.
Local Open Scope list_scope.

Set Implicit Arguments.

(** ** Python [str] values

    A [str] is a sequence of Unicode code points.  String literals of the
    script are written as Rocq string literals and read through [lit]. *)

Definition char := N.
Definition str := list char.

Definition char_of_ascii (a : ascii) : char := N_of_ascii a.

Fixpoint lit (s : string) : str :=
  match s with
  | EmptyString => []
  | String a s' => char_of_ascii a :: lit s'
  end.

Coercion lit : string >-> str.

Module Py.

(** [str.isspace] on one code point, which [strip()] and [split()] use. *)
Definition is_space (c : char) : bool :=
  ((9 <=? c) && (c <=? 13) || (28 <=? c) && (c <=? 32)
   || (c =? 133) || (c =? 160) || (c =? 5760)
   || (8192 <=? c) && (c <=? 8202)
   || (c =? 8232) || (c =? 8233) || (c =? 8239) || (c =? 8287)
   || (c =? 12288))%N.

Fixpoint str_eqb (a b : str) : bool :=
  match a, b with
  | [], [] => true
  | x :: a', y :: b' => N.eqb x y && str_eqb a' b'
  | _, _ => false
  end.

(** [s.startswith(p)] *)
Fixpoint startswith (s p : str) : bool :=
  match p, s with
  | [], _ => true
  | x :: p', y :: s' => N.eqb x y && startswith s' p'
  | _ :: _, [] => false
  end.

(** [s.endswith(p)] *)
Definition endswith (s p : str) : bool := startswith (rev s) (rev p).

(** [s[:-k]], with Python's reading of [-0] as [0]. *)
Definition slice_to_neg (s : str) (k : nat) : str :=
  match k with
  | O => []
  | _ => firstn (length s - k) s
  end.

(** [s[1:]] *)
Definition slice_from_1 (s : str) : str := tl s.

Fixpoint lstrip (s : str) : str :=
  match s with
  | [] => []
  | c :: s' => if is_space c then lstrip s' else s
  end.

Definition rstrip (s : str) : str := rev (lstrip (rev s)).

(** [s.strip()] *)
Definition strip (s : str) : str := rstrip (lstrip s).

(** [sub in s] *)
Fixpoint contains (s sub : str) : bool :=
  startswith s sub ||
  match s with
  | [] => false
  | _ :: s' => contains s' sub
  end.

(** [s.replace(old, new)]: leftmost non-overlapping occurrences.  [skip]
    counts the characters of a matched occurrence still to be passed. *)
Fixpoint replace_from (old new : str) (skip : nat) (s : str) : str :=
  match s with
  | [] => []
  | c :: s' =>
      match skip with
      | S k => replace_from old new k s'
      | O =>
          if startswith s old
          then new ++ replace_from old new (length old - 1) s'
          else c :: replace_from old new 0 s'
      end
  end.

Definition replace (s old new : str) : str :=
  match old with
  | [] => new ++ flat_map (fun c => c :: new) s
  | _ :: _ => replace_from old new 0 s
  end.

(** [s.split(sep)] for a non-empty separator; [cur] holds the current
    piece in reverse. *)
Fixpoint split_from (sep : str) (skip : nat) (cur : str) (s : str) : list str :=
  match s with
  | [] => [rev cur]
  | c :: s' =>
      match skip with
      | S k => split_from sep k cur s'
      | O =>
          if startswith s sep
          then rev cur :: split_from sep (length sep - 1) [] s'
          else split_from sep 0 (c :: cur) s'
      end
  end.

Definition split (s sep : str) : list str := split_from sep 0 [] s.

(** [s.split()]: the maximal runs of non-whitespace characters. *)
Fixpoint split_ws_from (cur : str) (s : str) : list str :=
  match s with
  | [] => match cur with [] => [] | _ => [rev cur] end
  | c :: s' =>
      if is_space c
      then match cur with
           | [] => split_ws_from [] s'
           | _ => rev cur :: split_ws_from [] s'
           end
      else split_ws_from (c :: cur) s'
  end.

Definition split_ws (s : str) : list str := split_ws_from [] s.

(** [str(n)] for an [int]. *)
Definition str_of_int (n : Z) : str := lit (NilZero.string_of_int (Z.to_int n)).

End Py.

(** ** Adapter helpers *)

Definition sanitize_adapter (seq : str) : str :=
  let seq := Py.strip seq in
  Py.replace (Py.replace seq "^" "") "$" "".

Definition ensure_prefix (seq prefix : str) : str :=
  let seq := Py.strip seq in
  if Py.startswith seq prefix then seq else prefix ++ seq.

Definition ensure_suffix (seq suffix : str) : str :=
  let seq := Py.strip seq in
  if Py.endswith seq suffix then seq else seq ++ suffix.

(** ** Naming helpers *)

Definition NL : str := [10%N].

Definition MODE_LABELS : list (str * str) :=
  [ (lit "merge-only", lit "withoutTrim");
    (lit "trim-merge", lit "trimThenMerge");
    (lit "merge-trim", lit "mergeThenTrim") ].

(** [d.get(key, default)] on a dictionary literal. *)
Fixpoint dict_get (d : list (str * str)) (key default : str) : str :=
  match d with
  | [] => default
  | (k, v) :: d' => if Py.str_eqb k key then v else dict_get d' key default
  end.

Definition mode_label (mode : str) : str := dict_get MODE_LABELS mode mode.

(** The first loop of [infer_prefix]: the first suffix that matches is cut
    and the loop is left. *)
Fixpoint strip_first_suffix (suffixes : list str) (name : str) : str :=
  match suffixes with
  | [] => name
  | suffix :: rest =>
      if Py.endswith name suffix
      then Py.slice_to_neg name (length suffix)
      else strip_first_suffix rest name
  end.

(** The second loop of [infer_prefix]: the first marker that matches makes
    the function return. *)
Fixpoint strip_first_marker (markers : list str) (name : str) : option str :=
  match markers with
  | [] => None
  | marker :: rest =>
      if Py.endswith name marker
      then Some (Py.slice_to_neg name (length marker))
      else strip_first_marker rest name
  end.

Definition FASTQ_SUFFIXES : list str :=
  [lit ".fastq.gz"; lit ".fq.gz"; lit ".fastq"; lit ".fq"].

Definition R1_MARKERS : list str :=
  [lit "_R1_001"; lit "_R1"; lit "-R1"; lit ".R1"].

(** [infer_prefix] after [name = r1_path.name]. *)
Definition infer_prefix_of_name (name : str) : str :=
  let name := strip_first_suffix FASTQ_SUFFIXES name in
  match strip_first_marker R1_MARKERS name with
  | Some prefix => prefix
  | None =>
      if Py.contains name "_R1_"
      then hd [] (Py.split name "_R1_")
      else name
  end.

(** Exceptions the script raises or lets through. *)
Inductive exn :=
| ValueError (msg : str)
| FileNotFoundError (msg : str)
| IndexError
| CalledProcessError (cmd : list str)
| OSError.

(** The invalid characters: less-than, greater-than, colon, double quote
    (code point 34), slash, backslash, bar, question mark and star. *)
Definition INVALID_RUN_ID_CHARS : str := lit "<>:" ++ [34%N] ++ lit "/\|?*".

(** [validate_run_id] returns nothing; the result here is the exception it
    raises, if any. *)
Definition validate_run_id (run_id : str) : option exn :=
  let invalid := INVALID_RUN_ID_CHARS in
  if existsb (fun ch => Py.contains invalid [ch]) run_id
  then Some (ValueError (lit "--run-id contains invalid characters: " ++ invalid))
  else None.

(** The f-string of the run directory name in [main]. *)
Definition run_dir_name (prefix_base mode run_id : str) : str :=
  prefix_base ++ lit "_" ++ mode_label mode ++ lit "_" ++ run_id.

(** ** FASTQ to FASTA on text

    The input is the decoded text of the file as the text layer hands it
    to [readline] (line ends already translated to a line feed); the output
    is the text written to [fout]. *)

(** [fin.readline()]: the line up to and including the line feed, or what
    is left of the stream, and the rest of the stream. *)
Fixpoint readline (fin : str) : str * str :=
  match fin with
  | [] => ([], [])
  | c :: fin' =>
      if N.eqb c 10 then ([c], fin')
      else let (line, rest) := readline fin' in (c :: line, rest)
  end.

(** What a conversion leaves behind: the text written and the exception
    that ended it, if any. *)
Record converted := { written : str; raised : option exn }.

Definition TRUNCATED : exn := ValueError (lit "Truncated FASTQ record detected.").

(** The [while True] loop of [fastq_to_fasta]; [None] when [fuel] runs out. *)
Fixpoint convert_loop (fuel : nat) (fin fout : str) : option converted :=
  match fuel with
  | O => None
  | S fuel' =>
      let (header, fin) := readline fin in
      match header with
      | [] => Some {| written := fout; raised := None |}
      | _ :: _ =>
          let (seq, fin) := readline fin in
          let (plus, fin) := readline fin in
          let (qual, fin) := readline fin in
          match qual with
          | [] => Some {| written := fout; raised := Some TRUNCATED |}
          | _ :: _ =>
              let header := Py.strip header in
              let header :=
                if Py.startswith header "@" then Py.slice_from_1 header
                else header in
              match Py.split_ws header with
              | [] => Some {| written := fout; raised := Some IndexError |}
              | header :: _ =>
                  let fout := fout ++ (lit ">" ++ header ++ NL) in
                  let fout := fout ++ (Py.strip seq ++ NL) in
                  convert_loop fuel' fin fout
              end
          end
      end
  end.

(** Every turn of the loop reads at least one character, so the length of
    the input bounds the number of turns and the default below is never
    taken ([convert_loop_total]). *)
Definition fastq_to_fasta_text (fin : str) : converted :=
  match convert_loop (S (length fin)) fin [] with
  | Some c => c
  | None => {| written := []; raised := None |}
  end.

(** ** The library and operating system interface

    [pathlib] paths and [float] formatting are taken as an interface, and
    so is the operating system: the file system, the environment, the clock
    and the execution of external programs.  Results about [main] hold for
    every implementation of the two. *)

Class PyLib := {
  Path : Type;
  path_of : str -> Path;               (* Path(s) *)
  path_str : Path -> str;              (* str(p) *)
  path_join : Path -> Path -> Path;    (* p / q *)
  path_parent : Path -> Path;          (* p.parent *)
  path_name : Path -> str;             (* p.name *)
  path_suffix : Path -> str;           (* p.suffix *)
  path_with_suffix : Path -> str -> Path;
  path_is_absolute : Path -> bool;
  pyfloat : Type;
  str_of_float : pyfloat -> str        (* str(x) *)
}.

Class System (L : PyLib) := {
  World : Type;
  (* p.exists() *)
  fs_exists : World -> Path -> bool;
  (* p.mkdir(parents=True, exist_ok=True); None when it raises *)
  fs_mkdir : World -> Path -> option World;
  (* datetime.now().strftime("%Y%m%d_%H%M%S") *)
  clock_stamp : World -> str;
  (* os.environ.get("CONDA_PREFIX") *)
  env_conda_prefix : World -> option str;
  (* shutil.which(name) *)
  shutil_which : World -> str -> option str;
  sys_executable : World -> str;
  (* subprocess.run(cmd, check=True, cwd=cwd) *)
  subprocess_run : World -> list str -> option str -> exn + World;
  (* the decoded text of a file opened for reading, through gzip or not;
     None when the open raises *)
  fs_read_text : World -> Path -> bool -> option str;
  (* open(p, "w"): the file is created or emptied; None when it raises *)
  fs_create : World -> Path -> option World;
  (* the text written to a file by the time it is closed *)
  fs_write_text : World -> Path -> str -> World
}.

(** Python truthiness of an optional string: [None] and the empty string
    are false. *)
Definition truthy (o : option str) : option str :=
  match o with
  | Some (c :: s) => Some (c :: s)
  | _ => None
  end.

(** The four sanitized adapters that [main] keeps in a dictionary under
    the keys [r1_5p], [r2_5p], [r1_3p] and [r2_3p]. *)
Record Adapters := {
  r1_5p : str;
  r2_5p : str;
  r1_3p : str;
  r2_3p : str
}.

(** A computation ends normally, by a [return code] of [main], or by an
    exception. *)
Inductive result (A : Type) :=
| Normal (a : A)
| Return (code : Z)
| Raise (e : exn).

Arguments Normal {A} a.
Arguments Return {A} code.
Arguments Raise {A} e.

Section Pipeline.

Context {L : PyLib} {Sy : System L}.

(** The namespace that [parse_args] returns. *)
Record Args := {
  a_mode : str;
  a_r1 : str;
  a_r2 : str;
  a_outdir : option str;
  a_prefix : option str;
  a_assemble_prefix : option str;
  a_run_id : option str;
  a_log : option str;
  a_threads : Z;
  a_cutadapt_error_rate : pyfloat;
  a_cutadapt_overlap : Z;
  a_cutadapt_min_length : Z;
  a_adapter_5p_r1 : str;
  a_adapter_5p_r2 : str;
  a_adapter_3p_r1 : str;
  a_adapter_3p_r2 : str;
  a_coord : str;
  a_rc : str;
  a_failed : bool;
  a_swap_r1r2 : bool;
  a_dry_run : bool
}.

(** What the program does to the outside, in order.  An event records the
    call, whether it succeeds or raises. *)
Inductive event :=
| EvExists (p : Path)                              (* p.exists() *)
| EvMkdir (p : Path)                               (* p.mkdir(...) *)
| EvStdout (line : str)                            (* print(line) *)
| EvStderr (line : str)                            (* print(line, file=sys.stderr) *)
| EvEcho (cmd : list str)                          (* print(">> " + list2cmdline(cmd)) *)
| EvSubprocess (cmd : list str) (cwd : option str) (* subprocess.run *)
| EvOpenRead (p : Path)
| EvOpenWrite (p : Path).

Record state := { world : World; log : list event }.

Definition M (A : Type) : Type := state -> result A * state.

Definition ret {A} (a : A) : M A := fun st => (Normal a, st).

Definition bind {A B} (m : M A) (k : A -> M B) : M B :=
  fun st =>
    match m st with
    | (Normal a, st') => k a st'
    | (Return code, st') => (Return code, st')
    | (Raise e, st') => (Raise e, st')
    end.

Definition return_code {A} (code : Z) : M A := fun st => (Return code, st).

Definition raise {A} (e : exn) : M A := fun st => (Raise e, st).

Definition emit (ev : event) : M unit :=
  fun st => (Normal tt, {| world := world st; log := log st ++ [ev] |}).

Definition ask {A} (f : World -> A) : M A := fun st => (Normal (f (world st)), st).

Notation "x <- m ;; k" := (bind m (fun x => k))
  (at level 61, m at next level, right associativity).
Notation "m ;; k" := (bind m (fun _ => k))
  (at level 61, right associativity).

Definition exists_ (p : Path) : M bool :=
  emit (EvExists p) ;; ask (fun w => fs_exists w p).

Definition mkdir (p : Path) : M unit :=
  emit (EvMkdir p) ;;
  fun st =>
    match fs_mkdir (world st) p with
    | Some w => (Normal tt, {| world := w; log := log st |})
    | None => (Raise OSError, st)
    end.

Definition print (line : str) : M unit := emit (EvStdout line).

Definition print_err (line : str) : M unit := emit (EvStderr line).

Definition subprocess (cmd : list str) (cwd : option str) : M unit :=
  emit (EvSubprocess cmd cwd) ;;
  fun st =>
    match subprocess_run (world st) cmd cwd with
    | inr w => (Normal tt, {| world := w; log := log st |})
    | inl e => (Raise e, st)
    end.

Definition infer_prefix (r1_path : Path) : str :=
  infer_prefix_of_name (path_name r1_path).

Definition resolve_assemblepairs_path (explicit : option str) : M Path :=
  match truthy explicit with
  | Some e =>
      let path := path_of e in
      ex <- exists_ path ;;
      if ex then ret path
      else raise (FileNotFoundError (lit "AssemblePairs.py not found at: " ++ e))
  | None =>
      conda_prefix <- ask env_conda_prefix ;;
      in_conda <-
        match truthy conda_prefix with
        | Some cp =>
            let candidate :=
              path_join (path_join (path_of cp) (path_of "Scripts"))
                        (path_of "AssemblePairs.py") in
            ex <- exists_ candidate ;;
            ret (if ex then Some candidate else None)
        | None => ret None
        end ;;
      match in_conda with
      | Some candidate => ret candidate
      | None =>
          found <- ask (fun w => shutil_which w "AssemblePairs.py") ;;
          match truthy found with
          | Some f => ret (path_of f)
          | None =>
              raise (FileNotFoundError
                       "AssemblePairs.py not found. Activate presto_env or install presto.")
          end
      end
  end.

Definition resolve_cutadapt_cmd : M (list str) :=
  found <- ask (fun w => shutil_which w "cutadapt") ;;
  match truthy found with
  | Some f => ret [f]
  | None =>
      exe <- ask sys_executable ;;
      ret [exe; lit "-m"; lit "cutadapt"]
  end.

Definition run_command (cmd : list str) (dry_run : bool) (cwd : option Path) : M unit :=
  emit (EvEcho cmd) ;;
  if dry_run then ret tt
  else subprocess cmd (option_map path_str cwd).

Definition fastq_to_fasta (in_path out_path : Path) : M unit :=
  emit (EvOpenRead in_path) ;;
  opened <- ask (fun w => fs_read_text w in_path (Py.str_eqb (path_suffix in_path) ".gz")) ;;
  match opened with
  | None => raise OSError
  | Some fin =>
      emit (EvOpenWrite out_path) ;;
      fun st =>
        match fs_create (world st) out_path with
        | None => (Raise OSError, st)
        | Some w =>
            let c := fastq_to_fasta_text fin in
            let st' := {| world := fs_write_text w out_path (written c);
                          log := log st |} in
            match raised c with
            | None => (Normal tt, st')
            | Some e => (Raise e, st')
            end
        end
  end.

(** The tokens that [run_cutadapt_paired] appends to the resolved command. *)
Definition cutadapt_paired_args (r1 r2 out_r1 out_r2 : Path) (adapters : Adapters)
    (threads : Z) (error_rate : pyfloat) (overlap min_length : Z) : list str :=
  [ lit "-j"; Py.str_of_int threads;
    lit "-g"; ensure_prefix (r1_5p adapters) "^";
    lit "-G"; ensure_prefix (r2_5p adapters) "^";
    lit "-a"; ensure_suffix (r1_3p adapters) "$";
    lit "-A"; ensure_suffix (r2_3p adapters) "$";
    lit "-e"; str_of_float error_rate;
    lit "-O"; Py.str_of_int overlap;
    lit "--minimum-length"; Py.str_of_int min_length;
    lit "-o"; path_str out_r1;
    lit "-p"; path_str out_r2;
    path_str r1;
    path_str r2 ].

Definition run_cutadapt_paired (r1 r2 out_r1 out_r2 : Path) (adapters : Adapters)
    (threads : Z) (error_rate : pyfloat) (overlap min_length : Z)
    (dry_run : bool) : M unit :=
  cmd <- resolve_cutadapt_cmd ;;
  let cmd := cmd ++ cutadapt_paired_args r1 r2 out_r1 out_r2 adapters
                      threads error_rate overlap min_length in
  run_command cmd dry_run None.

(** The tokens that [run_cutadapt_single] appends to the resolved command. *)
Definition cutadapt_single_args (in_fastq out_fastq : Path) (adapters : Adapters)
    (threads : Z) (error_rate : pyfloat) (overlap min_length : Z) : list str :=
  [ lit "-j"; Py.str_of_int threads;
    lit "-g"; ensure_prefix (r1_5p adapters) "^";
    lit "-g"; ensure_prefix (r2_5p adapters) "^";
    lit "-a"; ensure_suffix (r1_3p adapters) "$";
    lit "-a"; ensure_suffix (r2_3p adapters) "$";
    lit "-e"; str_of_float error_rate;
    lit "-O"; Py.str_of_int overlap;
    lit "--minimum-length"; Py.str_of_int min_length;
    lit "-o"; path_str out_fastq;
    path_str in_fastq ].

Definition run_cutadapt_single (in_fastq out_fastq : Path) (adapters : Adapters)
    (threads : Z) (error_rate : pyfloat) (overlap min_length : Z)
    (dry_run : bool) : M unit :=
  cmd <- resolve_cutadapt_cmd ;;
  let cmd := cmd ++ cutadapt_single_args in_fastq out_fastq adapters
                      threads error_rate overlap min_length in
  run_command cmd dry_run None.

(** The command list of [run_assemblepairs], given the interpreter and the
    resolved script. *)
Definition assemblepairs_cmd (exe : str) (assemble_path r1 r2 : Path)
    (outname coord rc : str) (log_path : Path) (failed swap_r1r2 : bool) : list str :=
  let first := if swap_r1r2 then r1 else r2 in
  let second := if swap_r1r2 then r2 else r1 in
  let cmd :=
    [ exe; path_str assemble_path; lit "align";
      lit "-1"; path_str first;
      lit "-2"; path_str second;
      lit "--coord"; coord;
      lit "--rc"; rc;
      lit "--outname"; outname;
      lit "--log"; path_str log_path ] in
  if failed then cmd ++ [lit "--failed"] else cmd.

Definition run_assemblepairs (r1 r2 : Path) (outname coord rc : str)
    (log_path : Path) (failed swap_r1r2 dry_run : bool) (outdir : Path) : M unit :=
  assemble_path <- resolve_assemblepairs_path None ;;
  exe <- ask sys_executable ;;
  let cmd := assemblepairs_cmd exe assemble_path r1 r2 outname coord rc
               log_path failed swap_r1r2 in
  run_command cmd dry_run (Some outdir).

(** ** [main]

    The body of [main] is cut at the points the state machine of the
    pipeline names: resolution of the run, assembly with its optional
    paired trim, the check of the assembly output, the optional trim of the
    merged reads, and the conversion. *)

(** The local variables of [main] that outlive the resolution of the run. *)
Record Run := {
  r1 : Path;
  r2 : Path;
  base_outdir : Path;
  prefix_base : str;
  run_id : str;
  run_name : str;
  run_dir : Path;
  assemble_outname : Path;
  log_path : Path;
  adapters : Adapters;
  trimmed_r1 : Path;
  trimmed_r2 : Path;
  merge_then_trim_fastq : Path
}.

Definition join_str (p : Path) (s : str) : Path := path_join p (path_of s).

(** [main] up to the choice of the mode. *)
Definition main_resolve (args : Args) : M Run :=
  let r1 := path_of (a_r1 args) in
  let r2 := path_of (a_r2 args) in
  r1_exists <- exists_ r1 ;;
  if negb r1_exists then
    print_err (lit "R1 not found: " ++ path_str r1) ;; return_code 2
  else
  r2_exists <- exists_ r2 ;;
  if negb r2_exists then
    print_err (lit "R2 not found: " ++ path_str r2) ;; return_code 2
  else
  let base_outdir :=
    match truthy (a_outdir args) with
    | Some d => path_of d
    | None => path_parent r1
    end in
  mkdir base_outdir ;;
  let prefix_base :=
    match truthy (a_prefix args) with
    | Some p => p
    | None => infer_prefix r1
    end in
  run_id <-
    match truthy (a_run_id args) with
    | Some s => ret (Py.strip s)
    | None => ask clock_stamp
    end ;;
  match validate_run_id run_id with
  | Some e => raise e
  | None =>
  let run_name := run_dir_name prefix_base (a_mode args) run_id in
  let run_dir := join_str base_outdir run_name in
  mkdir run_dir ;;
  let assemble_prefix_arg :=
    match truthy (a_assemble_prefix args) with
    | Some p => p
    | None => run_name ++ lit "_presto"
    end in
  let assemble_prefix_path := path_of assemble_prefix_arg in
  let assemble_outname :=
    if path_is_absolute assemble_prefix_path then assemble_prefix_path
    else join_str run_dir assemble_prefix_arg in
  mkdir (path_parent assemble_outname) ;;
  let log_path :=
    match truthy (a_log args) with
    | Some l =>
        let log_path := path_of l in
        if negb (path_is_absolute log_path) then path_join run_dir log_path
        else log_path
    | None => join_str run_dir (run_name ++ lit "_AP_align.log")
    end in
  let adapters :=
    {| r1_5p := sanitize_adapter (a_adapter_5p_r1 args);
       r2_5p := sanitize_adapter (a_adapter_5p_r2 args);
       r1_3p := sanitize_adapter (a_adapter_3p_r1 args);
       r2_3p := sanitize_adapter (a_adapter_3p_r2 args) |} in
  ret {| r1 := r1; r2 := r2;
         base_outdir := base_outdir;
         prefix_base := prefix_base;
         run_id := run_id;
         run_name := run_name;
         run_dir := run_dir;
         assemble_outname := assemble_outname;
         log_path := log_path;
         adapters := adapters;
         trimmed_r1 := join_str run_dir (run_name ++ lit "_trim_R1.fastq");
         trimmed_r2 := join_str run_dir (run_name ++ lit "_trim_R2.fastq");
         merge_then_trim_fastq := join_str run_dir (run_name ++ lit ".fastq") |}
  end.

(** The optional paired trim and the assembly. *)
Definition main_assemble (args : Args) (run : Run) : M unit :=
  inputs <-
    (if Py.str_eqb (a_mode args) "trim-merge" then
       run_cutadapt_paired (r1 run) (r2 run) (trimmed_r1 run) (trimmed_r2 run)
         (adapters run) (a_threads args) (a_cutadapt_error_rate args)
         (a_cutadapt_overlap args) (a_cutadapt_min_length args) (a_dry_run args) ;;
       ret (trimmed_r1 run, trimmed_r2 run)
     else ret (r1 run, r2 run)) ;;
  let (assemble_r1, assemble_r2) := (inputs : Path * Path) in
  run_assemblepairs assemble_r1 assemble_r2 (path_str (assemble_outname run))
    (a_coord args) (a_rc args) (log_path run) (a_failed args)
    (a_swap_r1r2 args) (a_dry_run args) (run_dir run).

Definition assemble_pass (run : Run) : Path :=
  join_str (path_parent (assemble_outname run))
           (path_name (assemble_outname run) ++ lit "_assemble-pass.fastq").

(** The check of the assembly output. *)
Definition main_check_assembly (args : Args) (run : Run) : M unit :=
  missing <-
    (if a_dry_run args then ret false
     else found <- exists_ (assemble_pass run) ;; ret (negb found)) ;;
  if (missing : bool) then
    print_err (lit "AssemblePairs output not found: " ++ path_str (assemble_pass run)) ;;
    return_code 3
  else ret tt.

(** The check of the output of the trim of the merged reads. *)
Definition main_check_trim (args : Args) (run : Run) : M unit :=
  missing <-
    (if a_dry_run args then ret false
     else found <- exists_ (merge_then_trim_fastq run) ;; ret (negb found)) ;;
  if (missing : bool) then
    print_err (lit "merge-then-trim output not found: "
               ++ path_str (merge_then_trim_fastq run)) ;;
    return_code 4
  else ret tt.

(** The optional trim of the merged reads; the result is [fasta_source]. *)
Definition main_post_trim (args : Args) (run : Run) : M Path :=
  if Py.str_eqb (a_mode args) "merge-trim" then
    run_cutadapt_single (assemble_pass run) (merge_then_trim_fastq run)
      (adapters run) (a_threads args) (a_cutadapt_error_rate args)
      (a_cutadapt_overlap args) (a_cutadapt_min_length args) (a_dry_run args) ;;
    main_check_trim args run ;;
    ret (merge_then_trim_fastq run)
  else ret (assemble_pass run).

(** The conversion and the closing report. *)
Definition main_convert (args : Args) (run : Run) (fasta_source : Path) : M Z :=
  let fasta_out := path_with_suffix fasta_source ".fasta" in
  (if a_dry_run args then
     print (lit ">> fastq_to_fasta " ++ path_str fasta_source
            ++ lit " -> " ++ path_str fasta_out)
   else fastq_to_fasta fasta_source fasta_out) ;;
  print "Done." ;;
  print (lit "output folder: " ++ path_str (run_dir run)) ;;
  print (lit "merged fastq: " ++ path_str fasta_source) ;;
  print (lit "fasta: " ++ path_str fasta_out) ;;
  print (lit "log: " ++ path_str (log_path run)) ;;
  return_code 0.

(** [main] after the assembly. *)
Definition main_finish (args : Args) (run : Run) : M Z :=
  main_check_assembly args run ;;
  fasta_source <- main_post_trim args run ;;
  main_convert args run fasta_source.

Definition main (args : Args) : M Z :=
  run <- main_resolve args ;;
  main_assemble args run ;;
  main_finish args run.

(** The exit status of the process: [raise SystemExit(main())], and 1 when
    an exception escapes. *)
Definition exit_status (r : result Z) : Z :=
  match r with
  | Normal code => code
  | Return code => code
  | Raise _ => 1
  end.

End Pipeline.

(** ** A small implementation of the interface

    POSIX-style paths kept as normalized strings and a file system held in
    two lists, with external tools that can be told to produce nothing.
    The examples and the concrete runs below are evaluated on it. *)

Module Toy.

(** The text before and after the last slash, if there is one. *)
Fixpoint split_last_slash (p : str) : option (str * str) :=
  match p with
  | [] => None
  | c :: p' =>
      match split_last_slash p' with
      | Some (d, n) => Some (c :: d, n)
      | None => if N.eqb c 47 then Some ([], p') else None
      end
  end.

Definition parent (p : str) : str :=
  match split_last_slash p with
  | Some ([], _) => lit "/"
  | Some (d, _) => d
  | None => lit "."
  end.

Definition name (p : str) : str :=
  match split_last_slash p with
  | Some (_, n) => n
  | None => p
  end.

(** The stem and the suffix of a file name: the cut is at the last dot
    that is not the first character. *)
Fixpoint split_last_dot (n : str) : option (str * str) :=
  match n with
  | [] => None
  | c :: n' =>
      match split_last_dot n' with
      | Some (stem, suf) => Some (c :: stem, suf)
      | None => if N.eqb c 46 then Some ([], c :: n') else None
      end
  end.

Definition suffix (p : str) : str :=
  match name p with
  | [] => []
  | c :: n' =>
      match split_last_dot n' with
      | Some (_, suf) => suf
      | None => []
      end
  end.

Definition with_suffix (p s : str) : str :=
  firstn (length p - length (suffix p)) p ++ s.

Definition join (a b : str) : str :=
  if Py.startswith b "/" then b
  else if Py.str_eqb a "." then b
  else if Py.endswith a "/" then a ++ b
  else a ++ lit "/" ++ b.

#[export] Instance lib : PyLib := {|
  Path := str;
  path_of := fun s => s;
  path_str := fun p => p;
  path_join := join;
  path_parent := parent;
  path_name := name;
  path_suffix := suffix;
  path_with_suffix := with_suffix;
  path_is_absolute := fun p => Py.startswith p "/";
  pyfloat := str;
  str_of_float := fun x => x
|}.

Record host := {
  dirs : list str;
  files : list (str * str);
  environ_conda_prefix : option str;
  on_path : list (str * str);
  executable : str;
  now : str;
  (* what the assembler writes as its pass output, if anything *)
  assembler_output : option str;
  (* whether the trimmer writes its outputs *)
  trimmer_writes : bool;
  (* whether external programs end with a non-zero status *)
  tools_fail : bool
}.

Fixpoint lookup (k : str) (d : list (str * str)) : option str :=
  match d with
  | [] => None
  | (k', v) :: d' => if Py.str_eqb k k' then Some v else lookup k d'
  end.

Definition path_exists (w : host) (p : str) : bool :=
  existsb (Py.str_eqb p) (dirs w) ||
  match lookup p (files w) with Some _ => true | None => false end.

Definition with_dir (w : host) (p : str) : host :=
  {| dirs := if path_exists w p then dirs w else dirs w ++ [p];
     files := files w;
     environ_conda_prefix := environ_conda_prefix w;
     on_path := on_path w;
     executable := executable w;
     now := now w;
     assembler_output := assembler_output w;
     trimmer_writes := trimmer_writes w;
     tools_fail := tools_fail w |}.

Definition with_file (w : host) (p text : str) : host :=
  {| dirs := dirs w;
     files := (p, text) :: files w;
     environ_conda_prefix := environ_conda_prefix w;
     on_path := on_path w;
     executable := executable w;
     now := now w;
     assembler_output := assembler_output w;
     trimmer_writes := trimmer_writes w;
     tools_fail := tools_fail w |}.

(** The token that follows [key] in a command line. *)
Fixpoint value_after (key : str) (cmd : list str) : option str :=
  match cmd with
  | k :: rest =>
      if Py.str_eqb k key then hd_error rest else value_after key rest
  | [] => None
  end.

(** The assembler writes [<outname>_assemble-pass.fastq]; the trimmer
    copies its last argument to the file named after [-o]. *)
Definition run_tool (w : host) (cmd : list str) (cwd : option str) : exn + host :=
  if tools_fail w then inl (CalledProcessError cmd)
  else if existsb (Py.str_eqb "align") cmd then
    match value_after "--outname" cmd, assembler_output w with
    | Some outname, Some text =>
        inr (with_file w (outname ++ lit "_assemble-pass.fastq") text)
    | _, _ => inr w
    end
  else
    match value_after "-o" cmd, lookup (last cmd []) (files w) with
    | Some out, Some text =>
        if trimmer_writes w then inr (with_file w out text) else inr w
    | _, _ => inr w
    end.

#[export] Instance sys : System lib := {|
  World := host;
  fs_exists := path_exists;
  fs_mkdir := fun w p => Some (with_dir w p);
  clock_stamp := now;
  env_conda_prefix := environ_conda_prefix;
  shutil_which := fun w n => lookup n (on_path w);
  sys_executable := executable;
  subprocess_run := run_tool;
  fs_read_text := fun w p _ => lookup p (files w);
  fs_create := fun w p => Some (with_file w p []);
  fs_write_text := fun w p text => with_file w p text
|}.

Definition sample_reads : str :=
  lit "@read1 extra" ++ NL ++ lit "ACGT" ++ NL ++ lit "+" ++ NL ++ lit "IIII" ++ NL.

(** A machine with both tools installed and the two read files in [/data]. *)
Definition machine : host :=
  {| dirs := [lit "/"; lit "/data"];
     files := [(lit "/data/s1_R1.fastq", sample_reads);
               (lit "/data/s1_R2.fastq", sample_reads)];
     environ_conda_prefix := None;
     on_path := [(lit "AssemblePairs.py", lit "/opt/bin/AssemblePairs.py");
                 (lit "cutadapt", lit "/opt/bin/cutadapt")];
     executable := lit "/opt/bin/python3";
     now := lit "20240101_120000";
     assembler_output := Some sample_reads;
     trimmer_writes := true;
     tools_fail := false |}.

(** The same machine with an assembler that ends normally and writes
    nothing. *)
Definition machine_silent_assembler : host :=
  {| dirs := dirs machine; files := files machine;
     environ_conda_prefix := None; on_path := on_path machine;
     executable := executable machine; now := now machine;
     assembler_output := None; trimmer_writes := true; tools_fail := false |}.

(** The same machine with a trimmer that ends normally and writes nothing. *)
Definition machine_silent_trimmer : host :=
  {| dirs := dirs machine; files := files machine;
     environ_conda_prefix := None; on_path := on_path machine;
     executable := executable machine; now := now machine;
     assembler_output := Some sample_reads; trimmer_writes := false;
     tools_fail := false |}.

(** The same machine before the read files are put in place. *)
Definition machine_without_reads : host :=
  {| dirs := dirs machine; files := [];
     environ_conda_prefix := None; on_path := on_path machine;
     executable := executable machine; now := now machine;
     assembler_output := Some sample_reads; trimmer_writes := true;
     tools_fail := false |}.

Definition start (w : host) : state := {| world := w; log := [] |}.

(** The command line [--mode <mode> --r1 /data/s1_R1.fastq
    --r2 /data/s1_R2.fastq --run-id <run_id>] with the given flags. *)
Definition args_for (mode : str) (run_id : option str) (outdir : option str)
    (dry_run swap : bool) : Args :=
  {| a_mode := mode;
     a_r1 := lit "/data/s1_R1.fastq";
     a_r2 := lit "/data/s1_R2.fastq";
     a_outdir := outdir;
     a_prefix := None;
     a_assemble_prefix := None;
     a_run_id := run_id;
     a_log := None;
     a_threads := 8;
     a_cutadapt_error_rate := lit "0.15";
     a_cutadapt_overlap := 10;
     a_cutadapt_min_length := 50;
     a_adapter_5p_r1 := lit "TGAGTTCCACGACACCGTCA";
     a_adapter_5p_r2 := lit "CTAATACGACTCCGAATTCC";
     a_adapter_3p_r1 := lit "GGAATTCGGAGTCGTATTAG";
     a_adapter_3p_r2 := lit "TGACGGTGTCGTGGAACTCA";
     a_coord := lit "illumina";
     a_rc := lit "tail";
     a_failed := false;
     a_swap_r1r2 := swap;
     a_dry_run := dry_run |}.

Definition merge_only_run1 : Args :=
  args_for "merge-only" (Some (lit "run1")) None false false.

Definition trim_merge_run1 : Args :=
  args_for "trim-merge" (Some (lit "run1")) None false false.

Definition merge_trim_run1 : Args :=
  args_for "merge-trim" (Some (lit "run1")) None false false.

Definition trim_merge_dry_run : Args :=
  args_for "trim-merge" (Some (lit "run1")) None true false.


(** The same machine without the assembler. *)
Definition machine_without_assembler : host :=
  {| dirs := dirs machine; files := files machine;
     environ_conda_prefix := None;
     on_path := [(lit "cutadapt", lit "/opt/bin/cutadapt")];
     executable := executable machine; now := now machine;
     assembler_output := Some sample_reads; trimmer_writes := true;
     tools_fail := false |}.

(** A run identifier of two spaces. *)
Definition blank_run_id : Args :=
  args_for "merge-only" (Some (lit "  ")) None false false.

End Toy.


(** ** Vocabulary of the statements *)

Definition caret : char := 94%N.
Definition dollar : char := 36%N.
Definition at_sign : char := 64%N.
Definition line_feed : char := 10%N.

Definition all_space (s : str) : Prop := Forall (fun c => Py.is_space c = true) s.
Definition no_space (s : str) : Prop := Forall (fun c => Py.is_space c = false) s.
Definition no_line_feed (s : str) : Prop := Forall (fun c => c <> line_feed) s.

(** [s] neither starts nor ends with whitespace. *)
Definition trimmed (s : str) : Prop :=
  match s with [] => True | c :: _ => Py.is_space c = false end /\
  match rev s with [] => True | c :: _ => Py.is_space c = false end.

(** [sub] occurs in [s] at offset [length pre]. *)
Definition occurs_after (pre sub s : str) : Prop :=
  exists post, s = pre ++ sub ++ post.

(** [stem] is [name] without its FASTQ suffix, or [name] itself when it
    carries none. *)
Definition suffix_stripped (name stem : str) : Prop :=
  (exists suffix, In suffix FASTQ_SUFFIXES /\ name = stem ++ suffix) \/
  ((forall suffix, In suffix FASTQ_SUFFIXES -> Py.endswith name suffix = false) /\
   stem = name).

Section Events.

Context {L : PyLib}.

(** The command lines echoed, in order: one for every call of
    [run_command], executed or not. *)
Fixpoint echoes (evs : list event) : list (list str) :=
  match evs with
  | [] => []
  | EvEcho cmd :: evs' => cmd :: echoes evs'
  | _ :: evs' => echoes evs'
  end.

(** The external programs executed, in order, each with its working
    directory. *)
Fixpoint spawns (evs : list event) : list (list str * option str) :=
  match evs with
  | [] => []
  | EvSubprocess cmd cwd :: evs' => (cmd, cwd) :: spawns evs'
  | _ :: evs' => spawns evs'
  end.

(** The directories that [mkdir] was called on, in order. *)
Fixpoint mkdirs (evs : list event) : list Path :=
  match evs with
  | [] => []
  | EvMkdir p :: evs' => p :: mkdirs evs'
  | _ :: evs' => mkdirs evs'
  end.

Definition is_exists (ev : event) : Prop :=
  match ev with EvExists _ => True | _ => False end.

(** Events of the checks of the inputs. *)
Definition is_input_check (ev : event) : Prop :=
  match ev with EvExists _ | EvStderr _ => True | _ => False end.

(** Events that only print. *)
Definition is_print (ev : event) : Prop :=
  match ev with EvStdout _ | EvEcho _ => True | _ => False end.

(** Events of a dry run: nothing is executed, and no file is opened. *)
Definition is_dry (ev : event) : Prop :=
  match ev with
  | EvSubprocess _ _ | EvOpenRead _ | EvOpenWrite _ => False
  | _ => True
  end.

(** Events of the conversion: the two files are opened. *)
Definition is_conversion (ev : event) : Prop :=
  match ev with EvOpenRead _ | EvOpenWrite _ => True | _ => False end.

End Events.

Section Outcomes.

Context {L : PyLib} {Sy : System L}.

(** The state reached from [st] in the world [w] after the events [evs]. *)
Definition after (st : state) (w : World) (evs : list event) : state :=
  {| world := w; log := log st ++ evs |}.

(** Run from [st], the computation [m] ends with a result, a world and new
    events that satisfy [Q]; the log only grows. *)
Definition yields {A : Type} (m : M A) (st : state)
    (Q : result A -> World -> list event -> Prop) : Prop :=
  exists r w evs, m st = (r, after st w evs) /\ Q r w evs.

(** The events of one call of [run_command]. *)
Definition command_events (cmd : list str) (cwd : option str) (dry_run : bool)
    : list event :=
  EvEcho cmd :: (if dry_run then [] else [EvSubprocess cmd cwd]).

(** The base output directory that [main] creates first. *)
Definition base_outdir_of (args : Args) : Path :=
  match truthy (a_outdir args) with
  | Some d => path_of d
  | None => path_parent (path_of (a_r1 args))
  end.

(** The sample prefix: the explicit one, or the one inferred from R1. *)
Definition prefix_of (args : Args) : str :=
  match truthy (a_prefix args) with
  | Some p => p
  | None => infer_prefix (path_of (a_r1 args))
  end.

(** The names that [main] derives from the arguments and the run
    identifier. *)
Definition planned_run (args : Args) (run_id : str) : Run :=
  let run_name := run_dir_name (prefix_of args) (a_mode args) run_id in
  let run_dir := join_str (base_outdir_of args) run_name in
  let assemble_prefix_arg :=
    match truthy (a_assemble_prefix args) with
    | Some p => p
    | None => run_name ++ lit "_presto"
    end in
  {| r1 := path_of (a_r1 args);
     r2 := path_of (a_r2 args);
     base_outdir := base_outdir_of args;
     prefix_base := prefix_of args;
     run_id := run_id;
     run_name := run_name;
     run_dir := run_dir;
     assemble_outname :=
       if path_is_absolute (path_of assemble_prefix_arg)
       then path_of assemble_prefix_arg
       else join_str run_dir assemble_prefix_arg;
     log_path :=
       match truthy (a_log args) with
       | Some l =>
           if negb (path_is_absolute (path_of l))
           then path_join run_dir (path_of l)
           else path_of l
       | None => join_str run_dir (run_name ++ lit "_AP_align.log")
       end;
     adapters :=
       {| r1_5p := sanitize_adapter (a_adapter_5p_r1 args);
          r2_5p := sanitize_adapter (a_adapter_5p_r2 args);
          r1_3p := sanitize_adapter (a_adapter_3p_r1 args);
          r2_3p := sanitize_adapter (a_adapter_3p_r2 args) |};
     trimmed_r1 := join_str run_dir (run_name ++ lit "_trim_R1.fastq");
     trimmed_r2 := join_str run_dir (run_name ++ lit "_trim_R2.fastq");
     merge_then_trim_fastq := join_str run_dir (run_name ++ lit ".fastq") |}.

(** The run identifier in force: the explicit one, stripped, or the time
    stamp read in the world [w]. *)
Definition run_id_of (args : Args) (w : World) : str :=
  match truthy (a_run_id args) with
  | Some s => Py.strip s
  | None => clock_stamp w
  end.

(** The command line of the paired trim of a run, after the resolved
    [cutadapt] command. *)
Definition paired_trim_cmd (args : Args) (run : Run) (cutadapt : list str) : list str :=
  cutadapt ++
  cutadapt_paired_args (r1 run) (r2 run) (trimmed_r1 run) (trimmed_r2 run)
    (adapters run) (a_threads args) (a_cutadapt_error_rate args)
    (a_cutadapt_overlap args) (a_cutadapt_min_length args).

(** The command line of the trim of the merged reads of a run. *)
Definition single_trim_cmd (args : Args) (run : Run) (cutadapt : list str) : list str :=
  cutadapt ++
  cutadapt_single_args (assemble_pass run) (merge_then_trim_fastq run)
    (adapters run) (a_threads args) (a_cutadapt_error_rate args)
    (a_cutadapt_overlap args) (a_cutadapt_min_length args).

(** The command line of the assembly of a run on the reads [in1], [in2]. *)
Definition assembly_cmd (args : Args) (run : Run) (exe : str) (script in1 in2 : Path)
    : list str :=
  assemblepairs_cmd exe script in1 in2 (path_str (assemble_outname run))
    (a_coord args) (a_rc args) (log_path run) (a_failed args) (a_swap_r1r2 args).

(** The ways [main_resolve] can end from the state [st]: its result, the
    world it leaves and the events it adds. *)
Inductive resolved (args : Args) (st : state)
    : result Run -> World -> list event -> Prop :=
| resolved_r1_missing :
    fs_exists (world st) (path_of (a_r1 args)) = false ->
    resolved args st (Return 2) (world st)
      [EvExists (path_of (a_r1 args));
       EvStderr (lit "R1 not found: " ++ path_str (path_of (a_r1 args)))]
| resolved_r2_missing :
    fs_exists (world st) (path_of (a_r1 args)) = true ->
    fs_exists (world st) (path_of (a_r2 args)) = false ->
    resolved args st (Return 2) (world st)
      [EvExists (path_of (a_r1 args)); EvExists (path_of (a_r2 args));
       EvStderr (lit "R2 not found: " ++ path_str (path_of (a_r2 args)))]
| resolved_base_failed :
    fs_exists (world st) (path_of (a_r1 args)) = true ->
    fs_exists (world st) (path_of (a_r2 args)) = true ->
    fs_mkdir (world st) (base_outdir_of args) = None ->
    resolved args st (Raise OSError) (world st)
      [EvExists (path_of (a_r1 args)); EvExists (path_of (a_r2 args));
       EvMkdir (base_outdir_of args)]
| resolved_invalid_run_id (w1 : World) (e : exn) :
    fs_exists (world st) (path_of (a_r1 args)) = true ->
    fs_exists (world st) (path_of (a_r2 args)) = true ->
    fs_mkdir (world st) (base_outdir_of args) = Some w1 ->
    validate_run_id (run_id_of args w1) = Some e ->
    resolved args st (Raise e) w1
      [EvExists (path_of (a_r1 args)); EvExists (path_of (a_r2 args));
       EvMkdir (base_outdir_of args)]
| resolved_run_dir_failed (w1 : World) :
    fs_exists (world st) (path_of (a_r1 args)) = true ->
    fs_exists (world st) (path_of (a_r2 args)) = true ->
    fs_mkdir (world st) (base_outdir_of args) = Some w1 ->
    validate_run_id (run_id_of args w1) = None ->
    fs_mkdir w1 (run_dir (planned_run args (run_id_of args w1))) = None ->
    resolved args st (Raise OSError) w1
      [EvExists (path_of (a_r1 args)); EvExists (path_of (a_r2 args));
       EvMkdir (base_outdir_of args);
       EvMkdir (run_dir (planned_run args (run_id_of args w1)))]
| resolved_parent_failed (w1 w2 : World) :
    fs_exists (world st) (path_of (a_r1 args)) = true ->
    fs_exists (world st) (path_of (a_r2 args)) = true ->
    fs_mkdir (world st) (base_outdir_of args) = Some w1 ->
    validate_run_id (run_id_of args w1) = None ->
    fs_mkdir w1 (run_dir (planned_run args (run_id_of args w1))) = Some w2 ->
    fs_mkdir w2 (path_parent (assemble_outname (planned_run args (run_id_of args w1))))
      = None ->
    resolved args st (Raise OSError) w2
      [EvExists (path_of (a_r1 args)); EvExists (path_of (a_r2 args));
       EvMkdir (base_outdir_of args);
       EvMkdir (run_dir (planned_run args (run_id_of args w1)));
       EvMkdir (path_parent (assemble_outname (planned_run args (run_id_of args w1))))]
| resolved_run (w1 w2 w3 : World) :
    fs_exists (world st) (path_of (a_r1 args)) = true ->
    fs_exists (world st) (path_of (a_r2 args)) = true ->
    fs_mkdir (world st) (base_outdir_of args) = Some w1 ->
    validate_run_id (run_id_of args w1) = None ->
    fs_mkdir w1 (run_dir (planned_run args (run_id_of args w1))) = Some w2 ->
    fs_mkdir w2 (path_parent (assemble_outname (planned_run args (run_id_of args w1))))
      = Some w3 ->
    resolved args st (Normal (planned_run args (run_id_of args w1))) w3
      [EvExists (path_of (a_r1 args)); EvExists (path_of (a_r2 args));
       EvMkdir (base_outdir_of args);
       EvMkdir (run_dir (planned_run args (run_id_of args w1)));
       EvMkdir (path_parent (assemble_outname (planned_run args (run_id_of args w1))))].

(** The ways a call of [run_command] can end. *)
Inductive commanded (cmd : list str) (cwd : option str) (dry_run : bool) (st : state)
    : result unit -> World -> list event -> Prop :=
| commanded_dry :
    dry_run = true ->
    commanded cmd cwd dry_run st (Normal tt) (world st) [EvEcho cmd]
| commanded_run (w : World) :
    dry_run = false ->
    subprocess_run (world st) cmd cwd = inr w ->
    commanded cmd cwd dry_run st (Normal tt) w [EvEcho cmd; EvSubprocess cmd cwd]
| commanded_failed (e : exn) :
    dry_run = false ->
    subprocess_run (world st) cmd cwd = inl e ->
    commanded cmd cwd dry_run st (Raise e) (world st)
      [EvEcho cmd; EvSubprocess cmd cwd].

(** The inputs of the assembly: the trimmed reads in mode [trim-merge], the
    raw reads otherwise. *)
Definition assembly_inputs (args : Args) (run : Run) : Path * Path :=
  if Py.str_eqb (a_mode args) "trim-merge"
  then (trimmed_r1 run, trimmed_r2 run)
  else (r1 run, r2 run).

(** The ways the call of [run_assemblepairs] in [main_assemble] can end. *)
Inductive assembled_reads (args : Args) (run : Run) (st : state)
    : result unit -> World -> list event -> Prop :=
| assembled_no_tool (msg : str) (checks : list event) :
    Forall is_exists checks ->
    assembled_reads args run st (Raise (FileNotFoundError msg)) (world st) checks
| assembled_command (script : Path) (checks : list event)
    (r : result unit) (w : World) (evs : list event) :
    Forall is_exists checks ->
    commanded
      (assembly_cmd args run (sys_executable (world st)) script
         (fst (assembly_inputs args run)) (snd (assembly_inputs args run)))
      (Some (path_str (run_dir run))) (a_dry_run args)
      (after st (world st) checks) r w evs ->
    assembled_reads args run st r w (checks ++ evs).

(** The ways [main_assemble] can end. *)
Inductive assembled (args : Args) (run : Run) (st : state)
    : result unit -> World -> list event -> Prop :=
| assembled_trim_failed (cutadapt : list str) (e : exn) (w : World) (evs : list event) :
    Py.str_eqb (a_mode args) "trim-merge" = true ->
    commanded (paired_trim_cmd args run cutadapt) None (a_dry_run args) st
      (Raise e) w evs ->
    assembled args run st (Raise e) w evs
| assembled_after_trim (cutadapt : list str) (w1 : World) (evs1 : list event)
    (r : result unit) (w : World) (evs : list event) :
    Py.str_eqb (a_mode args) "trim-merge" = true ->
    commanded (paired_trim_cmd args run cutadapt) None (a_dry_run args) st
      (Normal tt) w1 evs1 ->
    assembled_reads args run (after st w1 evs1) r w evs ->
    assembled args run st r w (evs1 ++ evs)
| assembled_untrimmed (r : result unit) (w : World) (evs : list event) :
    Py.str_eqb (a_mode args) "trim-merge" = false ->
    assembled_reads args run st r w evs ->
    assembled args run st r w evs.

(** The ways a check of an output file can end: skipped in a dry run,
    passed, or failed with the exit code [code]. *)
Inductive checked (p : Path) (code : Z) (msg : str) (dry_run : bool) (st : state)
    : result unit -> World -> list event -> Prop :=
| checked_skipped :
    dry_run = true ->
    checked p code msg dry_run st (Normal tt) (world st) []
| checked_found :
    dry_run = false -> fs_exists (world st) p = true ->
    checked p code msg dry_run st (Normal tt) (world st) [EvExists p]
| checked_missing :
    dry_run = false -> fs_exists (world st) p = false ->
    checked p code msg dry_run st (Return code) (world st)
      [EvExists p; EvStderr msg].

Definition assembly_missing (run : Run) : str :=
  lit "AssemblePairs output not found: " ++ path_str (assemble_pass run).

Definition trim_missing (run : Run) : str :=
  lit "merge-then-trim output not found: " ++ path_str (merge_then_trim_fastq run).

(** The ways [main_post_trim] can end. *)
Inductive post_trimmed (args : Args) (run : Run) (st : state)
    : result Path -> World -> list event -> Prop :=
| post_trim_skipped :
    Py.str_eqb (a_mode args) "merge-trim" = false ->
    post_trimmed args run st (Normal (assemble_pass run)) (world st) []
| post_trim_failed (cutadapt : list str) (e : exn) (w : World) (evs : list event) :
    Py.str_eqb (a_mode args) "merge-trim" = true ->
    commanded (single_trim_cmd args run cutadapt) None (a_dry_run args) st
      (Raise e) w evs ->
    post_trimmed args run st (Raise e) w evs
| post_trim_checked (cutadapt : list str) (w1 : World) (evs1 : list event)
    (w : World) (evs : list event) :
    Py.str_eqb (a_mode args) "merge-trim" = true ->
    commanded (single_trim_cmd args run cutadapt) None (a_dry_run args) st
      (Normal tt) w1 evs1 ->
    checked (merge_then_trim_fastq run) 4 (trim_missing run) (a_dry_run args)
      (after st w1 evs1) (Normal tt) w evs ->
    post_trimmed args run st (Normal (merge_then_trim_fastq run)) w (evs1 ++ evs)
| post_trim_missing (cutadapt : list str) (w1 : World) (evs1 : list event)
    (w : World) (evs : list event) :
    Py.str_eqb (a_mode args) "merge-trim" = true ->
    commanded (single_trim_cmd args run cutadapt) None (a_dry_run args) st
      (Normal tt) w1 evs1 ->
    checked (merge_then_trim_fastq run) 4 (trim_missing run) (a_dry_run args)
      (after st w1 evs1) (Return 4) w evs ->
    post_trimmed args run st (Return 4) w (evs1 ++ evs).

(** The lines that close a successful run. *)
Definition closing_report (run : Run) (fasta_source : Path) : list event :=
  [ EvStdout (lit "Done.");
    EvStdout (lit "output folder: " ++ path_str (run_dir run));
    EvStdout (lit "merged fastq: " ++ path_str fasta_source);
    EvStdout (lit "fasta: " ++ path_str (path_with_suffix fasta_source ".fasta"));
    EvStdout (lit "log: " ++ path_str (log_path run)) ].

(** The ways [main_convert] can end. *)
Inductive reported (args : Args) (run : Run) (fasta_source : Path) (st : state)
    : result Z -> World -> list event -> Prop :=
| reported_dry :
    a_dry_run args = true ->
    reported args run fasta_source st (Return 0) (world st)
      (EvStdout (lit ">> fastq_to_fasta " ++ path_str fasta_source ++ lit " -> "
                 ++ path_str (path_with_suffix fasta_source ".fasta"))
       :: closing_report run fasta_source)
| reported_converted (w : World) (evs : list event) :
    a_dry_run args = false ->
    fastq_to_fasta fasta_source (path_with_suffix fasta_source ".fasta") st
      = (Normal tt, after st w evs) ->
    Forall is_conversion evs ->
    reported args run fasta_source st (Return 0) w
      (evs ++ closing_report run fasta_source)
| reported_failed (e : exn) (w : World) (evs : list event) :
    a_dry_run args = false ->
    fastq_to_fasta fasta_source (path_with_suffix fasta_source ".fasta") st
      = (Raise e, after st w evs) ->
    Forall is_conversion evs ->
    reported args run fasta_source st (Raise e) w evs.

(** The ways [main_finish] can end. *)
Inductive finished (args : Args) (run : Run) (st : state)
    : result Z -> World -> list event -> Prop :=
| finished_no_assembly (w : World) (evs : list event) :
    checked (assemble_pass run) 3 (assembly_missing run) (a_dry_run args) st
      (Return 3) w evs ->
    finished args run st (Return 3) w evs
| finished_trim_failed (w1 : World) (evs1 : list event) (e : exn)
    (w : World) (evs : list event) :
    checked (assemble_pass run) 3 (assembly_missing run) (a_dry_run args) st
      (Normal tt) w1 evs1 ->
    post_trimmed args run (after st w1 evs1) (Raise e) w evs ->
    finished args run st (Raise e) w (evs1 ++ evs)
| finished_no_trim (w1 : World) (evs1 : list event) (w : World) (evs : list event) :
    checked (assemble_pass run) 3 (assembly_missing run) (a_dry_run args) st
      (Normal tt) w1 evs1 ->
    post_trimmed args run (after st w1 evs1) (Return 4) w evs ->
    finished args run st (Return 4) w (evs1 ++ evs)
| finished_reported (w1 : World) (evs1 : list event) (fasta_source : Path)
    (w2 : World) (evs2 : list event) (r : result Z) (w : World) (evs : list event) :
    checked (assemble_pass run) 3 (assembly_missing run) (a_dry_run args) st
      (Normal tt) w1 evs1 ->
    post_trimmed args run (after st w1 evs1) (Normal fasta_source) w2 evs2 ->
    reported args run fasta_source (after st w2 (evs1 ++ evs2)) r w evs ->
    finished args run st r w (evs1 ++ evs2 ++ evs).

(** The ways [main] can end. *)
Inductive ran (args : Args) (st : state)
    : result Z -> World -> list event -> Prop :=
| ran_inputs_missing (w : World) (evs : list event) :
    resolved args st (Return 2) w evs ->
    ran args st (Return 2) w evs
| ran_unresolved (e : exn) (w : World) (evs : list event) :
    resolved args st (Raise e) w evs ->
    ran args st (Raise e) w evs
| ran_unassembled (run : Run) (w1 : World) (evs1 : list event)
    (e : exn) (w : World) (evs : list event) :
    resolved args st (Normal run) w1 evs1 ->
    assembled args run (after st w1 evs1) (Raise e) w evs ->
    ran args st (Raise e) w (evs1 ++ evs)
| ran_finished (run : Run) (w1 : World) (evs1 : list event)
    (w2 : World) (evs2 : list event) (r : result Z) (w : World) (evs : list event) :
    resolved args st (Normal run) w1 evs1 ->
    assembled args run (after st w1 evs1) (Normal tt) w2 evs2 ->
    finished args run (after st w2 (evs1 ++ evs2)) r w evs ->
    ran args st r w (evs1 ++ evs2 ++ evs).

(** [main] came to the conversion: every stage before it ended normally,
    in the state [st'] and with [fasta_source] chosen. *)
Definition reaches_conversion (args : Args) (st : state)
    (run : Run) (fasta_source : Path) (st' : state) : Prop :=
  exists st1 st2 st3,
    main_resolve args st = (Normal run, st1) /\
    main_assemble args run st1 = (Normal tt, st2) /\
    main_check_assembly args run st2 = (Normal tt, st3) /\
    main_post_trim args run st3 = (Normal fasta_source, st').

End Outcomes.

(** The text [pre] written before what [c] records. *)
Definition prepend (pre : str) (c : converted) : converted :=
  {| written := pre ++ written c; raised := raised c |}.

(** [token] is the first run of characters without whitespace in the header
    [h], once leading whitespace and one leading at-sign are passed. *)
Definition first_token (h token : str) : Prop :=
  exists ws1 at_ ws2 rest,
    h = ws1 ++ at_ ++ ws2 ++ token ++ rest /\
    all_space ws1 /\ all_space ws2 /\
    (at_ = [at_sign] \/
     (at_ = [] /\ ws2 = [] /\ Py.startswith token [at_sign] = false)) /\
    token <> [] /\ no_space token /\
    match rest with [] => True | c :: _ => Py.is_space c = true end.

(** [core] is [s] without the whitespace around it. *)
Definition core_of (s core : str) : Prop :=
  exists ws1 ws2,
    s = ws1 ++ core ++ ws2 /\ all_space ws1 /\ all_space ws2 /\ trimmed core.

(** The four lines of a record whose lines all end in a line feed. *)
Definition fastq_record (h s p q : str) : str :=
  h ++ NL ++ s ++ NL ++ p ++ NL ++ q ++ NL.

(** The two lines written for a record. *)
Definition fasta_record (token core : str) : str :=
  lit ">" ++ token ++ NL ++ core ++ NL.

(** [records_then fin out tail]: [fin] is a run of complete records, each
    with a header token, followed by [tail], and [out] is the FASTA text of
    these records.  The quality line of a record that ends the input may
    lack its line feed. *)
Inductive records_then : str -> str -> str -> Prop :=
| rt_done (tail : str) : records_then tail [] tail
| rt_record (h s p q token core rest out tail : str) :
    no_line_feed h -> no_line_feed s -> no_line_feed p -> no_line_feed q ->
    first_token h token -> core_of s core ->
    records_then rest out tail ->
    records_then (fastq_record h s p q ++ rest)
                 (fasta_record token core ++ out) tail
| rt_last (h s p q token core : str) :
    no_line_feed h -> no_line_feed s -> no_line_feed p -> no_line_feed q ->
    q <> [] ->
    first_token h token -> core_of s core ->
    records_then (h ++ NL ++ s ++ NL ++ p ++ NL ++ q)
                 (fasta_record token core) [].

(** What is left of the stream after [n] calls of [readline]. *)
Fixpoint skip_lines (n : nat) (fin : str) : str :=
  match n with
  | O => fin
  | S k => skip_lines k (snd (readline fin))
  end.

(** The stream holds the start of a record and ends before its quality
    line. *)
Definition ends_mid_record (tail : str) : Prop :=
  tail <> [] /\ skip_lines 3 tail = [].

(** Following the spec's words: the header "stripped of the leading [@],
    trailing whitespace removed, and truncated at its first whitespace
    run". *)
Fixpoint spec_until_space (s : str) : str :=
  match s with
  | [] => []
  | c :: s' => if Py.is_space c then [] else c :: spec_until_space s'
  end.

Definition spec_header (header_line : str) : str :=
  let h := if Py.startswith header_line "@" then Py.slice_from_1 header_line
           else header_line in
  spec_until_space (Py.rstrip h).

(** Following the spec's words: "[>] followed by the header [...], then the
    raw sequence line". *)
Definition spec_fasta_record (header_line sequence_line : str) : str :=
  lit ">" ++ spec_header header_line ++ NL ++ sequence_line.

(** ** Vocabulary of the further statements *)

(** [p] is a prefix of [s]. *)
Definition prefix_of_str (p s : str) : Prop := exists rest, s = p ++ rest.

(** The values of [--mode] that [parse_args] lets through. *)
Definition MODE_CHOICES : list str :=
  [lit "merge-only"; lit "trim-merge"; lit "merge-trim"].

(** A FASTA text as the converter writes it: records of two lines, the
    first [>] with one token that is not empty and holds no whitespace, the
    second without whitespace around it and without a line feed in it. *)
Inductive fasta_text : str -> Prop :=
| fasta_empty : fasta_text []
| fasta_more (token core rest : str) :
    token <> [] -> no_space token ->
    trimmed core -> no_line_feed core ->
    fasta_text rest ->
    fasta_text (fasta_record token core ++ rest).

(** The number of lines of a text, as [readline] hands them out: the last
    line counts whether or not it ends in a line feed. *)
Fixpoint line_count (fin : str) : nat :=
  match fin with
  | [] => 0
  | c :: fin' =>
      if N.eqb c 10 then S (line_count fin')
      else match fin' with [] => 1 | _ :: _ => line_count fin' end
  end.

Section MoreEvents.

Context {L : PyLib}.

(** The lines printed on the standard output, in order. *)
Fixpoint stdout_lines (evs : list event) : list str :=
  match evs with
  | [] => []
  | EvStdout line :: evs' => line :: stdout_lines evs'
  | _ :: evs' => stdout_lines evs'
  end.

(** The lines printed on the standard error, in order. *)
Fixpoint stderr_lines (evs : list event) : list str :=
  match evs with
  | [] => []
  | EvStderr line :: evs' => line :: stderr_lines evs'
  | _ :: evs' => stderr_lines evs'
  end.

(** The files opened for reading, in order. *)
Fixpoint reads (evs : list event) : list Path :=
  match evs with
  | [] => []
  | EvOpenRead p :: evs' => p :: reads evs'
  | _ :: evs' => reads evs'
  end.

(** The files opened for writing, in order. *)
Fixpoint writes (evs : list event) : list Path :=
  match evs with
  | [] => []
  | EvOpenWrite p :: evs' => p :: writes evs'
  | _ :: evs' => writes evs'
  end.

(** Events that create no directory, print no line apart from an echoed
    command line, and open no file. *)
Definition silent (evs : list event) : Prop :=
  mkdirs evs = [] /\ stdout_lines evs = [] /\ stderr_lines evs = [] /\
  reads evs = [] /\ writes evs = [].

(** The line printed in a dry run in place of the conversion. *)
Definition dry_conversion_line (fasta_source : Path) : str :=
  lit ">> fastq_to_fasta " ++ path_str fasta_source ++ lit " -> "
  ++ path_str (path_with_suffix fasta_source ".fasta").

(** The script that [resolve_assemblepairs_path] looks for under the
    prefix of the active conda environment. *)
Definition conda_candidate (conda_prefix : str) : Path :=
  path_join (path_join (path_of conda_prefix) (path_of "Scripts"))
            (path_of "AssemblePairs.py").

(** The file that [main] converts: the trimmed merged reads in mode
    [merge-trim], the pass output of the assembly otherwise. *)
Definition fasta_source_of (args : Args) (run : Run) : Path :=
  if Py.str_eqb (a_mode args) "merge-trim"
  then merge_then_trim_fastq run
  else assemble_pass run.

End MoreEvents.

Section MoreOutcomes.

Context {L : PyLib} {Sy : System L}.

(** The command that [resolve_cutadapt_cmd] settles on in the world [w]:
    the program found on the search path, or the module run by the
    interpreter. *)
Definition cutadapt_cmd_of (w : World) : list str :=
  match truthy (shutil_which w "cutadapt") with
  | Some f => [f]
  | None => [sys_executable w; lit "-m"; lit "cutadapt"]
  end.

(** The calls that are executed: all of them, or none in a dry run. *)
Definition executed_calls (dry_run : bool) (calls : list (list str * option str))
    : list (list str * option str) :=
  if dry_run then [] else calls.

(** The world [w'] that a call of [run_command] leaves when it ends
    normally from the world [w]: the same world in a dry run, and otherwise
    the one the program leaves. *)
Definition world_after_call (dry_run : bool) (w : World) (cmd : list str)
    (cwd : option str) (w' : World) : Prop :=
  if dry_run then w' = w else subprocess_run w cmd cwd = inr w'.

(** [script] is what the lookup of [AssemblePairs.py] returns in the
    world [w]. *)
Definition script_found (w : World) (script : Path) : Prop :=
  fst (resolve_assemblepairs_path None {| world := w; log := [] |}) = Normal script.

End MoreOutcomes.

(** * Properties *)

Unset Implicit Arguments.

(** ** The embedding at work

    The primitives and helpers on inputs whose results are known from
    Python. *)

Example strip_example : Py.strip (lit "  a b " ++ NL) = lit "a b".
Proof. reflexivity. Qed.

Example split_example :
  Py.split "a_R1_b_R1_" "_R1_" = [lit "a"; lit "b"; lit ""].
Proof. reflexivity. Qed.

Example split_ws_example : Py.split_ws "  @read1   extra " = [lit "@read1"; lit "extra"].
Proof. reflexivity. Qed.

Example split_ws_blank_example : Py.split_ws "   " = [].
Proof. reflexivity. Qed.

Example replace_example : Py.replace "^AC^GT$" "^" "" = lit "ACGT$".
Proof. reflexivity. Qed.

Example replace_overlap_example : Py.replace "aaa" "aa" "b" = lit "ba".
Proof. reflexivity. Qed.

Example slice_example : Py.slice_to_neg "s1_R1.fq" 3 = lit "s1_R1".
Proof. reflexivity. Qed.

Example str_of_int_example :
  Py.str_of_int 8 = lit "8" /\ Py.str_of_int 0 = lit "0" /\ Py.str_of_int (-3) = lit "-3".
Proof. repeat split. Qed.

Example mode_label_example :
  mode_label "merge-trim" = lit "mergeThenTrim" /\ mode_label "other" = lit "other".
Proof. split; reflexivity. Qed.

Example infer_prefix_example :
  infer_prefix_of_name "S1_L001_R1_001.fastq.gz" = lit "S1_L001"
  /\ infer_prefix_of_name "S1.R1.fq" = lit "S1"
  /\ infer_prefix_of_name "S1_R1_trimmed.fastq" = lit "S1"
  /\ infer_prefix_of_name "reads.txt" = lit "reads.txt".
Proof. repeat split. Qed.

Example validate_run_id_example :
  validate_run_id "20240101_120000" = None
  /\ validate_run_id "a/b"
     = Some (ValueError (lit "--run-id contains invalid characters: "
                         ++ INVALID_RUN_ID_CHARS)).
Proof. split; reflexivity. Qed.

Example sanitize_adapter_example :
  sanitize_adapter "  ^ACGT$ " = lit "ACGT"
  /\ ensure_prefix "ACGT" "^" = lit "^ACGT"
  /\ ensure_suffix "ACGT$" "$" = lit "ACGT$".
Proof. repeat split. Qed.

(** ** Strings *)

Module PyFacts.
Import Py.

Lemma startswith_spec (s p : str) :
  startswith s p = true <-> exists r, s = p ++ r.
Proof.
  revert s; induction p as [|x p IH]; intros s.
  - split; [intros _; now exists s | intros _; now destruct s].
  - destruct s as [|y s]; simpl.
    + split; [discriminate | intros [r Hr]; discriminate].
    + rewrite andb_true_iff, N.eqb_eq, IH. split.
      * intros [-> [r ->]]. now exists r.
      * intros [r Hr]. injection Hr as -> ->. split; [reflexivity | now exists r].
Qed.

Lemma startswith_nil (s : str) : startswith s [] = true.
Proof. now destruct s. Qed.

Lemma startswith_app (p r : str) : startswith (p ++ r) p = true.
Proof. apply startswith_spec. now exists r. Qed.

Lemma endswith_spec (s p : str) :
  endswith s p = true <-> exists r, s = r ++ p.
Proof.
  unfold endswith. rewrite startswith_spec. split.
  - intros [r Hr]. exists (rev r).
    rewrite <- (rev_involutive s), Hr, rev_app_distr, rev_involutive. reflexivity.
  - intros [r ->]. exists (rev r). apply rev_app_distr.
Qed.

Lemma endswith_app (r p : str) : endswith (r ++ p) p = true.
Proof. apply endswith_spec. now exists r. Qed.

Lemma slice_to_neg_app (r p : str) :
  p <> [] -> slice_to_neg (r ++ p) (length p) = r.
Proof.
  intros Hp. unfold slice_to_neg.
  destruct (length p) as [|k] eqn:E.
  - destruct p; [now contradiction Hp | discriminate].
  - rewrite <- E, length_app, Nat.add_sub, firstn_app, Nat.sub_diag, firstn_all.
    simpl. apply app_nil_r.
Qed.

Lemma str_eqb_spec (a b : str) : str_eqb a b = true <-> a = b.
Proof.
  revert b; induction a as [|x a IH]; intros [|y b]; simpl;
    try (split; [discriminate | discriminate]); try tauto.
  rewrite andb_true_iff, N.eqb_eq, IH. split.
  - now intros [-> ->].
  - intros H; injection H as -> ->. tauto.
Qed.

Lemma str_eqb_refl (a : str) : str_eqb a a = true.
Proof. now apply str_eqb_spec. Qed.

(** *** [in] *)

Lemma contains_spec (s sub : str) :
  contains s sub = true <-> exists pre, occurs_after pre sub s.
Proof.
  induction s as [|c s IH]; cbn [contains].
  - rewrite orb_false_r, startswith_spec. split.
    + intros [r Hr]. now exists [], r.
    + intros [pre [post H]]. destruct pre; [now exists post | discriminate].
  - rewrite orb_true_iff, startswith_spec, IH. split.
    + intros [[r Hr] | [pre [post Hp]]].
      * now exists [], r.
      * exists (c :: pre), post. simpl. now rewrite Hp.
    + intros [[|d pre] [post H]].
      * left. now exists post.
      * right. injection H as _ H. now exists pre, post.
Qed.

Lemma contains_single (s : str) (c : char) :
  contains s [c] = true <-> In c s.
Proof.
  rewrite contains_spec. split.
  - intros [pre [post ->]]. apply in_or_app. right. now left.
  - intros H. apply in_split in H as [pre [post ->]]. now exists pre, post.
Qed.

(** *** [strip] *)

Lemma lstrip_decompose (s : str) :
  exists ws, all_space ws /\ s = ws ++ lstrip s.
Proof.
  induction s as [|c s [ws [Hws Hs]]]; simpl.
  - exists []. split; [constructor | reflexivity].
  - destruct (is_space c) eqn:E.
    + exists (c :: ws). split; [now constructor | simpl; now f_equal].
    + exists []. split; [constructor | reflexivity].
Qed.

Lemma lstrip_head (s : str) :
  match lstrip s with [] => True | c :: _ => is_space c = false end.
Proof.
  induction s as [|c s IH]; simpl; [exact I|].
  destruct (is_space c) eqn:E; [exact IH | exact E].
Qed.

Lemma lstrip_fixed (s : str) :
  match s with [] => True | c :: _ => is_space c = false end -> lstrip s = s.
Proof. destruct s as [|c s]; simpl; [reflexivity | now intros ->]. Qed.

Lemma lstrip_all_space (ws s : str) :
  all_space ws -> lstrip (ws ++ s) = lstrip s.
Proof.
  induction 1 as [|c ws Hc _ IH]; simpl; [reflexivity | now rewrite Hc].
Qed.

Lemma lstrip_app_keep (s t : str) :
  lstrip s <> [] -> lstrip (s ++ t) = lstrip s ++ t.
Proof.
  induction s as [|c s IH]; simpl; [now intros H; contradiction H|].
  destruct (is_space c); [exact IH | reflexivity].
Qed.

Lemma rstrip_decompose (s : str) :
  exists ws, all_space ws /\ s = rstrip s ++ ws.
Proof.
  unfold rstrip. destruct (lstrip_decompose (rev s)) as [ws [Hws Hs]].
  exists (rev ws). split.
  - apply Forall_rev, Hws.
  - rewrite <- rev_app_distr, <- Hs. symmetry; apply rev_involutive.
Qed.

Lemma rstrip_last (s : str) :
  match rev (rstrip s) with [] => True | c :: _ => is_space c = false end.
Proof. unfold rstrip. rewrite rev_involutive. apply lstrip_head. Qed.

Lemma rstrip_fixed (s : str) :
  match rev s with [] => True | c :: _ => is_space c = false end -> rstrip s = s.
Proof.
  intros H. unfold rstrip. rewrite (lstrip_fixed _ H). apply rev_involutive.
Qed.

Lemma rstrip_all_space (s ws : str) :
  all_space ws -> rstrip (s ++ ws) = rstrip s.
Proof.
  intros H. unfold rstrip. rewrite rev_app_distr, lstrip_all_space; [reflexivity|].
  apply Forall_rev, H.
Qed.

(** A leading character that is not whitespace survives [rstrip]. *)
Lemma rstrip_cons (c : char) (s : str) :
  is_space c = false -> rstrip (c :: s) = c :: rstrip s.
Proof.
  intros Hc. unfold rstrip. simpl rev.
  destruct (lstrip (rev s)) as [|d t] eqn:E.
  - destruct (lstrip_decompose (rev s)) as [ws [Hws Hs]].
    rewrite E, app_nil_r in Hs. rewrite Hs, lstrip_all_space by exact Hws.
    simpl. now rewrite Hc.
  - rewrite lstrip_app_keep by (rewrite E; discriminate).
    rewrite E, rev_app_distr. reflexivity.
Qed.

Lemma strip_trimmed (s : str) : trimmed (strip s).
Proof.
  unfold strip. split; [|apply rstrip_last].
  pose proof (lstrip_head s) as H.
  destruct (lstrip s) as [|c t]; [exact I|].
  rewrite rstrip_cons by exact H. exact H.
Qed.

Lemma strip_fixed (s : str) : trimmed s -> strip s = s.
Proof.
  intros [H1 H2]. unfold strip. rewrite (lstrip_fixed _ H1). now apply rstrip_fixed.
Qed.

Lemma strip_idempotent (s : str) : strip (strip s) = strip s.
Proof. apply strip_fixed, strip_trimmed. Qed.

(** Whitespace around a trimmed core is what [strip] removes. *)
Lemma strip_core (ws1 core ws2 : str) :
  all_space ws1 -> all_space ws2 -> trimmed core ->
  strip (ws1 ++ core ++ ws2) = core.
Proof.
  intros H1 H2 [Hh Hl]. unfold strip. rewrite lstrip_all_space by exact H1.
  destruct core as [|c core].
  - simpl. destruct (lstrip_decompose ws2) as [ws [_ E]].
    assert (lstrip ws2 = []) as ->.
    { pose proof (lstrip_head ws2) as Hd.
      destruct (lstrip ws2) as [|d t] eqn:E2; [reflexivity|].
      assert (In d ws2) as Hin by (rewrite E; apply in_or_app; right; now left).
      unfold all_space in H2. rewrite Forall_forall in H2.
      rewrite (H2 _ Hin) in Hd. discriminate. }
    reflexivity.
  - simpl app. rewrite (lstrip_fixed (c :: core ++ ws2)) by exact Hh.
    change (c :: core ++ ws2) with ((c :: core) ++ ws2).
    rewrite rstrip_all_space by exact H2. now apply rstrip_fixed.
Qed.

(** Characters that are not whitespace are never stripped. *)
Lemma strip_keeps (s : str) (c : char) :
  In c s -> is_space c = false -> In c (strip s).
Proof.
  intros Hin Hc. unfold strip.
  destruct (lstrip_decompose s) as [ws1 [H1 E1]].
  destruct (rstrip_decompose (lstrip s)) as [ws2 [H2 E2]].
  rewrite E1, E2 in Hin.
  unfold all_space in H1, H2. rewrite Forall_forall in H1, H2.
  apply in_app_or in Hin as [Hin | Hin].
  - rewrite (H1 _ Hin) in Hc. discriminate.
  - apply in_app_or in Hin as [Hin | Hin]; [exact Hin|].
    rewrite (H2 _ Hin) in Hc. discriminate.
Qed.

(** *** [replace] with a one-character pattern and nothing to put in *)

Lemma replace_single_empty (s : str) (c : char) :
  replace s [c] [] = filter (fun x => negb (N.eqb c x)) s.
Proof.
  unfold replace. induction s as [|x s IH]; simpl; [reflexivity|].
  rewrite startswith_nil, andb_true_r.
  destruct (N.eqb c x); simpl; [exact IH | now f_equal].
Qed.

End PyFacts.

(** ** Adapters *)

Lemma trimmed_cons (c : char) (t : str) :
  Py.is_space c = false -> trimmed t -> trimmed (c :: t).
Proof.
  intros Hc [_ Hl]. split; [exact Hc|]. simpl.
  destruct (rev t) as [|d r]; simpl; [exact Hc | exact Hl].
Qed.

Lemma trimmed_snoc (c : char) (t : str) :
  Py.is_space c = false -> trimmed t -> trimmed (t ++ [c]).
Proof.
  intros Hc [Hh _]. split.
  - destruct t as [|d t]; simpl; [exact Hc | exact Hh].
  - rewrite rev_app_distr. exact Hc.
Qed.

Lemma strip_incl (s : str) (c : char) : In c (Py.strip s) -> In c s.
Proof.
  intros H. unfold Py.strip in H.
  destruct (PyFacts.lstrip_decompose s) as [ws1 [_ E1]].
  destruct (PyFacts.rstrip_decompose (Py.lstrip s)) as [ws2 [_ E2]].
  rewrite E1, E2. apply in_or_app. right. apply in_or_app. now left.
Qed.

Lemma startswith_head (c : char) (t : str) :
  Py.startswith t [c] = true <-> exists r, t = c :: r.
Proof. apply (PyFacts.startswith_spec t [c]). Qed.

Lemma ensure_prefix_twice (seq : str) (c : char) :
  Py.is_space c = false ->
  ensure_prefix (ensure_prefix seq [c]) [c] = ensure_prefix seq [c].
Proof.
  intros Hc. unfold ensure_prefix at 2 3.
  pose proof (PyFacts.strip_trimmed seq) as Ht.
  destruct (Py.startswith (Py.strip seq) [c]) eqn:E; unfold ensure_prefix.
  - now rewrite PyFacts.strip_idempotent, E.
  - rewrite PyFacts.strip_fixed by (apply (trimmed_cons _ _ Hc Ht)).
    simpl. now rewrite N.eqb_refl, PyFacts.startswith_nil.
Qed.

Lemma ensure_suffix_twice (seq : str) (c : char) :
  Py.is_space c = false ->
  ensure_suffix (ensure_suffix seq [c]) [c] = ensure_suffix seq [c].
Proof.
  intros Hc. unfold ensure_suffix at 2 3.
  pose proof (PyFacts.strip_trimmed seq) as Ht.
  destruct (Py.endswith (Py.strip seq) [c]) eqn:E; unfold ensure_suffix.
  - now rewrite PyFacts.strip_idempotent, E.
  - rewrite PyFacts.strip_fixed by (apply (trimmed_snoc _ _ Hc Ht)).
    now rewrite PyFacts.endswith_app.
Qed.

Lemma ensure_prefix_carries (seq p : str) :
  Py.startswith (ensure_prefix seq p) p = true.
Proof.
  unfold ensure_prefix. destruct (Py.startswith (Py.strip seq) p) eqn:E;
    [exact E | apply PyFacts.startswith_app].
Qed.

Lemma ensure_suffix_carries (seq p : str) :
  Py.endswith (ensure_suffix seq p) p = true.
Proof.
  unfold ensure_suffix. destruct (Py.endswith (Py.strip seq) p) eqn:E;
    [exact E | apply PyFacts.endswith_app].
Qed.

Lemma sanitize_adapter_filter (seq : str) :
  sanitize_adapter seq =
  filter (fun c => negb (N.eqb dollar c))
         (filter (fun c => negb (N.eqb caret c)) (Py.strip seq)).
Proof.
  unfold sanitize_adapter.
  change (lit "^") with [caret]. change (lit "$") with [dollar]. change (lit "") with (@nil char).
  now rewrite !PyFacts.replace_single_empty.
Qed.

Lemma sanitize_adapter_clean (seq : str) :
  ~ In caret (sanitize_adapter seq) /\ ~ In dollar (sanitize_adapter seq).
Proof.
  rewrite sanitize_adapter_filter. split; intros H.
  - apply filter_In in H as [H _]. apply filter_In in H as [_ H].
    now rewrite N.eqb_refl in H.
  - apply filter_In in H as [_ H]. now rewrite N.eqb_refl in H.
Qed.

(** C6: [sanitize_adapter] strips the surrounding whitespace and then takes
    out every caret and dollar, so its result holds neither; [ensure_prefix]
    with the caret and [ensure_suffix] with the dollar add the marker only
    when the stripped text lacks it, are idempotent, and their result always
    carries the marker; on a sanitized adapter they add exactly one marker. *)
Theorem adapter_transforms (seq : str) :
  sanitize_adapter seq =
    filter (fun c => negb (N.eqb dollar c))
           (filter (fun c => negb (N.eqb caret c)) (Py.strip seq))
  /\ ~ In caret (sanitize_adapter seq)
  /\ ~ In dollar (sanitize_adapter seq)
  /\ ensure_prefix seq "^" =
       (if Py.startswith (Py.strip seq) "^" then Py.strip seq
        else lit "^" ++ Py.strip seq)
  /\ ensure_suffix seq "$" =
       (if Py.endswith (Py.strip seq) "$" then Py.strip seq
        else Py.strip seq ++ lit "$")
  /\ ensure_prefix (ensure_prefix seq "^") "^" = ensure_prefix seq "^"
  /\ ensure_suffix (ensure_suffix seq "$") "$" = ensure_suffix seq "$"
  /\ Py.startswith (ensure_prefix seq "^") "^" = true
  /\ Py.endswith (ensure_suffix seq "$") "$" = true
  /\ ensure_prefix (sanitize_adapter seq) "^" =
       lit "^" ++ Py.strip (sanitize_adapter seq)
  /\ ensure_suffix (sanitize_adapter seq) "$" =
       Py.strip (sanitize_adapter seq) ++ lit "$".
Proof.
  destruct (sanitize_adapter_clean seq) as [Hc Hd].
  repeat split.
  - apply sanitize_adapter_filter.
  - exact Hc.
  - exact Hd.
  - apply (ensure_prefix_twice seq caret). reflexivity.
  - apply (ensure_suffix_twice seq dollar). reflexivity.
  - apply ensure_prefix_carries.
  - apply ensure_suffix_carries.
  - unfold ensure_prefix.
    destruct (Py.startswith (Py.strip (sanitize_adapter seq)) "^") eqn:E;
      [|reflexivity].
    apply (startswith_head caret) in E as [r E]. exfalso. apply Hc.
    apply strip_incl. rewrite E. now left.
  - unfold ensure_suffix.
    destruct (Py.endswith (Py.strip (sanitize_adapter seq)) "$") eqn:E;
      [|reflexivity].
    apply PyFacts.endswith_spec in E as [r E]. exfalso. apply Hd.
    apply strip_incl. rewrite E. apply in_or_app. right. now left.
Qed.

(** ** Prefix inference *)

(** [split] always yields a first piece, so the index [0] is in range. *)
Lemma split_from_not_nil (sep : str) (s : str) :
  forall skip cur, Py.split_from sep skip cur s <> [].
Proof.
  induction s as [|c s IH]; intros skip cur; cbn [Py.split_from]; [discriminate|].
  destruct skip; [|apply IH].
  destruct (Py.startswith (c :: s) sep); [discriminate | apply IH].
Qed.

(** The first piece of a split is the text before the first occurrence of
    the separator. *)
Lemma split_from_first (sep : str) (s : str) :
  sep <> [] -> Py.contains s sep = true ->
  forall cur, exists pre,
    hd [] (Py.split_from sep 0 cur s) = rev cur ++ pre /\
    occurs_after pre sep s /\
    forall pre', occurs_after pre' sep s -> length pre <= length pre'.
Proof.
  intros Hsep. induction s as [|c s IH]; intros Hc cur.
  - apply PyFacts.contains_spec in Hc as [pre [post E]].
    destruct pre, sep; try discriminate. now contradiction Hsep.
  - cbn [Py.split_from]. destruct (Py.startswith (c :: s) sep) eqn:E.
    + exists []. split; [simpl; now rewrite app_nil_r|]. split.
      * apply PyFacts.startswith_spec in E as [r E]. now exists r.
      * intros pre' _. simpl. lia.
    + cbn [Py.contains] in Hc. rewrite E in Hc. simpl in Hc.
      destruct (IH Hc (c :: cur)) as [pre [Hhd [[post Hocc] Hmin]]].
      exists (c :: pre). split; [|split].
      * rewrite Hhd. simpl. now rewrite <- app_assoc.
      * exists post. simpl. now rewrite Hocc.
      * intros [|d pre'] [post' E'].
        -- simpl in E'. rewrite E', PyFacts.startswith_app in E. discriminate.
        -- simpl in E'. injection E' as _ E'. simpl.
           apply le_n_S, Hmin. now exists post'.
Qed.

Ltac endswith_miss :=
  unfold Py.endswith; rewrite rev_app_distr; reflexivity.

Ltac endswith_hit :=
  match goal with
  | |- context [Py.endswith (?b ++ ?p) ?p] => rewrite (PyFacts.endswith_app b p)
  end.

Lemma strip_first_suffix_hit (stem suffix : str) :
  In suffix FASTQ_SUFFIXES ->
  strip_first_suffix FASTQ_SUFFIXES (stem ++ suffix) = stem.
Proof.
  unfold FASTQ_SUFFIXES. cbn [In].
  intros [<- | [<- | [<- | [<- | []]]]]; cbn [strip_first_suffix].
  - endswith_hit. now apply PyFacts.slice_to_neg_app.
  - replace (Py.endswith (stem ++ lit ".fq.gz") (lit ".fastq.gz")) with false
      by (symmetry; endswith_miss).
    endswith_hit. now apply PyFacts.slice_to_neg_app.
  - replace (Py.endswith (stem ++ lit ".fastq") (lit ".fastq.gz")) with false
      by (symmetry; endswith_miss).
    replace (Py.endswith (stem ++ lit ".fastq") (lit ".fq.gz")) with false
      by (symmetry; endswith_miss).
    endswith_hit. now apply PyFacts.slice_to_neg_app.
  - replace (Py.endswith (stem ++ lit ".fq") (lit ".fastq.gz")) with false
      by (symmetry; endswith_miss).
    replace (Py.endswith (stem ++ lit ".fq") (lit ".fq.gz")) with false
      by (symmetry; endswith_miss).
    replace (Py.endswith (stem ++ lit ".fq") (lit ".fastq")) with false
      by (symmetry; endswith_miss).
    endswith_hit. now apply PyFacts.slice_to_neg_app.
Qed.

Lemma strip_first_suffix_miss (suffixes : list str) (name : str) :
  (forall suffix, In suffix suffixes -> Py.endswith name suffix = false) ->
  strip_first_suffix suffixes name = name.
Proof.
  induction suffixes as [|s l IH]; intros H; simpl; [reflexivity|].
  rewrite (H s) by now left. apply IH. intros s' Hs'. apply H. now right.
Qed.

Lemma strip_first_suffix_stem (name stem : str) :
  suffix_stripped name stem ->
  strip_first_suffix FASTQ_SUFFIXES name = stem.
Proof.
  intros [[suffix [Hin ->]] | [Hmiss ->]].
  - now apply strip_first_suffix_hit.
  - now apply strip_first_suffix_miss.
Qed.

Lemma strip_first_marker_hit (base marker : str) :
  In marker R1_MARKERS ->
  strip_first_marker R1_MARKERS (base ++ marker) = Some base.
Proof.
  unfold R1_MARKERS. cbn [In].
  intros [<- | [<- | [<- | [<- | []]]]]; cbn [strip_first_marker].
  - endswith_hit. f_equal. now apply PyFacts.slice_to_neg_app.
  - replace (Py.endswith (base ++ lit "_R1") (lit "_R1_001")) with false
      by (symmetry; endswith_miss).
    endswith_hit. f_equal. now apply PyFacts.slice_to_neg_app.
  - replace (Py.endswith (base ++ lit "-R1") (lit "_R1_001")) with false
      by (symmetry; endswith_miss).
    replace (Py.endswith (base ++ lit "-R1") (lit "_R1")) with false
      by (symmetry; endswith_miss).
    endswith_hit. f_equal. now apply PyFacts.slice_to_neg_app.
  - replace (Py.endswith (base ++ lit ".R1") (lit "_R1_001")) with false
      by (symmetry; endswith_miss).
    replace (Py.endswith (base ++ lit ".R1") (lit "_R1")) with false
      by (symmetry; endswith_miss).
    replace (Py.endswith (base ++ lit ".R1") (lit "-R1")) with false
      by (symmetry; endswith_miss).
    endswith_hit. f_equal. now apply PyFacts.slice_to_neg_app.
Qed.

Lemma strip_first_marker_miss (markers : list str) (name : str) :
  (forall marker, In marker markers -> Py.endswith name marker = false) ->
  strip_first_marker markers name = None.
Proof.
  induction markers as [|m l IH]; intros H; simpl; [reflexivity|].
  rewrite (H m) by now left. apply IH. intros m' Hm'. apply H. now right.
Qed.

(** C5: for a file name that is a base, a recognized R1 marker and a
    recognized FASTQ suffix, [infer_prefix] returns the base; when no marker
    ends the suffix-stripped name, the result is the text before the first
    [_R1_] in it if there is one, and the suffix-stripped name otherwise. *)
Theorem infer_prefix_spec {L : PyLib} (r1_path : Path) :
  (forall base marker suffix,
      In marker R1_MARKERS -> In suffix FASTQ_SUFFIXES ->
      path_name r1_path = base ++ marker ++ suffix ->
      infer_prefix r1_path = base)
  /\ (forall stem,
      suffix_stripped (path_name r1_path) stem ->
      (forall marker, In marker R1_MARKERS -> Py.endswith stem marker = false) ->
      (Py.contains stem "_R1_" = true ->
         occurs_after (infer_prefix r1_path) "_R1_" stem /\
         forall pre, occurs_after pre "_R1_" stem ->
                     length (infer_prefix r1_path) <= length pre)
      /\ (Py.contains stem "_R1_" = false -> infer_prefix r1_path = stem)).
Proof.
  unfold infer_prefix, infer_prefix_of_name. split.
  - intros base marker suffix Hm Hs ->.
    rewrite app_assoc, (strip_first_suffix_hit _ _ Hs).
    now rewrite (strip_first_marker_hit _ _ Hm).
  - intros stem Hstem Hmiss.
    rewrite (strip_first_suffix_stem _ _ Hstem).
    rewrite (strip_first_marker_miss _ _ Hmiss). split.
    + intros Hc. rewrite Hc.
      destruct (split_from_first (lit "_R1_") stem ltac:(discriminate) Hc [])
        as [pre [Hhd [Hocc Hmin]]].
      unfold Py.split. rewrite Hhd. simpl. now split.
    + now intros ->.
Qed.

Lemma infer_prefix_spec_witness :
  @infer_prefix Toy.lib (lit "/data/s1_R1.fastq") = lit "s1"
  /\ (occurs_after (@infer_prefix Toy.lib (lit "/data/x_R1_L001.fastq"))
                   (lit "_R1_") (lit "x_R1_L001")
      /\ @infer_prefix Toy.lib (lit "/data/x_R1_L001.fastq") = lit "x")
  /\ @infer_prefix Toy.lib (lit "/data/reads.fq") = lit "reads".
Proof.
  split; [|split].
  - apply (proj1 (@infer_prefix_spec Toy.lib (lit "/data/s1_R1.fastq"))
             (lit "s1") (lit "_R1") (lit ".fastq")).
    + right. left. reflexivity.
    + right. right. left. reflexivity.
    + reflexivity.
  - split; [|reflexivity].
    apply (proj2 (@infer_prefix_spec Toy.lib (lit "/data/x_R1_L001.fastq"))
             (lit "x_R1_L001")).
    + left. exists (lit ".fastq"). split; [|reflexivity].
      right. right. left. reflexivity.
    + intros marker [<- | [<- | [<- | [<- | []]]]]; reflexivity.
    + reflexivity.
  - apply (proj2 (@infer_prefix_spec Toy.lib (lit "/data/reads.fq"))
             (lit "reads")).
    + left. exists (lit ".fq"). split; [|reflexivity].
      right. right. right. left. reflexivity.
    + intros marker [<- | [<- | [<- | [<- | []]]]]; reflexivity.
    + reflexivity.
Defined.

(** ** FASTQ to FASTA *)

Lemma readline_line (body rest : str) :
  no_line_feed body -> readline (body ++ NL ++ rest) = (body ++ NL, rest).
Proof.
  induction 1 as [|c body Hc _ IH]; simpl in *; [reflexivity|].
  destruct (N.eqb c 10) eqn:E; [apply N.eqb_eq in E; now contradiction Hc|].
  now rewrite IH.
Qed.

Lemma readline_last (body : str) :
  no_line_feed body -> readline body = (body, []).
Proof.
  induction 1 as [|c body Hc _ IH]; simpl; [reflexivity|].
  destruct (N.eqb c 10) eqn:E; [apply N.eqb_eq in E; now contradiction Hc|].
  now rewrite IH.
Qed.

Lemma readline_length (fin : str) :
  length (fst (readline fin)) + length (snd (readline fin)) = length fin.
Proof.
  induction fin as [|c fin IH]; simpl; [reflexivity|].
  destruct (N.eqb c 10); simpl; [reflexivity|].
  destruct (readline fin) as [line rest]. simpl in *. lia.
Qed.

Lemma readline_rest_le (fin : str) :
  length (snd (readline fin)) <= length fin.
Proof. pose proof (readline_length fin). lia. Qed.

Lemma readline_empty (fin : str) : fst (readline fin) = [] -> fin = [].
Proof.
  destruct fin as [|c fin]; simpl; [reflexivity|].
  destruct (N.eqb c 10); [discriminate|].
  destruct (readline fin); discriminate.
Qed.

(** After a record has been read, less is left than before. *)
Lemma record_consumed (fin : str) :
  fst (readline fin) <> [] ->
  length (skip_lines 4 fin) < length fin.
Proof.
  intros H. simpl.
  pose proof (readline_length fin) as H0.
  pose proof (readline_rest_le (snd (readline fin))) as H1.
  pose proof (readline_rest_le (snd (readline (snd (readline fin))))) as H2.
  pose proof (readline_rest_le (snd (readline (snd (readline (snd (readline fin))))))) as H3.
  destruct (fst (readline fin)) as [|c l]; [now contradiction H|]. simpl in H0. lia.
Qed.

(** One turn of the loop, with the four lines named. *)
Lemma convert_loop_step (fuel : nat) (fin fout : str) :
  convert_loop (S fuel) fin fout =
  let header := fst (readline fin) in
  let seq := fst (readline (skip_lines 1 fin)) in
  let qual := fst (readline (skip_lines 3 fin)) in
  match header with
  | [] => Some {| written := fout; raised := None |}
  | _ :: _ =>
      match qual with
      | [] => Some {| written := fout; raised := Some TRUNCATED |}
      | _ :: _ =>
          let header := Py.strip header in
          let header :=
            if Py.startswith header "@" then Py.slice_from_1 header
            else header in
          match Py.split_ws header with
          | [] => Some {| written := fout; raised := Some IndexError |}
          | header :: _ =>
              convert_loop fuel (skip_lines 4 fin)
                ((fout ++ (lit ">" ++ header ++ NL)) ++ (Py.strip seq ++ NL))
          end
      end
  end.
Proof.
  cbn [convert_loop skip_lines].
  destruct (readline fin) as [header fin1]. cbn [fst snd].
  destruct header as [|c header]; [reflexivity|].
  destruct (readline fin1) as [seq fin2]. cbn [fst snd].
  destruct (readline fin2) as [plus fin3]. cbn [fst snd].
  destruct (readline fin3) as [qual fin4]. cbn [fst snd].
  reflexivity.
Qed.

(** Fuel beyond the length of the input changes nothing. *)
Lemma convert_loop_fuel (n : nat) :
  forall m fin fout,
    length fin < n -> length fin < m ->
    convert_loop n fin fout = convert_loop m fin fout.
Proof.
  induction n as [|n IH]; intros m fin fout Hn Hm; [lia|].
  destruct m as [|m]; [lia|].
  rewrite !convert_loop_step. cbv zeta.
  destruct (fst (readline fin)) as [|c header] eqn:Eh; [reflexivity|].
  destruct (fst (readline (skip_lines 3 fin))); [reflexivity|].
  destruct (Py.split_ws _); [reflexivity|].
  assert (length (skip_lines 4 fin) < length fin)
    by (apply record_consumed; rewrite Eh; discriminate).
  apply IH; lia.
Qed.

(** With fuel beyond the length of the input the loop comes to an end. *)
Lemma convert_loop_ends (n : nat) :
  forall fin fout, length fin < n -> convert_loop n fin fout <> None.
Proof.
  induction n as [|n IH]; intros fin fout Hn; [lia|].
  rewrite convert_loop_step. cbv zeta.
  destruct (fst (readline fin)) as [|c header] eqn:Eh; [discriminate|].
  destruct (fst (readline (skip_lines 3 fin))); [discriminate|].
  destruct (Py.split_ws _); [discriminate|].
  assert (length (skip_lines 4 fin) < length fin)
    by (apply record_consumed; rewrite Eh; discriminate).
  apply IH; lia.
Qed.

Lemma prepend_prepend (a b : str) (c : converted) :
  prepend a (prepend b c) = prepend (a ++ b) c.
Proof. unfold prepend; simpl. now rewrite app_assoc. Qed.

(** What has been written so far stays in front of what follows. *)
Lemma convert_loop_prepend (n : nat) :
  forall fin fout,
    convert_loop n fin fout = option_map (prepend fout) (convert_loop n fin []).
Proof.
  induction n as [|n IH]; intros fin fout; [reflexivity|].
  rewrite !convert_loop_step. cbv zeta.
  destruct (fst (readline fin)) as [|c header];
    [simpl; unfold prepend; simpl; now rewrite app_nil_r|].
  destruct (fst (readline (skip_lines 3 fin)));
    [simpl; unfold prepend; simpl; now rewrite app_nil_r|].
  destruct (Py.split_ws _);
    [simpl; unfold prepend; simpl; now rewrite app_nil_r|].
  rewrite IH. rewrite (IH _ (([] ++ _) ++ _)).
  destruct (convert_loop n (skip_lines 4 fin) []) as [done|]; [|reflexivity].
  simpl. rewrite prepend_prepend. do 2 f_equal. rewrite <- app_assoc. reflexivity.
Qed.

(** The conversion is total: the default of [fastq_to_fasta_text] is never
    used. *)
Lemma convert_loop_total (fin : str) :
  convert_loop (S (length fin)) fin [] = Some (fastq_to_fasta_text fin).
Proof.
  unfold fastq_to_fasta_text.
  pose proof (convert_loop_ends (S (length fin)) fin [] (Nat.lt_succ_diag_r _)) as H.
  destruct (convert_loop (S (length fin)) fin []); [reflexivity | now contradiction H].
Qed.

Lemma fastq_to_fasta_text_fuel (n : nat) (fin fout : str) :
  length fin < n ->
  convert_loop n fin fout = Some (prepend fout (fastq_to_fasta_text fin)).
Proof.
  intros H. rewrite convert_loop_prepend.
  rewrite (convert_loop_fuel n (S (length fin)) fin [] H (Nat.lt_succ_diag_r _)).
  now rewrite convert_loop_total.
Qed.

(** *** The header token *)

Lemma split_ws_from_spaces (ws : str) :
  all_space ws ->
  forall cur, Py.split_ws_from cur ws = match cur with [] => [] | _ => [rev cur] end.
Proof.
  induction 1 as [|c ws Hc _ IH]; intros cur; simpl; [reflexivity|].
  rewrite Hc. destruct cur; rewrite IH; reflexivity.
Qed.

Lemma split_ws_from_app_spaces (y ws : str) :
  all_space ws ->
  forall cur, Py.split_ws_from cur (y ++ ws) = Py.split_ws_from cur y.
Proof.
  intros H. induction y as [|c y IH]; intros cur; simpl.
  - now apply split_ws_from_spaces.
  - destruct (Py.is_space c); [destruct cur|]; now rewrite IH.
Qed.

Lemma split_ws_rstrip (x : str) : Py.split_ws (Py.rstrip x) = Py.split_ws x.
Proof.
  destruct (PyFacts.rstrip_decompose x) as [ws [H E]].
  rewrite E at 2. unfold Py.split_ws. now rewrite split_ws_from_app_spaces.
Qed.

Lemma split_ws_from_skip (ws y : str) :
  all_space ws -> Py.split_ws_from [] (ws ++ y) = Py.split_ws_from [] y.
Proof. induction 1 as [|c ws Hc _ IH]; simpl; [reflexivity | now rewrite Hc]. Qed.

Lemma split_ws_from_token (token : str) :
  no_space token ->
  forall cur tail,
    Py.split_ws_from cur (token ++ tail) = Py.split_ws_from (rev token ++ cur) tail.
Proof.
  induction 1 as [|c token Hc _ IH]; intros cur tail; simpl; [reflexivity|].
  rewrite Hc, IH. now rewrite <- app_assoc.
Qed.

Lemma split_ws_first (ws token tail : str) :
  all_space ws -> no_space token -> token <> [] ->
  match tail with [] => True | c :: _ => Py.is_space c = true end ->
  exists more, Py.split_ws (ws ++ token ++ tail) = token :: more.
Proof.
  intros Hws Htok Hne Htail. unfold Py.split_ws.
  rewrite split_ws_from_skip by exact Hws.
  rewrite split_ws_from_token by exact Htok. rewrite app_nil_r.
  assert (rev (rev token) = token) as Hrr by apply rev_involutive.
  destruct (rev token) as [|d r] eqn:E.
  - simpl in Hrr. now contradiction Hne.
  - destruct tail as [|c tail]; simpl.
    + exists []. now rewrite <- Hrr.
    + rewrite Htail. exists (Py.split_ws_from [] tail). now rewrite <- Hrr.
Qed.

(** What the loop computes from a header line is its first token. *)
Lemma header_token (h token : str) :
  first_token h token ->
  exists more,
    Py.split_ws
      (if Py.startswith (Py.strip (h ++ NL)) "@"
       then Py.slice_from_1 (Py.strip (h ++ NL))
       else Py.strip (h ++ NL)) = token :: more.
Proof.
  intros (ws1 & at_ & ws2 & rest & -> & H1 & H2 & Hat & Hne & Hns & Hrest).
  assert (match rest ++ NL with [] => True | c :: _ => Py.is_space c = true end)
    as Htail by (destruct rest; [reflexivity | exact Hrest]).
  unfold Py.strip. rewrite <- !app_assoc.
  rewrite PyFacts.lstrip_all_space by exact H1.
  destruct Hat as [-> | (-> & -> & Hnot)].
  - change ([at_sign] ++ ws2 ++ token ++ rest ++ NL)
      with (at_sign :: ws2 ++ token ++ rest ++ NL).
    rewrite PyFacts.lstrip_fixed by reflexivity.
    rewrite PyFacts.rstrip_cons by reflexivity.
    change (Py.startswith (at_sign :: Py.rstrip (ws2 ++ token ++ rest ++ NL)) (lit "@"))
      with (true && Py.startswith (Py.rstrip (ws2 ++ token ++ rest ++ NL)) []).
    rewrite PyFacts.startswith_nil. cbn [andb Py.slice_from_1 tl].
    rewrite split_ws_rstrip. now apply split_ws_first.
  - cbn [app].
    destruct token as [|t0 tk]; [now contradiction Hne|].
    inversion Hns as [|? ? Ht0 Htk]; subst.
    rewrite PyFacts.lstrip_fixed by exact Ht0.
    assert (Py.startswith (Py.rstrip ((t0 :: tk) ++ rest ++ NL)) (lit "@") = false) as ->.
    { cbn [app]. rewrite PyFacts.rstrip_cons by exact Ht0.
      change (lit "@") with [at_sign]. cbn [Py.startswith] in Hnot |- *.
      rewrite PyFacts.startswith_nil in Hnot |- *. exact Hnot. }
    rewrite split_ws_rstrip.
    apply (split_ws_first [] (t0 :: tk) (rest ++ NL)); auto.
Qed.

Lemma core_of_line (s core : str) :
  core_of s core -> Py.strip (s ++ NL) = core.
Proof.
  intros (ws1 & ws2 & -> & H1 & H2 & Hc).
  rewrite <- !app_assoc. apply PyFacts.strip_core; auto.
  apply Forall_app. split; [exact H2 | now constructor].
Qed.

(** *** Records *)

(** A turn of the loop on a record whose first three lines end in a line
    feed; [ql] is its quality line as [readline] returns it. *)
Lemma convert_loop_record (h s p ql rest token core : str) :
  no_line_feed h -> no_line_feed s -> no_line_feed p ->
  readline (ql ++ rest) = (ql, rest) -> ql <> [] ->
  first_token h token -> core_of s core ->
  forall fuel fout,
    convert_loop (S fuel) (h ++ NL ++ s ++ NL ++ p ++ NL ++ ql ++ rest) fout =
    convert_loop fuel rest (fout ++ fasta_record token core).
Proof.
  intros Hh Hs Hp Hq Hne Htok Hcore fuel fout.
  cbn [convert_loop].
  rewrite (readline_line h _ Hh), (readline_line s _ Hs), (readline_line p _ Hp), Hq.
  destruct (h ++ NL) as [|c0 hl] eqn:Eh; [now destruct h|]. rewrite <- Eh.
  destruct ql as [|c1 ql']; [now contradiction Hne|].
  destruct (header_token h token Htok) as [more ->].
  rewrite (core_of_line s core Hcore).
  f_equal. unfold fasta_record. now rewrite <- !app_assoc.
Qed.

Lemma fastq_record_step (h s p q token core rest : str) :
  no_line_feed h -> no_line_feed s -> no_line_feed p -> no_line_feed q ->
  first_token h token -> core_of s core ->
  fastq_to_fasta_text (fastq_record h s p q ++ rest) =
  prepend (fasta_record token core) (fastq_to_fasta_text rest).
Proof.
  intros Hh Hs Hp Hq Htok Hcore.
  assert (fastq_record h s p q ++ rest =
          h ++ NL ++ s ++ NL ++ p ++ NL ++ (q ++ NL) ++ rest) as E
    by (unfold fastq_record; now rewrite <- !app_assoc).
  assert (length rest < length (fastq_record h s p q ++ rest)) as Hlen
    by (unfold fastq_record; rewrite !length_app; simpl; lia).
  apply (f_equal Some) in E as E'. clear E'.
  cut (Some (fastq_to_fasta_text (fastq_record h s p q ++ rest)) =
       Some (prepend (fasta_record token core) (fastq_to_fasta_text rest)));
    [intros H; now injection H|].
  rewrite <- convert_loop_total.
  set (n := length (fastq_record h s p q ++ rest)) in *.
  rewrite E.
  rewrite (convert_loop_record h s p (q ++ NL) rest token core); auto.
  - now apply fastq_to_fasta_text_fuel.
  - rewrite <- app_assoc. now apply readline_line.
  - now destruct q.
Qed.

Lemma fastq_last_record (h s p q token core : str) :
  no_line_feed h -> no_line_feed s -> no_line_feed p -> no_line_feed q ->
  q <> [] -> first_token h token -> core_of s core ->
  fastq_to_fasta_text (h ++ NL ++ s ++ NL ++ p ++ NL ++ q) =
  {| written := fasta_record token core; raised := None |}.
Proof.
  intros Hh Hs Hp Hq Hne Htok Hcore.
  cut (Some (fastq_to_fasta_text (h ++ NL ++ s ++ NL ++ p ++ NL ++ q)) =
       Some {| written := fasta_record token core; raised := None |});
    [intros H; now injection H|].
  rewrite <- convert_loop_total.
  set (n := length (h ++ NL ++ s ++ NL ++ p ++ NL ++ q)).
  rewrite <- (app_nil_r q).
  rewrite (convert_loop_record h s p q [] token core); auto.
  - assert (n = S (Nat.pred n)) as -> by (unfold n; rewrite !length_app; simpl; lia).
    reflexivity.
  - rewrite app_nil_r. now apply readline_last.
Qed.

Lemma fastq_empty : fastq_to_fasta_text [] = {| written := []; raised := None |}.
Proof. reflexivity. Qed.

(** A stream that stops before a quality line is refused. *)
Lemma fastq_truncated (tail : str) :
  ends_mid_record tail ->
  fastq_to_fasta_text tail = {| written := []; raised := Some TRUNCATED |}.
Proof.
  intros [Hne Hend].
  pose proof (convert_loop_total tail) as H.
  rewrite convert_loop_step in H. cbv zeta in H.
  destruct (fst (readline tail)) eqn:Eh;
    [apply readline_empty in Eh; now contradiction Hne|].
  rewrite Hend in H. simpl in H. injection H as H. now rewrite <- H.
Qed.

(** A record whose header holds nothing but an at-sign and whitespace
    stops the conversion at the index [0] of an empty list. *)
Lemma fastq_header_without_token (ws s p q rest : str) :
  all_space ws -> no_line_feed ws ->
  no_line_feed s -> no_line_feed p -> no_line_feed q ->
  fastq_to_fasta_text (fastq_record (lit "@" ++ ws) s p q ++ rest) =
  {| written := []; raised := Some IndexError |}.
Proof.
  intros Hws Hh Hs Hp Hq.
  cut (Some (fastq_to_fasta_text (fastq_record (lit "@" ++ ws) s p q ++ rest)) =
       Some {| written := []; raised := Some IndexError |});
    [intros H; now injection H|].
  rewrite <- convert_loop_total.
  set (n := length (fastq_record (lit "@" ++ ws) s p q ++ rest)).
  assert (fastq_record (lit "@" ++ ws) s p q ++ rest =
          (lit "@" ++ ws) ++ NL ++ s ++ NL ++ p ++ NL ++ q ++ NL ++ rest) as ->
    by (unfold fastq_record; now rewrite <- !app_assoc).
  assert (no_line_feed (lit "@" ++ ws)) as Hh'
    by (apply Forall_app; split; [repeat constructor; discriminate | exact Hh]).
  cbn [convert_loop].
  rewrite (readline_line (lit "@" ++ ws) _ Hh').
  rewrite (readline_line s _ Hs), (readline_line p _ Hp), (readline_line q rest Hq).
  assert (Py.strip ((lit "@" ++ ws) ++ NL) = [at_sign]) as E.
  { rewrite <- app_assoc.
    apply (PyFacts.strip_core [] [at_sign] (ws ++ NL)).
    - constructor.
    - apply Forall_app. split; [exact Hws | now constructor].
    - split; reflexivity. }
  destruct ((lit "@" ++ ws) ++ NL) as [|c0 hl] eqn:Eh; [discriminate|].
  destruct (q ++ NL) as [|c1 ql] eqn:Eq; [now destruct q|].
  rewrite E. reflexivity.
Qed.

Lemma records_then_converted (fin out tail : str) :
  records_then fin out tail ->
  fastq_to_fasta_text fin = prepend out (fastq_to_fasta_text tail).
Proof.
  induction 1 as [tail | h s p q token core rest out tail Hh Hs Hp Hq Ht Hc _ IH
                 | h s p q token core Hh Hs Hp Hq Hne Ht Hc].
  - now destruct (fastq_to_fasta_text tail).
  - rewrite (fastq_record_step h s p q token core rest); auto.
    now rewrite IH, prepend_prepend.
  - rewrite (fastq_last_record h s p q token core); auto.
    unfold prepend. simpl. now rewrite app_nil_r.
Qed.

(** C4 (as amended): the conversion takes the input four lines at a time and
    writes two lines for each record: [>] with the first token of the header
    once leading whitespace and one leading at-sign are passed, then the
    sequence line without the whitespace around it.  A run of such records
    is converted in full; when the stream then stops before a quality line,
    the records read so far have been written and the conversion ends in the
    truncated-record error.  The record [@read1 extra / ACGT / + / IIII]
    gives exactly [>read1 / ACGT]. *)
Theorem fastq_to_fasta_records (fin out tail : str) :
  records_then fin out tail ->
  (tail = [] ->
     fastq_to_fasta_text fin = {| written := out; raised := None |})
  /\ (ends_mid_record tail ->
     fastq_to_fasta_text fin = {| written := out; raised := Some TRUNCATED |})
  /\ fastq_to_fasta_text
       (lit "@read1 extra" ++ NL ++ lit "ACGT" ++ NL ++ lit "+" ++ NL ++ lit "IIII" ++ NL)
     = {| written := lit ">read1" ++ NL ++ lit "ACGT" ++ NL; raised := None |}.
Proof.
  intros H. apply records_then_converted in H. repeat split.
  - intros ->. rewrite H, fastq_empty. unfold prepend. simpl. now rewrite app_nil_r.
  - intros Ht. rewrite H, (fastq_truncated tail Ht). unfold prepend. simpl.
    now rewrite app_nil_r.
Qed.

Lemma sample_record_then (tail : str) :
  records_then
    (lit "@read1 extra" ++ NL ++ lit "ACGT" ++ NL ++ lit "+" ++ NL ++ lit "IIII" ++ NL ++ tail)
    (lit ">read1" ++ NL ++ lit "ACGT" ++ NL) tail.
Proof.
  pose proof (@rt_record (lit "@read1 extra") (lit "ACGT") (lit "+") (lit "IIII")
                (lit "read1") (lit "ACGT") tail [] tail) as H.
  unfold fastq_record, fasta_record in H. rewrite <- !app_assoc in H.
  rewrite app_nil_r in H. apply H.
  - repeat constructor; discriminate.
  - repeat constructor; discriminate.
  - repeat constructor; discriminate.
  - repeat constructor; discriminate.
  - exists [], [at_sign], [], (lit " extra"). repeat split.
    + constructor.
    + constructor.
    + now left.
    + discriminate.
    + repeat constructor.
  - exists [], []. repeat split; constructor.
  - constructor.
Qed.

Lemma fastq_to_fasta_records_witness :
  fastq_to_fasta_text
    (lit "@read1 extra" ++ NL ++ lit "ACGT" ++ NL ++ lit "+" ++ NL ++ lit "IIII" ++ NL)
  = {| written := lit ">read1" ++ NL ++ lit "ACGT" ++ NL; raised := None |}
  /\ fastq_to_fasta_text
       (lit "@read1 extra" ++ NL ++ lit "ACGT" ++ NL ++ lit "+" ++ NL ++ lit "IIII" ++ NL
        ++ (lit "@read2" ++ NL ++ lit "AC" ++ NL))
     = {| written := lit ">read1" ++ NL ++ lit "ACGT" ++ NL;
          raised := Some TRUNCATED |}.
Proof.
  split.
  - apply (proj1 (fastq_to_fasta_records _ _ [] (sample_record_then []))).
    reflexivity.
  - apply (proj1 (proj2 (fastq_to_fasta_records _ _ _
                           (sample_record_then (lit "@read2" ++ NL ++ lit "AC" ++ NL))))).
    split; [discriminate | reflexivity].
Defined.

(** C4 as the spec words it does not hold: a sequence line that ends in a
    blank is written without the blank, so what is written is not the raw
    line; and a blank between the at-sign and the name is passed over, while
    a cut at the first whitespace would leave an empty header. *)
Lemma fastq_to_fasta_not_raw :
  fastq_to_fasta_text
    (lit "@r1" ++ NL ++ lit "ACGT " ++ NL ++ lit "+" ++ NL ++ lit "IIII" ++ NL)
  = {| written := lit ">r1" ++ NL ++ lit "ACGT" ++ NL; raised := None |}
  /\ spec_fasta_record (lit "@r1" ++ NL) (lit "ACGT " ++ NL)
     = lit ">r1" ++ NL ++ lit "ACGT " ++ NL
  /\ written (fastq_to_fasta_text
       (lit "@r1" ++ NL ++ lit "ACGT " ++ NL ++ lit "+" ++ NL ++ lit "IIII" ++ NL))
     <> spec_fasta_record (lit "@r1" ++ NL) (lit "ACGT " ++ NL)
  /\ fastq_to_fasta_text
       (lit "@ r1" ++ NL ++ lit "ACGT" ++ NL ++ lit "+" ++ NL ++ lit "IIII" ++ NL)
     = {| written := lit ">r1" ++ NL ++ lit "ACGT" ++ NL; raised := None |}
  /\ spec_fasta_record (lit "@ r1" ++ NL) (lit "ACGT" ++ NL)
     = lit ">" ++ NL ++ lit "ACGT" ++ NL.
Proof.
  repeat split; try reflexivity. vm_compute. discriminate.
Qed.

(** C10: a complete record whose header is an at-sign followed by nothing
    but whitespace ends the conversion in [IndexError]: neither are its two
    lines written nor is the truncated-record error raised, so the
    conversion is not total over four-line records. *)
Theorem fastq_to_fasta_index_error (fin out ws s p q rest : str) :
  records_then fin out (fastq_record (lit "@" ++ ws) s p q ++ rest) ->
  all_space ws -> no_line_feed ws ->
  no_line_feed s -> no_line_feed p -> no_line_feed q ->
  fastq_to_fasta_text fin = {| written := out; raised := Some IndexError |}.
Proof.
  intros H Hws Hh Hs Hp Hq. apply records_then_converted in H.
  rewrite H, (fastq_header_without_token ws s p q rest); auto.
  unfold prepend. simpl. now rewrite app_nil_r.
Qed.

Lemma fastq_to_fasta_index_error_witness :
  fastq_to_fasta_text
    (lit "@" ++ NL ++ lit "ACGT" ++ NL ++ lit "+" ++ NL ++ lit "IIII" ++ NL)
  = {| written := []; raised := Some IndexError |}
  /\ fastq_to_fasta_text
       (lit "@  " ++ NL ++ lit "ACGT" ++ NL ++ lit "+" ++ NL ++ lit "IIII" ++ NL)
     = {| written := []; raised := Some IndexError |}.
Proof.
  split.
  - apply (fastq_to_fasta_index_error _ [] [] (lit "ACGT") (lit "+") (lit "IIII") []).
    + apply rt_done.
    + constructor.
    + constructor.
    + repeat constructor; discriminate.
    + repeat constructor; discriminate.
    + repeat constructor; discriminate.
  - apply (fastq_to_fasta_index_error _ [] (lit "  ") (lit "ACGT") (lit "+") (lit "IIII") []).
    + apply rt_done.
    + repeat constructor.
    + repeat constructor; discriminate.
    + repeat constructor; discriminate.
    + repeat constructor; discriminate.
    + repeat constructor; discriminate.
Defined.

(** ** The pipeline *)

Section PipelineFacts.

Context {L : PyLib} {Sy : System L}.

Local Notation "x <- m ;; k" := (bind m (fun x => k))
  (at level 61, m at next level, right associativity).
Local Notation "m ;; k" := (bind m (fun _ => k))
  (at level 61, right associativity).

Lemma after_nil (st : state) : after st (world st) [] = st.
Proof. destruct st. unfold after. simpl. now rewrite app_nil_r. Qed.

Lemma after_after (st : state) (w1 w2 : World) (evs1 evs2 : list event) :
  after (after st w1 evs1) w2 evs2 = after st w2 (evs1 ++ evs2).
Proof. unfold after. simpl. now rewrite app_assoc. Qed.

Lemma yields_elim {A} (m : M A) (st : state) Q r st' :
  yields m st Q -> m st = (r, st') ->
  exists evs, log st' = log st ++ evs /\ Q r (world st') evs.
Proof.
  intros (r0 & w & evs & E & HQ) H. rewrite E in H. injection H as <- <-.
  now exists evs.
Qed.

Lemma yields_weaken {A} (m : M A) (st : state) (Q Q' : result A -> World -> list event -> Prop) :
  yields m st Q -> (forall r w evs, Q r w evs -> Q' r w evs) -> yields m st Q'.
Proof. intros (r & w & evs & E & HQ) H. exists r, w, evs. auto. Qed.

Lemma yields_ret {A} (a : A) (st : state) Q :
  Q (Normal a) (world st) [] -> yields (ret a) st Q.
Proof. intros H. exists (Normal a), (world st), []. now rewrite after_nil. Qed.

Lemma yields_return_code {A} (code : Z) (st : state) (Q : result A -> _ -> _ -> Prop) :
  Q (Return code) (world st) [] -> yields (return_code code) st Q.
Proof. intros H. exists (Return code), (world st), []. now rewrite after_nil. Qed.

Lemma yields_raise {A} (e : exn) (st : state) (Q : result A -> _ -> _ -> Prop) :
  Q (Raise e) (world st) [] -> yields (raise e) st Q.
Proof. intros H. exists (Raise e), (world st), []. now rewrite after_nil. Qed.

Lemma yields_emit (ev : event) (st : state) Q :
  Q (Normal tt) (world st) [ev] -> yields (emit ev) st Q.
Proof. intros H. now exists (Normal tt), (world st), [ev]. Qed.

Lemma yields_ask {A} (f : World -> A) (st : state) Q :
  Q (Normal (f (world st))) (world st) [] -> yields (ask f) st Q.
Proof. intros H. exists (Normal (f (world st))), (world st), []. now rewrite after_nil. Qed.

Lemma yields_bind {A B} (m : M A) (k : A -> M B) (st : state)
    (Q1 : result A -> World -> list event -> Prop)
    (Q : result B -> World -> list event -> Prop) :
  yields m st Q1 ->
  (forall a w evs, Q1 (Normal a) w evs ->
     yields (k a) (after st w evs) (fun r w' evs' => Q r w' (evs ++ evs'))) ->
  (forall code w evs, Q1 (Return code) w evs -> Q (Return code) w evs) ->
  (forall e w evs, Q1 (Raise e) w evs -> Q (Raise e) w evs) ->
  yields (bind m k) st Q.
Proof.
  intros (r & w & evs & E & HQ) Hk Hret Hraise.
  destruct r as [a | code | e].
  - destruct (Hk a w evs HQ) as (r' & w' & evs' & E' & HQ').
    exists r', w', (evs ++ evs'). unfold bind. now rewrite E, E', after_after.
  - exists (Return code), w, evs. unfold bind. rewrite E. auto.
  - exists (Raise e), w, evs. unfold bind. rewrite E. auto.
Qed.

Lemma yields_eq {A} (m m' : M A) (st : state) Q :
  m st = m' st -> yields m' st Q -> yields m st Q.
Proof. unfold yields. now intros ->. Qed.

Lemma bind_assoc {A B C} (m : M A) (f : A -> M B) (g : B -> M C) (st : state) :
  bind (bind m f) g st = bind m (fun x => bind (f x) g) st.
Proof. unfold bind. now destruct (m st) as [[a | code | e] st']. Qed.

Lemma yields_assoc {A B C} (m : M A) (f : A -> M B) (g : B -> M C) (st : state) Q :
  yields (bind m (fun x => bind (f x) g)) st Q -> yields (bind (bind m f) g) st Q.
Proof. apply yields_eq, bind_assoc. Qed.

Lemma yields_ret_bind {A B} (a : A) (k : A -> M B) (st : state) Q :
  yields (k a) st Q -> yields (bind (ret a) k) st Q.
Proof. now apply yields_eq. Qed.

Lemma yields_ask_bind {A B} (f : World -> A) (k : A -> M B) (st : state) Q :
  yields (k (f (world st))) st Q -> yields (bind (ask f) k) st Q.
Proof. now apply yields_eq. Qed.

Lemma yields_emit_bind {B} (ev : event) (k : unit -> M B) (st : state) Q :
  yields (k tt) (after st (world st) [ev]) (fun r w evs => Q r w (ev :: evs)) ->
  yields (bind (emit ev) k) st Q.
Proof.
  intros (r & w & evs & E & HQ). exists r, w, (ev :: evs).
  split; [|exact HQ]. unfold bind, emit.
  change {| world := world st; log := log st ++ [ev] |}
    with (after st (world st) [ev]).
  now rewrite E, after_after.
Qed.

Lemma yields_exists_bind {B} (p : Path) (k : bool -> M B) (st : state) Q :
  yields (k (fs_exists (world st) p)) (after st (world st) [EvExists p])
         (fun r w evs => Q r w (EvExists p :: evs)) ->
  yields (bind (exists_ p) k) st Q.
Proof.
  intros H. unfold exists_. apply yields_assoc, yields_emit_bind.
  now apply yields_ask_bind.
Qed.

Lemma yields_return_code_bind {A B} (code : Z) (k : A -> M B) (st : state) Q :
  Q (Return code) (world st) [] -> yields (bind (return_code code) k) st Q.
Proof. intros H. exists (Return code), (world st), []. now rewrite after_nil. Qed.

Lemma yields_raise_bind {A B} (e : exn) (k : A -> M B) (st : state) Q :
  Q (Raise e) (world st) [] -> yields (bind (raise e) k) st Q.
Proof. intros H. exists (Raise e), (world st), []. now rewrite after_nil. Qed.

(** *** The primitives *)

Lemma mkdir_yields (p : Path) (st : state) :
  yields (mkdir p) st
    (fun r w evs =>
       evs = [EvMkdir p] /\
       ((r = Normal tt /\ fs_mkdir (world st) p = Some w) \/
        (r = Raise OSError /\ fs_mkdir (world st) p = None /\ w = world st))).
Proof.
  unfold yields, mkdir, bind, emit. cbn [world log].
  destruct (fs_mkdir (world st) p) as [w|] eqn:E.
  - exists (Normal tt), w, [EvMkdir p]. auto.
  - exists (Raise OSError), (world st), [EvMkdir p]. auto 6.
Qed.

Lemma subprocess_yields (cmd : list str) (cwd : option str) (st : state) :
  yields (subprocess cmd cwd) st
    (fun r w evs =>
       evs = [EvSubprocess cmd cwd] /\
       ((r = Normal tt /\ subprocess_run (world st) cmd cwd = inr w) \/
        (exists e, r = Raise e /\ subprocess_run (world st) cmd cwd = inl e /\
                   w = world st))).
Proof.
  unfold yields, subprocess, bind, emit. cbn [world log].
  destruct (subprocess_run (world st) cmd cwd) as [e|w] eqn:E.
  - exists (Raise e), (world st), [EvSubprocess cmd cwd]. eauto 8.
  - exists (Normal tt), w, [EvSubprocess cmd cwd]. auto.
Qed.

Lemma run_command_yields (cmd : list str) (dry_run : bool) (cwd : option Path)
    (st : state) :
  yields (run_command cmd dry_run cwd) st
    (commanded cmd (option_map path_str cwd) dry_run st).
Proof.
  unfold run_command. apply yields_emit_bind. destruct dry_run.
  - apply yields_ret. cbn [world after]. now apply commanded_dry.
  - eapply yields_weaken; [apply subprocess_yields|]. cbn [world after].
    intros r w evs (-> & [[-> H] | (e & -> & H & ->)]).
    + now apply commanded_run.
    + now apply commanded_failed.
Qed.

Lemma resolve_cutadapt_cmd_yields (st : state) :
  yields resolve_cutadapt_cmd st
    (fun r w evs => (exists cmd, r = Normal cmd) /\ w = world st /\ evs = []).
Proof.
  unfold resolve_cutadapt_cmd. apply yields_ask_bind.
  destruct (truthy (shutil_which (world st) (lit "cutadapt"))) as [f|].
  - apply yields_ret. eauto.
  - apply yields_ask_bind, yields_ret. eauto.
Qed.

Lemma resolve_assemblepairs_path_yields (st : state) :
  yields (resolve_assemblepairs_path None) st
    (fun r w evs =>
       ((exists path, r = Normal path) \/
        (exists msg, r = Raise (FileNotFoundError msg))) /\
       w = world st /\ Forall is_exists evs).
Proof.
  unfold resolve_assemblepairs_path. cbn [truthy]. apply yields_ask_bind.
  assert (forall st' : state, world st' = world st ->
            forall Q : result Path -> World -> list event -> Prop,
            (forall r evs, ((exists path, r = Normal path) \/
                            (exists msg, r = Raise (FileNotFoundError msg))) ->
                           evs = [] -> Q r (world st) evs) ->
            yields
              (bind (ask (fun w => shutil_which w (lit "AssemblePairs.py")))
                 (fun found =>
                    match truthy found with
                    | Some f => ret (path_of f)
                    | None =>
                        raise (FileNotFoundError
                          (lit "AssemblePairs.py not found. Activate presto_env or install presto."))
                    end)) st' Q) as Hwhich.
  { intros st' Hw Q HQ. apply yields_ask_bind.
    destruct (truthy (shutil_which (world st') (lit "AssemblePairs.py"))) as [f|].
    - apply yields_ret. rewrite Hw. apply HQ; eauto.
    - apply yields_raise. rewrite Hw. apply HQ; eauto. }
  destruct (truthy (env_conda_prefix (world st))) as [cp|].
  - apply yields_assoc, yields_exists_bind, yields_ret_bind.
    destruct (fs_exists (world st) _).
    + apply yields_ret. cbn [world after]. split; [left; eauto|].
      split; [reflexivity | repeat constructor].
    + apply Hwhich; [reflexivity|]. intros r evs Hr ->.
      split; [exact Hr|]. split; [reflexivity | repeat constructor].
  - apply yields_ret_bind. apply Hwhich; [reflexivity|]. intros r evs Hr ->.
    split; [exact Hr|]. split; [reflexivity | constructor].
Qed.


(** *** The stages of [main] *)

Lemma main_resolve_yields (args : Args) (st : state) :
  yields (main_resolve args) st (resolved args st).
Proof.
  unfold main_resolve.
  apply yields_exists_bind.
  destruct (fs_exists (world st) (path_of (a_r1 args))) eqn:E1; cbn [negb].
  2:{ unfold print_err. apply yields_emit_bind, yields_return_code.
      cbn [world after].
      now apply resolved_r1_missing. }
  apply yields_exists_bind. cbn [world after].
  destruct (fs_exists (world st) (path_of (a_r2 args))) eqn:E2; cbn [negb].
  2:{ unfold print_err. apply yields_emit_bind, yields_return_code.
      cbn [world after].
      now apply resolved_r2_missing. }
  fold (base_outdir_of args). fold (prefix_of args).
  eapply yields_bind; [apply mkdir_yields | | |]; cbn [world after].
  2:{ intros code w evs (_ & [[H _] | [H _]]); discriminate. }
  2:{ intros e w evs (-> & [[H _] | (H & Hmk & ->)]); [discriminate|].
      injection H as ->. now apply resolved_base_failed. }
  intros [] w1 evs (-> & [[_ Hmk1] | [H _]]); [|discriminate].
  match goal with
  | |- yields (bind _ ?k) _ _ =>
      apply yields_eq with (m' := bind (ret (run_id_of args w1)) k)
  end.
  { unfold run_id_of, bind, ret, ask.
    destruct (truthy (a_run_id args)); reflexivity. }
  apply yields_ret_bind.
  destruct (validate_run_id (run_id_of args w1)) as [e|] eqn:Ev.
  { apply yields_raise. now apply resolved_invalid_run_id. }
  eapply yields_bind; [apply mkdir_yields | | |]; cbn [world after].
  2:{ intros code w evs (_ & [[H _] | [H _]]); discriminate. }
  2:{ intros e w evs (-> & [[H _] | (H & Hmk & ->)]); [discriminate|].
      injection H as ->.
      exact (@resolved_run_dir_failed _ _ args st w1 E1 E2 Hmk1 Ev Hmk). }
  intros [] w2 evs (-> & [[_ Hmk2] | [H _]]); [|discriminate].
  eapply yields_bind; [apply mkdir_yields | | |]; cbn [world after].
  2:{ intros code w evs (_ & [[H _] | [H _]]); discriminate. }
  2:{ intros e w evs (-> & [[H _] | (H & Hmk & ->)]); [discriminate|].
      injection H as ->.
      exact (@resolved_parent_failed _ _ args st w1 w2 E1 E2 Hmk1 Ev Hmk2 Hmk). }
  intros [] w3 evs (-> & [[_ Hmk3] | [H _]]); [|discriminate].
  apply yields_ret. cbn [world after].
  exact (@resolved_run _ _ args st w1 w2 w3 E1 E2 Hmk1 Ev Hmk2 Hmk3).
Qed.


Lemma run_cutadapt_yields (extra : list str) (dry_run : bool) (st : state) :
  yields (bind resolve_cutadapt_cmd
            (fun cmd => run_command (cmd ++ extra) dry_run None)) st
    (fun r w evs =>
       exists cutadapt, commanded (cutadapt ++ extra) None dry_run st r w evs).
Proof.
  eapply yields_bind; [apply resolve_cutadapt_cmd_yields | | |].
  - intros cmd w evs (_ & -> & ->). rewrite after_nil.
    eapply yields_weaken; [apply run_command_yields|].
    intros r w evs H. now exists cmd.
  - intros code w evs ([cmd H] & _). discriminate.
  - intros e w evs ([cmd H] & _). discriminate.
Qed.

Lemma run_assemblepairs_yields (in1 in2 : Path) (outname coord rc : str)
    (logp : Path) (failed swap dry_run : bool) (outdir : Path) (st : state) :
  yields (run_assemblepairs in1 in2 outname coord rc logp failed swap dry_run outdir) st
    (fun r w evs =>
       exists checks, Forall is_exists checks /\
         ((exists msg, r = Raise (FileNotFoundError msg) /\ w = world st /\
                       evs = checks) \/
          (exists script evs',
             evs = checks ++ evs' /\
             commanded
               (assemblepairs_cmd (sys_executable (world st)) script in1 in2
                  outname coord rc logp failed swap)
               (Some (path_str outdir)) dry_run
               (after st (world st) checks) r w evs'))).
Proof.
  unfold run_assemblepairs.
  eapply yields_bind; [apply resolve_assemblepairs_path_yields | | |].
  - intros script w checks (_ & -> & Hc).
    apply yields_ask_bind. cbn [world after].
    eapply yields_weaken; [apply run_command_yields|].
    intros r w evs H. exists checks. split; [exact Hc|].
    right. exists script, evs. split; [reflexivity | exact H].
  - intros code w evs ([[p H] | [msg H]] & _); discriminate.
  - intros e w evs ([[p H] | [msg H]] & -> & Hc); [discriminate|].
    injection H as ->. exists evs. split; [exact Hc|]. left. now exists msg.
Qed.

Lemma main_assemble_reads_yields (args : Args) (run : Run) (st : state) :
  yields
    (run_assemblepairs (fst (assembly_inputs args run)) (snd (assembly_inputs args run))
       (path_str (assemble_outname run)) (a_coord args) (a_rc args) (log_path run)
       (a_failed args) (a_swap_r1r2 args) (a_dry_run args) (run_dir run)) st
    (assembled_reads args run st).
Proof.
  eapply yields_weaken; [apply run_assemblepairs_yields|].
  intros r w evs (checks & Hc & [(msg & -> & -> & ->) | (script & evs' & -> & H)]).
  - now apply assembled_no_tool.
  - now apply (@assembled_command _ _ args run st script).
Qed.

Lemma main_assemble_yields (args : Args) (run : Run) (st : state) :
  yields (main_assemble args run) st (assembled args run st).
Proof.
  unfold main_assemble.
  destruct (Py.str_eqb (a_mode args) (lit "trim-merge")) eqn:Em.
  - apply yields_assoc. unfold run_cutadapt_paired.
    eapply yields_bind; [apply run_cutadapt_yields | | |].
    + intros [] w1 evs1 [cutadapt H]. apply yields_ret_bind.
      eapply yields_weaken.
      * pose proof (main_assemble_reads_yields args run (after st w1 evs1)) as Hr.
        unfold assembly_inputs in Hr. rewrite Em in Hr. exact Hr.
      * intros r w evs Hr. now apply (@assembled_after_trim _ _ args run st cutadapt w1).
    + intros code w evs [cutadapt H]. inversion H.
    + intros e w evs [cutadapt H].
      now apply (@assembled_trim_failed _ _ args run st cutadapt).
  - apply yields_ret_bind.
    eapply yields_weaken.
    + pose proof (main_assemble_reads_yields args run st) as Hr.
      unfold assembly_inputs in Hr. rewrite Em in Hr. exact Hr.
    + intros r w evs Hr. now apply assembled_untrimmed.
Qed.


Lemma yields_self {A} (m : M A) (st : state) Q :
  yields m st Q ->
  yields m st (fun r w evs => m st = (r, after st w evs) /\ Q r w evs).
Proof. intros (r & w & evs & E & HQ). now exists r, w, evs. Qed.

Lemma check_yields (p : Path) (code : Z) (msg : str) (dry_run : bool) (st : state) :
  yields
    (bind (if dry_run then ret false
           else bind (exists_ p) (fun found => ret (negb found)))
       (fun missing : bool =>
          if missing then bind (print_err msg) (fun _ => return_code code)
          else ret tt)) st
    (checked p code msg dry_run st).
Proof.
  destruct dry_run.
  - apply yields_ret_bind, yields_ret. now apply checked_skipped.
  - apply yields_assoc, yields_exists_bind, yields_ret_bind.
    destruct (fs_exists (world st) p) eqn:E; cbn [negb].
    + apply yields_ret. cbn [world after]. now apply checked_found.
    + unfold print_err. apply yields_emit_bind, yields_return_code.
      cbn [world after]. now apply checked_missing.
Qed.

Lemma main_check_assembly_yields (args : Args) (run : Run) (st : state) :
  yields (main_check_assembly args run) st
    (checked (assemble_pass run) 3 (assembly_missing run) (a_dry_run args) st).
Proof. apply check_yields. Qed.

Lemma main_check_trim_yields (args : Args) (run : Run) (st : state) :
  yields (main_check_trim args run) st
    (checked (merge_then_trim_fastq run) 4 (trim_missing run) (a_dry_run args) st).
Proof. apply check_yields. Qed.

Lemma main_post_trim_yields (args : Args) (run : Run) (st : state) :
  yields (main_post_trim args run) st (post_trimmed args run st).
Proof.
  unfold main_post_trim.
  destruct (Py.str_eqb (a_mode args) (lit "merge-trim")) eqn:Em.
  - unfold run_cutadapt_single.
    eapply yields_bind; [apply run_cutadapt_yields | | |].
    + intros [] w1 evs1 [cutadapt H].
      eapply yields_bind; [apply main_check_trim_yields | | |].
      * intros [] w evs Hc. apply yields_ret. cbn [world after].
        rewrite app_nil_r.
        now apply (@post_trim_checked _ _ args run st cutadapt w1).
      * intros code w evs Hc. inversion Hc; subst.
        now apply (@post_trim_missing _ _ args run st cutadapt w1).
      * intros e w evs Hc. inversion Hc.
    + intros code w evs [cutadapt H]. inversion H.
    + intros e w evs [cutadapt H].
      now apply (@post_trim_failed _ _ args run st cutadapt).
  - apply yields_ret. now apply post_trim_skipped.
Qed.

Lemma fastq_to_fasta_yields (in_path out_path : Path) (st : state) :
  yields (fastq_to_fasta in_path out_path) st
    (fun r w evs =>
       Forall is_conversion evs /\ (r = Normal tt \/ exists e, r = Raise e)).
Proof.
  unfold fastq_to_fasta. apply yields_emit_bind, yields_ask_bind.
  cbn [world after].
  destruct (fs_read_text (world st) in_path _) as [fin|].
  - apply yields_emit_bind. unfold yields. cbn [world log after].
    destruct (fs_create (world st) out_path) as [w|].
    + destruct (raised (fastq_to_fasta_text fin)) as [e|].
      * exists (Raise e), (fs_write_text w out_path (written (fastq_to_fasta_text fin))), [].
        unfold after. cbn [world log]. rewrite !app_nil_r. split; [reflexivity|].
        split; [repeat constructor | right; eauto].
      * exists (Normal tt), (fs_write_text w out_path (written (fastq_to_fasta_text fin))), [].
        unfold after. cbn [world log]. rewrite !app_nil_r. split; [reflexivity|].
        split; [repeat constructor | now left].
    + exists (Raise OSError), (world st), [].
      unfold after. cbn [world log]. rewrite !app_nil_r.
      split; [reflexivity|]. split; [repeat constructor | right; eauto].
  - apply yields_raise. split; [repeat constructor | right; eauto].
Qed.

Lemma main_convert_yields (args : Args) (run : Run) (fasta_source : Path) (st : state) :
  yields (main_convert args run fasta_source) st (reported args run fasta_source st).
Proof.
  unfold main_convert, print. destruct (a_dry_run args) eqn:Ed.
  - do 6 apply yields_emit_bind. apply yields_return_code. cbn [world after].
    now apply reported_dry.
  - eapply yields_bind; [apply yields_self, fastq_to_fasta_yields | | |].
    + intros [] w evs (E & Hc & _).
      do 5 apply yields_emit_bind. apply yields_return_code. cbn [world after].
      now apply (@reported_converted _ _ args run fasta_source st w evs).
    + intros code w evs (_ & _ & [H | [e H]]); discriminate.
    + intros e w evs (E & Hc & _).
      now apply (@reported_failed _ _ args run fasta_source st e w evs).
Qed.

Lemma main_finish_yields (args : Args) (run : Run) (st : state) :
  yields (main_finish args run) st (finished args run st).
Proof.
  unfold main_finish.
  eapply yields_bind; [apply main_check_assembly_yields | | |].
  - intros [] w1 evs1 Hc.
    eapply yields_bind; [apply main_post_trim_yields | | |].
    + intros fasta_source w2 evs2 Hp.
      eapply yields_weaken; [apply main_convert_yields|].
      intros r w evs Hr. rewrite after_after in Hr.
      now apply (@finished_reported _ _ args run st w1 evs1 fasta_source w2 evs2).
    + intros code w evs Hp. inversion Hp; subst.
      * now apply (@finished_no_trim _ _ args run st w1 evs1).
    + intros e w evs Hp.
      now apply (@finished_trim_failed _ _ args run st w1 evs1).
  - intros code w evs Hc. inversion Hc; subst.
    now apply finished_no_assembly.
  - intros e w evs Hc. inversion Hc.
Qed.

Lemma commanded_not_return cmd cwd dry_run (st : state) code w evs :
  commanded cmd cwd dry_run st (Return code) w evs -> False.
Proof. inversion 1. Qed.

Lemma assembled_reads_not_return (args : Args) (run : Run) (st : state) code w evs :
  assembled_reads args run st (Return code) w evs -> False.
Proof.
  inversion 1; subst.
  match goal with H : commanded _ _ _ _ _ _ _ |- _ =>
    now apply commanded_not_return in H end.
Qed.

Lemma assembled_not_return (args : Args) (run : Run) (st : state) code w evs :
  assembled args run st (Return code) w evs -> False.
Proof.
  inversion 1; subst;
    match goal with
    | H : assembled_reads _ _ _ _ _ _ |- _ =>
        now apply assembled_reads_not_return in H
    end.
Qed.

Lemma main_yields (args : Args) (st : state) :
  yields (main args) st (ran args st).
Proof.
  unfold main.
  eapply yields_bind; [apply main_resolve_yields | | |].
  - intros run w1 evs1 Hr.
    eapply yields_bind; [apply main_assemble_yields | | |].
    + intros [] w2 evs2 Ha.
      eapply yields_weaken; [apply main_finish_yields|].
      intros r w evs Hf. rewrite after_after in Hf.
      now apply (@ran_finished _ _ args st run w1 evs1 w2 evs2).
    + intros code w evs Ha. exfalso. now apply assembled_not_return in Ha.
    + intros e w evs Ha.
      now apply (@ran_unassembled _ _ args st run w1 evs1).
  - intros code w evs Hr. inversion Hr; subst; now apply ran_inputs_missing.
  - intros e w evs Hr. now apply ran_unresolved.
Qed.


(** *** Reading the log *)

Lemma echoes_app (a b : list event) : echoes (a ++ b) = echoes a ++ echoes b.
Proof.
  induction a as [|ev a IH]; [reflexivity|].
  destruct ev; simpl; now rewrite IH.
Qed.

Lemma spawns_app (a b : list event) : spawns (a ++ b) = spawns a ++ spawns b.
Proof.
  induction a as [|ev a IH]; [reflexivity|].
  destruct ev; simpl; now rewrite IH.
Qed.

Lemma mkdirs_app (a b : list event) : mkdirs (a ++ b) = mkdirs a ++ mkdirs b.
Proof.
  induction a as [|ev a IH]; [reflexivity|].
  destruct ev; simpl; now rewrite IH.
Qed.

Lemma exists_events_quiet (evs : list event) :
  Forall is_exists evs ->
  echoes evs = [] /\ spawns evs = [] /\ mkdirs evs = [] /\ Forall is_dry evs.
Proof.
  induction 1 as [|ev evs Hev _ (IH1 & IH2 & IH3 & IH4)].
  - repeat split; constructor.
  - destruct ev; try contradiction. simpl. repeat split; auto.
Qed.

Lemma conversion_events_quiet (evs : list event) :
  Forall is_conversion evs -> echoes evs = [] /\ spawns evs = [].
Proof.
  induction 1 as [|ev evs Hev _ (IH1 & IH2)]; [now split|].
  destruct ev; try contradiction; simpl; now split.
Qed.

Lemma commanded_events cmd cwd dry_run (st : state) r w evs :
  commanded cmd cwd dry_run st r w evs -> evs = command_events cmd cwd dry_run.
Proof. unfold command_events. inversion 1; subst; reflexivity. Qed.

Lemma commanded_dry_run cmd cwd (st : state) r w evs :
  commanded cmd cwd true st r w evs -> r = Normal tt /\ w = world st.
Proof. inversion 1; subst; try discriminate. now split. Qed.

Lemma resolved_quiet (args : Args) (st : state) r w evs :
  resolved args st r w evs ->
  echoes evs = [] /\ spawns evs = [] /\ Forall is_dry evs.
Proof. inversion 1; subst; repeat split; repeat constructor. Qed.

Lemma resolved_run_planned (args : Args) (st : state) run w evs :
  resolved args st (Normal run) w evs ->
  exists w1,
    run = planned_run args (run_id_of args w1) /\
    validate_run_id (run_id run) = None /\
    fs_exists (world st) (r1 run) = true /\
    fs_exists (world st) (r2 run) = true /\
    mkdirs evs = [base_outdir run; run_dir run; path_parent (assemble_outname run)].
Proof.
  inversion 1; subst. exists w1. repeat split; assumption.
Qed.


(** *** Exit codes *)

Lemma main_ran (args : Args) (st : state) r st' :
  main args st = (r, st') ->
  exists evs, log st' = log st ++ evs /\ ran args st r (world st') evs.
Proof. apply yields_elim, main_yields. Qed.

Lemma main_stages (args : Args) (st : state) run st1 st2 :
  main_resolve args st = (Normal run, st1) ->
  main_assemble args run st1 = (Normal tt, st2) ->
  main args st = main_finish args run st2.
Proof. intros H1 H2. unfold main, bind. now rewrite H1, H2. Qed.

Lemma main_finish_stages (args : Args) (run : Run) (st : state) st3 fasta_source st4 :
  main_check_assembly args run st = (Normal tt, st3) ->
  main_post_trim args run st3 = (Normal fasta_source, st4) ->
  main_finish args run st = main_convert args run fasta_source st4.
Proof. intros H1 H2. unfold main_finish, bind. now rewrite H1, H2. Qed.

Lemma check_missing (p : Path) (code : Z) (msg : str) (st : state) r w evs :
  checked p code msg false st r w evs ->
  fs_exists (world st) p = false -> r = Return code.
Proof. inversion 1; subst; congruence. Qed.

Lemma main_missing_input (args : Args) (st : state) :
  fs_exists (world st) (path_of (a_r1 args)) = false \/
  fs_exists (world st) (path_of (a_r2 args)) = false ->
  exists evs, main args st = (Return 2, after st (world st) evs) /\
              Forall is_input_check evs.
Proof.
  intros Hmiss.
  destruct (main_yields args st) as (r & w & evs & E & Hran).
  assert (forall r w evs, resolved args st r w evs ->
            r = Return 2 /\ w = world st /\ Forall is_input_check evs) as Hres.
  { intros r0 w0 evs0 H. inversion H; subst;
      try (destruct Hmiss; congruence);
      (split; [reflexivity|]; split; [reflexivity | repeat constructor]). }
  inversion Hran; subst;
    match goal with
    | H : resolved _ _ _ _ _ |- _ => destruct (Hres _ _ _ H) as (Hr & Hw & Hev)
    end; try discriminate.
  subst. now exists evs.
Qed.

Lemma main_assembly_missing (args : Args) (st : state) run st1 st2 :
  main_resolve args st = (Normal run, st1) ->
  main_assemble args run st1 = (Normal tt, st2) ->
  a_dry_run args = false ->
  fs_exists (world st2) (assemble_pass run) = false ->
  exists st', main args st = (Return 3, st').
Proof.
  intros H1 H2 Hd Hx. rewrite (main_stages args st run st1 st2 H1 H2).
  unfold main_finish, bind.
  destruct (main_check_assembly_yields args run st2) as (r & w & evs & E & Hc).
  rewrite Hd in Hc. rewrite E, (check_missing _ _ _ _ _ _ _ Hc Hx). eauto.
Qed.

Lemma main_trim_missing (args : Args) (st : state) run st1 st2 st3 st4 :
  main_resolve args st = (Normal run, st1) ->
  main_assemble args run st1 = (Normal tt, st2) ->
  main_check_assembly args run st2 = (Normal tt, st3) ->
  a_mode args = lit "merge-trim" ->
  run_cutadapt_single (assemble_pass run) (merge_then_trim_fastq run)
    (adapters run) (a_threads args) (a_cutadapt_error_rate args)
    (a_cutadapt_overlap args) (a_cutadapt_min_length args) (a_dry_run args) st3
    = (Normal tt, st4) ->
  a_dry_run args = false ->
  fs_exists (world st4) (merge_then_trim_fastq run) = false ->
  exists st', main args st = (Return 4, st').
Proof.
  intros H1 H2 H3 Hm H4 Hd Hx. rewrite (main_stages args st run st1 st2 H1 H2).
  unfold main_finish, bind. rewrite H3.
  unfold main_post_trim. rewrite Hm, PyFacts.str_eqb_refl.
  unfold bind. rewrite H4.
  destruct (main_check_trim_yields args run st4) as (r & w & evs & E & Hc).
  rewrite Hd in Hc. rewrite E, (check_missing _ _ _ _ _ _ _ Hc Hx). eauto.
Qed.

Lemma main_success (args : Args) (st : state) run fasta_source st4 :
  reaches_conversion args st run fasta_source st4 ->
  (a_dry_run args = true \/
   exists st5,
     fastq_to_fasta fasta_source (path_with_suffix fasta_source ".fasta") st4
     = (Normal tt, st5)) ->
  exists st', main args st = (Return 0, st').
Proof.
  intros (st1 & st2 & st3 & H1 & H2 & H3 & H4) Hc.
  rewrite (main_stages args st run st1 st2 H1 H2).
  rewrite (main_finish_stages args run st2 st3 fasta_source st4 H3 H4).
  unfold main_convert.
  destruct (a_dry_run args).
  - unfold bind, print, emit, return_code. eauto.
  - destruct Hc as [Hc | [st5 Hc]]; [discriminate|].
    unfold bind at 1. rewrite Hc. unfold bind, print, emit, return_code. eauto.
Qed.

Lemma finished_codes (args : Args) (run : Run) (st : state) r w evs :
  finished args run st r w evs ->
  (r = Return 0 \/ (r = Return 3 /\ a_dry_run args = false) \/
   (r = Return 4 /\ a_dry_run args = false /\
    Py.str_eqb (a_mode args) "merge-trim" = true) \/
   exists e, r = Raise e).
Proof.
  inversion 1; subst.
  - right. left. split; [reflexivity|].
    match goal with H : checked _ _ _ _ _ _ _ _ |- _ => now inversion H end.
  - right. right. right. eauto.
  - right. right. left. split; [reflexivity|].
    match goal with H : post_trimmed _ _ _ _ _ _ |- _ => inversion H; subst end.
    match goal with H : checked _ 4 _ _ _ _ _ _ |- _ => now inversion H end.
  - match goal with H : reported _ _ _ _ _ _ _ |- _ => inversion H; subst end;
      [now left | now left | right; right; right; eauto].
Qed.

(** C1: [main] returns 2 when R1 or R2 does not exist, having done nothing
    but check the inputs; 3 when, outside a dry run, the assembly has ended
    and its pass output does not exist; 4 when, in mode [merge-trim] outside
    a dry run, the trim of the merged reads has ended and its output does
    not exist; and 0 when the conversion is reached and, outside a dry run,
    ends normally.  [main] returns no other code, returns 2 only when an
    input is missing, and 3 and 4 only outside a dry run. *)
Theorem exit_codes (args : Args) (st : state) :
  (fs_exists (world st) (path_of (a_r1 args)) = false \/
   fs_exists (world st) (path_of (a_r2 args)) = false ->
   exists evs, main args st = (Return 2, after st (world st) evs) /\
               Forall is_input_check evs /\ spawns evs = [] /\ echoes evs = [])
  /\ (forall run st1 st2,
        main_resolve args st = (Normal run, st1) ->
        main_assemble args run st1 = (Normal tt, st2) ->
        a_dry_run args = false ->
        fs_exists (world st2) (assemble_pass run) = false ->
        exit_status (fst (main args st)) = 3%Z)
  /\ (forall run st1 st2 st3 st4,
        main_resolve args st = (Normal run, st1) ->
        main_assemble args run st1 = (Normal tt, st2) ->
        main_check_assembly args run st2 = (Normal tt, st3) ->
        a_mode args = lit "merge-trim" ->
        run_cutadapt_single (assemble_pass run) (merge_then_trim_fastq run)
          (adapters run) (a_threads args) (a_cutadapt_error_rate args)
          (a_cutadapt_overlap args) (a_cutadapt_min_length args) (a_dry_run args) st3
          = (Normal tt, st4) ->
        a_dry_run args = false ->
        fs_exists (world st4) (merge_then_trim_fastq run) = false ->
        exit_status (fst (main args st)) = 4%Z)
  /\ (forall run fasta_source st4,
        reaches_conversion args st run fasta_source st4 ->
        (a_dry_run args = true \/
         exists st5,
           fastq_to_fasta fasta_source (path_with_suffix fasta_source ".fasta") st4
           = (Normal tt, st5)) ->
        exit_status (fst (main args st)) = 0%Z)
  /\ (forall r st',
        main args st = (r, st') ->
        (r = Return 0 \/
         (r = Return 2 /\
          (fs_exists (world st) (path_of (a_r1 args)) = false \/
           fs_exists (world st) (path_of (a_r2 args)) = false)) \/
         (r = Return 3 /\ a_dry_run args = false) \/
         (r = Return 4 /\ a_dry_run args = false /\
          Py.str_eqb (a_mode args) "merge-trim" = true) \/
         exists e, r = Raise e)).
Proof.
  split; [|split; [|split; [|split]]].
  - intros H. destruct (main_missing_input args st H) as (evs & E & Hev).
    exists evs. split; [exact E|]. split; [exact Hev|].
    clear E. induction Hev as [|ev evs Hx _ [IH1 IH2]]; [now split|].
    destruct ev; try contradiction; now split.
  - intros run st1 st2 H1 H2 Hd Hx.
    destruct (main_assembly_missing args st run st1 st2 H1 H2 Hd Hx) as [st' ->].
    reflexivity.
  - intros run st1 st2 st3 st4 H1 H2 H3 Hm H4 Hd Hx.
    destruct (main_trim_missing args st run st1 st2 st3 st4 H1 H2 H3 Hm H4 Hd Hx)
      as [st' ->].
    reflexivity.
  - intros run fasta_source st4 Hr Hc.
    destruct (main_success args st run fasta_source st4 Hr Hc) as [st' ->].
    reflexivity.
  - intros r st' H. destruct (main_ran args st r st' H) as (evs & _ & Hran).
    inversion Hran; subst.
    + right. left. split; [reflexivity|].
      match goal with H : resolved _ _ _ _ _ |- _ => inversion H; subst end; auto.
    + repeat right. eauto.
    + repeat right. eauto.
    + match goal with H : finished _ _ _ _ _ _ |- _ =>
        destruct (finished_codes _ _ _ _ _ _ H) as [-> | [[-> Hd] | [(-> & Hd) | [e ->]]]]
      end; auto 6.
      repeat right. eauto.
Qed.


(** *** The run identifier and the run directory *)

Lemma invalid_char_not_space (c : char) :
  In c INVALID_RUN_ID_CHARS -> Py.is_space c = false.
Proof.
  unfold INVALID_RUN_ID_CHARS. simpl.
  intros [<- | [<- | [<- | [<- | [<- | [<- | [<- | [<- | [<- | []]]]]]]]]];
    reflexivity.
Qed.

Lemma validate_run_id_invalid (rid : str) :
  existsb (fun ch => Py.contains INVALID_RUN_ID_CHARS [ch]) rid = true ->
  validate_run_id (Py.strip rid) =
  Some (ValueError (lit "--run-id contains invalid characters: " ++ INVALID_RUN_ID_CHARS)).
Proof.
  intros H. apply existsb_exists in H as (c & Hin & Hc).
  unfold validate_run_id.
  assert (existsb (fun ch => Py.contains INVALID_RUN_ID_CHARS [ch]) (Py.strip rid) = true)
    as ->; [|reflexivity].
  apply existsb_exists. exists c. split; [|exact Hc].
  apply PyFacts.strip_keeps; [exact Hin|].
  apply invalid_char_not_space. now apply PyFacts.contains_single.
Qed.

Lemma run_id_of_explicit (args : Args) (rid : str) (w : World) :
  a_run_id args = Some rid -> rid <> [] -> run_id_of args w = Py.strip rid.
Proof.
  intros H Hne. unfold run_id_of. rewrite H.
  destruct rid; [now contradiction Hne | reflexivity].
Qed.


Lemma main_resolve_resolved (args : Args) (st : state) r st' :
  main_resolve args st = (r, st') ->
  exists evs, log st' = log st ++ evs /\ resolved args st r (world st') evs.
Proof. apply yields_elim, main_resolve_yields. Qed.

(** C9: the run directory that [main] creates is the base output directory
    joined with [{prefix}_{mode_label}_{run_id}], where the label is
    [withoutTrim], [trimThenMerge] or [mergeThenTrim] for the three modes
    and never the mode string itself; the name is a function of the prefix,
    the mode and the run identifier alone. *)
Theorem run_directory_name (args : Args) (st : state) (run : Run) (st1 : state) :
  main_resolve args st = (Normal run, st1) ->
  run_name run =
    prefix_base run ++ lit "_" ++ mode_label (a_mode args) ++ lit "_" ++ run_id run
  /\ run_dir run = path_join (base_outdir run) (path_of (run_name run))
  /\ prefix_base run = prefix_of args
  /\ base_outdir run = base_outdir_of args
  /\ (exists w, run_id run = run_id_of args w)
  /\ (exists evs, log st1 = log st ++ evs /\
                  mkdirs evs = [base_outdir run; run_dir run;
                                path_parent (assemble_outname run)])
  /\ (forall prefix rid,
        run_dir_name prefix "merge-only" rid = prefix ++ lit "_withoutTrim_" ++ rid /\
        run_dir_name prefix "trim-merge" rid = prefix ++ lit "_trimThenMerge_" ++ rid /\
        run_dir_name prefix "merge-trim" rid = prefix ++ lit "_mergeThenTrim_" ++ rid)
  /\ (mode_label "merge-only" <> lit "merge-only" /\
      mode_label "trim-merge" <> lit "trim-merge" /\
      mode_label "merge-trim" <> lit "merge-trim")
  /\ (forall prefix mode rid prefix' mode' rid',
        prefix = prefix' -> mode = mode' -> rid = rid' ->
        run_dir_name prefix mode rid = run_dir_name prefix' mode' rid').
Proof.
  intros H. destruct (main_resolve_resolved args st _ st1 H) as (evs & Hlog & Hres).
  destruct (resolved_run_planned args st run _ evs Hres)
    as (w1 & -> & Hv & _ & _ & Hmk).
  repeat split; try reflexivity; try discriminate.
  - now exists w1.
  - now exists evs.
  - now intros; subst.
Qed.


(** *** The external commands *)

Lemma command_events_echoes cmd cwd dry_run :
  echoes (command_events cmd cwd dry_run) = [cmd].
Proof. now destruct dry_run. Qed.

Lemma command_events_spawns cmd cwd dry_run :
  spawns (command_events cmd cwd dry_run) = if dry_run then [] else [(cmd, cwd)].
Proof. now destruct dry_run. Qed.

Lemma command_events_dry cmd cwd : Forall is_dry (command_events cmd cwd true).
Proof. repeat constructor. Qed.

Lemma assemblepairs_cmd_order (exe : str) (script in1 in2 : Path)
    (outname coord rc : str) (logp : Path) (failed swap : bool) :
  exists rest,
    assemblepairs_cmd exe script in1 in2 outname coord rc logp failed swap =
    exe :: path_str script :: lit "align"
      :: lit "-1" :: path_str (if swap then in1 else in2)
      :: lit "-2" :: path_str (if swap then in2 else in1) :: rest.
Proof.
  unfold assemblepairs_cmd. destruct failed; eexists; reflexivity.
Qed.

(** What the call of [run_assemblepairs] in [main_assemble] leaves in the
    log. *)
Lemma assembled_reads_trace (args : Args) (run : Run) (st : state) r w evs :
  assembled_reads args run st r w evs ->
  (exists msg, r = Raise (FileNotFoundError msg) /\ w = world st /\
               Forall is_exists evs) \/
  (exists script checks,
     Forall is_exists checks /\
     evs = checks ++
           command_events
             (assembly_cmd args run (sys_executable (world st)) script
                (fst (assembly_inputs args run)) (snd (assembly_inputs args run)))
             (Some (path_str (run_dir run))) (a_dry_run args) /\
     (r = Normal tt \/ (a_dry_run args = false /\ exists e, r = Raise e)) /\
     (a_dry_run args = true -> w = world st)).
Proof.
  inversion 1 as [msg checks Hc | script checks r0 w0 evs0 Hc Hcmd]; subst.
  - left. now exists msg.
  - right. exists script, checks. split; [exact Hc|].
    rewrite (commanded_events _ _ _ _ _ _ _ Hcmd). split; [reflexivity|].
    inversion Hcmd; subst; (split; [eauto | intros; congruence || reflexivity]).
Qed.

(** C8: when [main_assemble] issues the assembly, the command reads
    [-1 <R2> -2 <R1>], or [-1 <R1> -2 <R2>] under [--swap-r1r2], on the reads
    it assembles, and it is executed in the run directory; before it, the
    only program that may have been executed is the paired trim, which has
    no working directory.  Otherwise [main_assemble] has ended in an
    exception before the assembly. *)
Theorem assembly_invocation (args : Args) (run : Run) (st : state) r st' :
  main_assemble args run st = (r, st') ->
  exists evs,
    log st' = log st ++ evs /\
    ((exists e, r = Raise e /\ Forall (fun inv => snd inv = None) (spawns evs)) \/
     (exists exe script before rest,
        let in1 := fst (assembly_inputs args run) in
        let in2 := snd (assembly_inputs args run) in
        let cmd := assembly_cmd args run exe script in1 in2 in
        evs = before ++
              command_events cmd (Some (path_str (run_dir run))) (a_dry_run args) /\
        Forall (fun inv => snd inv = None) (spawns before) /\
        cmd = exe :: path_str script :: lit "align"
                :: lit "-1" :: path_str (if a_swap_r1r2 args then in1 else in2)
                :: lit "-2" :: path_str (if a_swap_r1r2 args then in2 else in1)
                :: rest)).
Proof.
  intros H.
  destruct (yields_elim _ _ _ _ _ (main_assemble_yields args run st) H)
    as (evs & Hlog & Ha).
  exists evs. split; [exact Hlog|].
  assert (forall st0 r0 w0 evs0 before,
            Forall (fun inv => snd inv = None) (spawns before) ->
            assembled_reads args run st0 r0 w0 evs0 ->
            (exists e, r0 = Raise e /\
               Forall (fun inv => snd inv = None) (spawns (before ++ evs0))) \/
            (exists exe script before' rest,
               let in1 := fst (assembly_inputs args run) in
               let in2 := snd (assembly_inputs args run) in
               let cmd := assembly_cmd args run exe script in1 in2 in
               before ++ evs0 = before' ++
                 command_events cmd (Some (path_str (run_dir run))) (a_dry_run args) /\
               Forall (fun inv => snd inv = None) (spawns before') /\
               cmd = exe :: path_str script :: lit "align"
                       :: lit "-1" :: path_str (if a_swap_r1r2 args then in1 else in2)
                       :: lit "-2" :: path_str (if a_swap_r1r2 args then in2 else in1)
                       :: rest)) as Hreads.
  { intros st0 r0 w0 evs0 before Hb Hr.
    destruct (assembled_reads_trace args run st0 r0 w0 evs0 Hr)
      as [(msg & -> & _ & Hc) | (script & checks & Hc & -> & _ & _)].
    - left. exists (FileNotFoundError msg). split; [reflexivity|].
      rewrite spawns_app.
      destruct (exists_events_quiet evs0 Hc) as (_ & -> & _).
      now rewrite app_nil_r.
    - right.
      destruct (assemblepairs_cmd_order (sys_executable (world st0)) script
                  (fst (assembly_inputs args run)) (snd (assembly_inputs args run))
                  (path_str (assemble_outname run)) (a_coord args) (a_rc args)
                  (log_path run) (a_failed args) (a_swap_r1r2 args)) as [rest Hrest].
      exists (sys_executable (world st0)), script, (before ++ checks), rest.
      cbv zeta. split; [now rewrite app_assoc|]. split; [|exact Hrest].
      rewrite spawns_app.
      destruct (exists_events_quiet checks Hc) as (_ & -> & _).
      now rewrite app_nil_r. }
  inversion Ha as [cutadapt e w0 evs0 Hm Hc
                  | cutadapt w1 evs1 r0 w0 evs0 Hm Hc Hr
                  | r0 w0 evs0 Hm Hr]; subst.
  - left. exists e. split; [reflexivity|].
    rewrite (commanded_events _ _ _ _ _ _ _ Hc), command_events_spawns.
    destruct (a_dry_run args); repeat constructor.
  - refine (Hreads _ _ _ _ evs1 _ Hr).
    rewrite (commanded_events _ _ _ _ _ _ _ Hc), command_events_spawns.
    destruct (a_dry_run args); repeat constructor.
  - apply (Hreads _ _ _ _ [] (Forall_nil _) Hr).
Qed.


(** *** The commands of a run *)


Lemma checked_quiet (p : Path) code msg dry_run (st : state) r w evs :
  checked p code msg dry_run st r w evs ->
  echoes evs = [] /\ spawns evs = [] /\ w = world st.
Proof. inversion 1; subst; now repeat split. Qed.

Lemma closing_report_quiet (run : Run) (src : Path) :
  echoes (closing_report run src) = [] /\ spawns (closing_report run src) = [] /\
  Forall is_print (closing_report run src).
Proof. repeat split; repeat constructor. Qed.

Lemma finished_zero (args : Args) (run : Run) (st : state) w evs :
  finished args run st (Return 0) w evs ->
  exists cutadapt,
    let post := Py.str_eqb (a_mode args) "merge-trim" in
    let single := single_trim_cmd args run cutadapt in
    echoes evs = (if post then [single] else []) /\
    spawns evs =
      if a_dry_run args then [] else (if post then [(single, None)] else []).
Proof.
  inversion 1 as [ | | | w1 evs1 src w2 evs2 r0 w0 evs0 Hc Hp Hr]; subst.
  destruct (checked_quiet _ _ _ _ _ _ _ _ Hc) as (He1 & Hs1 & _).
  assert (echoes evs0 = [] /\ spawns evs0 = []) as [He3 Hs3].
  { inversion Hr as [Hd | w3 evs3 Hd Hconv Hq | ]; subst.
    - now split.
    - rewrite echoes_app, spawns_app.
      destruct (conversion_events_quiet _ Hq) as [-> ->].
      destruct (closing_report_quiet run src) as (-> & -> & _). now split. }
  rewrite !echoes_app, !spawns_app, He1, Hs1, He3, Hs3, !app_nil_r. cbn [app].
  inversion Hp as [Hm | | cutadapt w3 evs3 w4 evs4 Hm Hcmd Hchk | ]; subst.
  - exists []. cbv zeta. rewrite Hm. split; [reflexivity | now destruct (a_dry_run args)].
  - exists cutadapt. cbv zeta. rewrite Hm.
    destruct (checked_quiet _ _ _ _ _ _ _ _ Hchk) as (He4 & Hs4 & _).
    rewrite echoes_app, spawns_app, He4, Hs4, !app_nil_r.
    rewrite (commanded_events _ _ _ _ _ _ _ Hcmd).
    rewrite command_events_echoes, command_events_spawns.
    now destruct (a_dry_run args).
Qed.

(** *** The calls, with their programs and files *)

Lemma resolve_cutadapt_cmd_eq (st : state) :
  resolve_cutadapt_cmd st = (Normal (cutadapt_cmd_of (world st)), st).
Proof.
  unfold resolve_cutadapt_cmd, cutadapt_cmd_of, bind, ask, ret.
  destruct (truthy (shutil_which (world st) (lit "cutadapt"))); reflexivity.
Qed.

(** The lookup of the assembler reads the world, not the log. *)
Lemma resolve_assemblepairs_path_log (w : World) (l1 l2 : list event) :
  fst (resolve_assemblepairs_path None {| world := w; log := l1 |}) =
  fst (resolve_assemblepairs_path None {| world := w; log := l2 |}).
Proof.
  unfold resolve_assemblepairs_path. cbn [truthy].
  unfold exists_; unfold bind, emit, ask, ret, raise; cbn [world log].
  destruct (truthy (env_conda_prefix w)) as [cp|]; cbn [world log].
  - destruct (fs_exists w _); cbn [world log]; [reflexivity|].
    destruct (truthy (shutil_which w (lit "AssemblePairs.py"))); reflexivity.
  - destruct (truthy (shutil_which w (lit "AssemblePairs.py"))); reflexivity.
Qed.

Lemma resolve_assemblepairs_path_found (st : state) :
  yields (resolve_assemblepairs_path None) st
    (fun r w evs =>
       ((exists path, r = Normal path /\ script_found (world st) path) \/
        (exists msg, r = Raise (FileNotFoundError msg))) /\
       w = world st /\ Forall is_exists evs).
Proof.
  destruct (resolve_assemblepairs_path_yields st)
    as (r & w & evs & E & [[path ->] | Hr] & Hw & Hc);
    exists r, w, evs || exists (Normal path), w, evs; (split; [exact E|]).
  - split; [|now split]. left. exists path. split; [reflexivity|].
    unfold script_found.
    rewrite (resolve_assemblepairs_path_log (world st) [] (log st)).
    destruct st as [w0 l0]. cbn [world log]. now rewrite E.
  - split; [now right | now split].
Qed.

Lemma executed_calls_app (dry_run : bool) (a b : list (list str * option str)) :
  executed_calls dry_run a ++ executed_calls dry_run b = executed_calls dry_run (a ++ b).
Proof. now destruct dry_run. Qed.

(** One call of [run_command]: what is echoed, what is executed, and the
    world it leaves when it ends normally. *)
Lemma commanded_call cmd cwd dry_run (st : state) r w evs :
  commanded cmd cwd dry_run st r w evs ->
  echoes evs = [cmd] /\
  spawns evs = executed_calls dry_run [(cmd, cwd)] /\
  (r = Normal tt -> world_after_call dry_run (world st) cmd cwd w) /\
  (r = Normal tt \/ exists e, r = Raise e).
Proof.
  intros H. inversion H as [Hd | w0 Hd Hrun | e Hd Hrun]; subst;
    unfold executed_calls, world_after_call; repeat split; auto.
  - intros E. discriminate E.
  - right. now exists e.
Qed.

Lemma run_cutadapt_call (extra : list str) (dry_run : bool) (st : state) :
  yields (bind resolve_cutadapt_cmd
            (fun cmd => run_command (cmd ++ extra) dry_run None)) st
    (commanded (cutadapt_cmd_of (world st) ++ extra) None dry_run st).
Proof.
  apply yields_eq with (m' := run_command (cutadapt_cmd_of (world st) ++ extra) dry_run None).
  - unfold bind. now rewrite resolve_cutadapt_cmd_eq.
  - apply (run_command_yields _ dry_run None st).
Qed.

(** The call of [run_assemblepairs]: no call when the script is not found,
    and otherwise one call of the script that the lookup returns. *)
Lemma run_assemblepairs_call (in1 in2 : Path) (outname coord rc : str)
    (logp : Path) (failed swap dry_run : bool) (outdir : Path) (st : state) :
  yields (run_assemblepairs in1 in2 outname coord rc logp failed swap dry_run outdir) st
    (fun r w evs =>
       (echoes evs = [] /\ spawns evs = [] /\ exists e, r = Raise e) \/
       (exists script,
          let cmd :=
            assemblepairs_cmd (sys_executable (world st)) script in1 in2
              outname coord rc logp failed swap in
          script_found (world st) script /\
          echoes evs = [cmd] /\
          spawns evs = executed_calls dry_run [(cmd, Some (path_str outdir))] /\
          (r = Normal tt ->
           world_after_call dry_run (world st) cmd (Some (path_str outdir)) w))).
Proof.
  unfold run_assemblepairs.
  eapply yields_bind; [apply resolve_assemblepairs_path_found | | |].
  - intros script w checks ([(p & E & Hf) | (msg & E)] & -> & Hc); [|discriminate].
    injection E as <-.
    apply yields_ask_bind. cbn [world after].
    eapply yields_weaken; [apply run_command_yields|].
    intros r w evs H. cbn [option_map] in H.
    destruct (commanded_call _ _ _ _ _ _ _ H) as (He & Hs & Hw & _).
    destruct (exists_events_quiet checks Hc) as (Q1 & Q2 & _).
    right. exists script. cbv zeta.
    rewrite echoes_app, spawns_app, Q1, Q2. cbn [app].
    repeat split; auto.
  - intros code w evs ([(p & E & _) | (msg & E)] & _); discriminate.
  - intros e w evs (_ & _ & Hc).
    destruct (exists_events_quiet evs Hc) as (Q1 & Q2 & _).
    left. split; [exact Q1|]. split; [exact Q2|]. now exists e.
Qed.

(** The calls of [main_assemble]. *)
Lemma main_assemble_calls (args : Args) (run : Run) (st : state) :
  yields (main_assemble args run) st
    (fun r w evs =>
       let dry := a_dry_run args in
       let rd := Some (path_str (run_dir run)) in
       let paired := paired_trim_cmd args run (cutadapt_cmd_of (world st)) in
       if Py.str_eqb (a_mode args) "trim-merge" then
         (echoes evs = [paired] /\
          spawns evs = executed_calls dry [(paired, None)] /\
          exists e, r = Raise e)
         \/ (exists w4 script,
               let asm :=
                 assembly_cmd args run (sys_executable w4) script
                   (trimmed_r1 run) (trimmed_r2 run) in
               world_after_call dry (world st) paired None w4 /\
               script_found w4 script /\
               echoes evs = [paired; asm] /\
               spawns evs = executed_calls dry [(paired, None); (asm, rd)] /\
               (r = Normal tt -> world_after_call dry w4 asm rd w))
       else
         (echoes evs = [] /\ spawns evs = [] /\ exists e, r = Raise e)
         \/ (exists script,
               let asm :=
                 assembly_cmd args run (sys_executable (world st)) script
                   (r1 run) (r2 run) in
               script_found (world st) script /\
               echoes evs = [asm] /\
               spawns evs = executed_calls dry [(asm, rd)] /\
               (r = Normal tt -> world_after_call dry (world st) asm rd w))).
Proof.
  unfold main_assemble. cbv zeta.
  destruct (Py.str_eqb (a_mode args) (lit "trim-merge")) eqn:Em.
  - apply yields_assoc. unfold run_cutadapt_paired.
    eapply yields_bind; [apply run_cutadapt_call | | |].
    + intros [] w1 evs1 H. apply yields_ret_bind.
      destruct (commanded_call _ _ _ _ _ _ _ H) as (He & Hs & Hw & _).
      eapply yields_weaken; [apply run_assemblepairs_call|].
      cbn [world after].
      intros r w evs [(Qe & Qs & Hr) | (script & Hf & Qe & Qs & Qw)].
      * left. rewrite echoes_app, spawns_app, He, Hs, Qe, Qs, !app_nil_r.
        repeat split. exact Hr.
      * right. exists w1, script. cbv zeta.
        rewrite echoes_app, spawns_app, He, Hs, Qe, Qs, executed_calls_app.
        repeat split; auto.
    + intros code w evs H. inversion H.
    + intros e w evs H.
      destruct (commanded_call _ _ _ _ _ _ _ H) as (He & Hs & _).
      left. repeat split; auto. now exists e.
  - apply yields_ret_bind.
    eapply yields_weaken; [apply run_assemblepairs_call|].
    intros r w evs [(Qe & Qs & Hr) | (script & Hf & Qe & Qs & Qw)].
    + left. now repeat split.
    + right. exists script. cbv zeta. now repeat split.
Qed.

(** The calls of [main_finish]. *)
Lemma main_finish_calls (args : Args) (run : Run) (st : state) :
  yields (main_finish args run) st
    (fun r w evs =>
       let single := single_trim_cmd args run (cutadapt_cmd_of (world st)) in
       (echoes evs = [] /\ spawns evs = [] /\
        (r = Return 0 -> Py.str_eqb (a_mode args) "merge-trim" = false))
       \/ (Py.str_eqb (a_mode args) "merge-trim" = true /\
           echoes evs = [single] /\
           spawns evs = executed_calls (a_dry_run args) [(single, None)])).
Proof.
  assert (forall src (st0 : state) r w evs,
            reported args run src st0 r w evs ->
            echoes evs = [] /\ spawns evs = []) as Hrep.
  { intros src st0 r w evs H.
    inversion H as [Hd | w0 evs0 Hd Hrun Hc | e w0 evs0 Hd Hrun Hc]; subst.
    - now split.
    - destruct (conversion_events_quiet _ Hc) as [C1 C2].
      destruct (closing_report_quiet run src) as (R1 & R2 & _).
      now rewrite echoes_app, spawns_app, C1, C2, R1, R2.
    - now apply conversion_events_quiet. }
  unfold main_finish. cbv zeta.
  eapply yields_bind; [apply main_check_assembly_yields | | |].
  - intros [] w1 evs1 Hc.
    destruct (checked_quiet _ _ _ _ _ _ _ _ Hc) as (C1 & C2 & ->).
    unfold main_post_trim.
    destruct (Py.str_eqb (a_mode args) (lit "merge-trim")) eqn:Em.
    + unfold run_cutadapt_single. apply yields_assoc.
      eapply yields_bind; [apply run_cutadapt_call | | |].
      * intros [] w2 evs2 H. cbn [world after] in H.
        destruct (commanded_call _ _ _ _ _ _ _ H) as (He & Hs & _).
        cbn [world after] in He, Hs.
        apply yields_assoc.
        eapply yields_bind; [apply main_check_trim_yields | | |].
        -- intros [] w3 evs3 Hc3.
           destruct (checked_quiet _ _ _ _ _ _ _ _ Hc3) as (D1 & D2 & _).
           apply yields_ret_bind.
           eapply yields_weaken; [apply main_convert_yields|].
           intros r w evs Hr. destruct (Hrep _ _ _ _ _ Hr) as [R1 R2].
           right. split; [reflexivity|].
           rewrite !echoes_app, !spawns_app, C1, C2, He, Hs, D1, D2, R1, R2.
           cbn [app]. now rewrite !app_nil_r.
        -- intros code w evs Hc3.
           destruct (checked_quiet _ _ _ _ _ _ _ _ Hc3) as (D1 & D2 & _).
           right. split; [reflexivity|].
           rewrite !echoes_app, !spawns_app, C1, C2, He, Hs, D1, D2.
           cbn [app]. now rewrite !app_nil_r.
        -- intros e w evs Hc3. inversion Hc3.
      * intros code w evs H. inversion H.
      * intros e w evs H. cbn [world after] in H.
        destruct (commanded_call _ _ _ _ _ _ _ H) as (He & Hs & _).
        right. split; [reflexivity|].
        rewrite !echoes_app, !spawns_app, C1, C2, He, Hs. now cbn [app].
    + apply yields_ret_bind.
      eapply yields_weaken; [apply main_convert_yields|].
      intros r w evs Hr. destruct (Hrep _ _ _ _ _ Hr) as [R1 R2].
      left. rewrite !echoes_app, !spawns_app, C1, C2, R1, R2. now repeat split.
  - intros code w evs Hc.
    destruct (checked_quiet _ _ _ _ _ _ _ _ Hc) as (C1 & C2 & _).
    left. split; [exact C1|]. split; [exact C2|].
    intros E. inversion Hc; subst. discriminate E.
  - intros e w evs Hc. inversion Hc.
Qed.

(** C3: the calls of [run_command] that a run makes are fixed by the mode,
    in number, order, program and files.  Once the run directory and the
    parent of the assembly output exist, mode [merge-only] makes one call,
    [AssemblePairs.py align] on the raw R1 and R2; mode [trim-merge] makes
    two, [cutadapt] on R1 and R2 with the two trimmed files of the run
    directory as its outputs, then the assembly on these two files; mode
    [merge-trim] makes two, the assembly on the raw R1 and R2, then
    [cutadapt] on the pass output of the assembly with the trimmed merged
    reads as its output.  The assembly runs in the run directory, by the
    interpreter and the script that the lookup returns at that moment, and
    the trim by [cutadapt] as it is found at that moment.  A run that
    returns 0 has made all the calls of its mode; a run that ends earlier
    has made an initial part of them, and one that fails before the first
    call none.  Outside a dry run every call echoed is executed; in a dry
    run none is. *)
Theorem invocations_by_mode (args : Args) (st : state) r st' :
  main args st = (r, st') ->
  exists evs,
    log st' = log st ++ evs /\
    ((echoes evs = [] /\ spawns evs = [] /\ r <> Return 0) \/
     exists w1 w2 w3,
       let run := planned_run args (run_id_of args w1) in
       let dry := a_dry_run args in
       let rd := Some (path_str (run_dir run)) in
       let raw1 := path_of (a_r1 args) in
       let raw2 := path_of (a_r2 args) in
       let trimmed1 := join_str (run_dir run) (run_name run ++ lit "_trim_R1.fastq") in
       let trimmed2 := join_str (run_dir run) (run_name run ++ lit "_trim_R2.fastq") in
       let merged_trimmed := join_str (run_dir run) (run_name run ++ lit ".fastq") in
       let paired w :=
         cutadapt_cmd_of w ++
         [ lit "-j"; Py.str_of_int (a_threads args);
           lit "-g"; ensure_prefix (sanitize_adapter (a_adapter_5p_r1 args)) "^";
           lit "-G"; ensure_prefix (sanitize_adapter (a_adapter_5p_r2 args)) "^";
           lit "-a"; ensure_suffix (sanitize_adapter (a_adapter_3p_r1 args)) "$";
           lit "-A"; ensure_suffix (sanitize_adapter (a_adapter_3p_r2 args)) "$";
           lit "-e"; str_of_float (a_cutadapt_error_rate args);
           lit "-O"; Py.str_of_int (a_cutadapt_overlap args);
           lit "--minimum-length"; Py.str_of_int (a_cutadapt_min_length args);
           lit "-o"; path_str trimmed1;
           lit "-p"; path_str trimmed2;
           path_str raw1;
           path_str raw2 ] in
       let single w :=
         cutadapt_cmd_of w ++
         [ lit "-j"; Py.str_of_int (a_threads args);
           lit "-g"; ensure_prefix (sanitize_adapter (a_adapter_5p_r1 args)) "^";
           lit "-g"; ensure_prefix (sanitize_adapter (a_adapter_5p_r2 args)) "^";
           lit "-a"; ensure_suffix (sanitize_adapter (a_adapter_3p_r1 args)) "$";
           lit "-a"; ensure_suffix (sanitize_adapter (a_adapter_3p_r2 args)) "$";
           lit "-e"; str_of_float (a_cutadapt_error_rate args);
           lit "-O"; Py.str_of_int (a_cutadapt_overlap args);
           lit "--minimum-length"; Py.str_of_int (a_cutadapt_min_length args);
           lit "-o"; path_str merged_trimmed;
           path_str (assemble_pass run) ] in
       let assembly w script in1 in2 :=
         let cmd :=
           [ sys_executable w; path_str script; lit "align";
             lit "-1"; path_str (if a_swap_r1r2 args then in1 else in2);
             lit "-2"; path_str (if a_swap_r1r2 args then in2 else in1);
             lit "--coord"; a_coord args;
             lit "--rc"; a_rc args;
             lit "--outname"; path_str (assemble_outname run);
             lit "--log"; path_str (log_path run) ] in
         if a_failed args then cmd ++ [lit "--failed"] else cmd in
       fs_mkdir (world st) (base_outdir_of args) = Some w1 /\
       fs_mkdir w1 (run_dir run) = Some w2 /\
       fs_mkdir w2 (path_parent (assemble_outname run)) = Some w3 /\
       (a_mode args = lit "merge-only" ->
          exists script,
            script_found w3 script /\
            echoes evs = [assembly w3 script raw1 raw2] /\
            spawns evs = executed_calls dry [(assembly w3 script raw1 raw2, rd)]) /\
       (a_mode args = lit "trim-merge" ->
          (echoes evs = [paired w3] /\
           spawns evs = executed_calls dry [(paired w3, None)] /\
           r <> Return 0)
          \/ (exists w4 script,
                world_after_call dry w3 (paired w3) None w4 /\
                script_found w4 script /\
                echoes evs = [paired w3; assembly w4 script trimmed1 trimmed2] /\
                spawns evs =
                  executed_calls dry
                    [(paired w3, None); (assembly w4 script trimmed1 trimmed2, rd)])) /\
       (a_mode args = lit "merge-trim" ->
          exists script,
            script_found w3 script /\
            ((echoes evs = [assembly w3 script raw1 raw2] /\
              spawns evs = executed_calls dry [(assembly w3 script raw1 raw2, rd)] /\
              r <> Return 0)
             \/ (exists w5,
                   world_after_call dry w3 (assembly w3 script raw1 raw2) rd w5 /\
                   echoes evs = [assembly w3 script raw1 raw2; single w5] /\
                   spawns evs =
                     executed_calls dry
                       [(assembly w3 script raw1 raw2, rd); (single w5, None)])))).
Proof.
  intros H. unfold main in H. unfold bind at 1 in H.
  destruct (main_resolve args st) as [r0 st0] eqn:E0.
  destruct (main_resolve_resolved _ _ _ _ E0) as (evs1 & Hlog1 & Hres).
  destruct (resolved_quiet _ _ _ _ _ Hres) as (Q1 & Q2 & _).
  assert (forall code : Z, code <> 0%Z -> @Return Z code <> Return 0) as Hcode
    by (intros code Hc E; injection E as E; now apply Hc).
  destruct r0 as [run | code | e].
  2: { injection H as <- <-. exists evs1. split; [exact Hlog1|]. left.
       split; [exact Q1|]. split; [exact Q2|].
       inversion Hres; subst; discriminate. }
  2: { injection H as <- <-. exists evs1. split; [exact Hlog1|]. left.
       split; [exact Q1|]. split; [exact Q2|]. discriminate. }
  unfold bind in H.
  destruct (main_assemble args run st0) as [r1 st1] eqn:E1.
  destruct (yields_elim _ _ _ _ _ (main_assemble_calls args run st0) E1)
    as (evs2 & Hlog2 & Hasm).
  cbv zeta in Hasm.
  assert (exists evs3,
            log st' = log st1 ++ evs3 /\
            ((echoes evs3 = [] /\ spawns evs3 = [] /\
              (r = Return 0 ->
               r1 = Normal tt /\ Py.str_eqb (a_mode args) "merge-trim" = false))
             \/ (r1 = Normal tt /\
                 Py.str_eqb (a_mode args) "merge-trim" = true /\
                 echoes evs3 =
                   [single_trim_cmd args run (cutadapt_cmd_of (world st1))] /\
                 spawns evs3 =
                   executed_calls (a_dry_run args)
                     [(single_trim_cmd args run (cutadapt_cmd_of (world st1)), None)])))
    as (evs3 & Hlog3 & Hfin).
  { destruct r1 as [[] | code | e].
    - destruct (yields_elim _ _ _ _ _ (main_finish_calls args run st1) H)
        as (evs3 & Hlog3 & Hf).
      exists evs3. split; [exact Hlog3|]. cbv zeta in Hf.
      destruct Hf as [(F1 & F2 & F3) | (F1 & F2 & F3)].
      + left. repeat split; auto.
      + right. now repeat split.
    - exfalso.
      destruct (yields_elim _ _ _ _ _ (main_assemble_yields args run st0) E1)
        as (evs & _ & Hret).
      exact (assembled_not_return _ _ _ _ _ _ Hret).
    - injection H as <- <-. exists []. split; [now rewrite app_nil_r|].
      left. split; [reflexivity|]. split; [reflexivity|].
      intros E. discriminate E. }
  exists (evs1 ++ evs2 ++ evs3).
  split; [rewrite Hlog3, Hlog2, Hlog1; now rewrite <- !app_assoc|].
  rewrite !echoes_app, !spawns_app, Q1, Q2. cbn [app].
  inversion Hres as [| | | | | |w1 w2 w3 X1 X2 M1 V M2 M3 Erun Ew Eevs]; subst.
  set (run := planned_run args (run_id_of args w1)) in *.
  destruct (Py.str_eqb (a_mode args) (lit "trim-merge")) eqn:Em1;
    destruct (Py.str_eqb (a_mode args) (lit "merge-trim")) eqn:Em2.
  - apply PyFacts.str_eqb_spec in Em1, Em2. rewrite Em1 in Em2. discriminate.
  - (* trim-merge *)
    destruct Hfin as [(F1 & F2 & F3) | (_ & F & _)]; [|discriminate].
    rewrite F1, F2, !app_nil_r.
    destruct Hasm as [(A1 & A2 & e & ->) | (w4 & script & Hw4 & Hf & A1 & A2 & _)].
    + right. exists w1, w2, (world st0). cbv zeta.
      split; [exact M1|]. split; [exact M2|]. split; [exact M3|].
      split; [|split].
      * intros Hm. rewrite Hm in Em1. discriminate.
      * intros _. left. split; [exact A1|]. split; [exact A2|].
        intros E. destruct (F3 E) as [E' _]. discriminate.
      * intros Hm. rewrite Hm in Em2. discriminate.
    + right. exists w1, w2, (world st0). cbv zeta.
      split; [exact M1|]. split; [exact M2|]. split; [exact M3|].
      split; [|split].
      * intros Hm. rewrite Hm in Em1. discriminate.
      * intros _. right. exists w4, script.
        split; [exact Hw4|]. split; [exact Hf|]. split; [exact A1 | exact A2].
      * intros Hm. rewrite Hm in Em2. discriminate.
  - (* merge-trim *)
    destruct Hasm as [(A1 & A2 & e & ->) | (script & Hf & A1 & A2 & Hw)].
    + destruct Hfin as [(F1 & F2 & F3) | (F & _)]; [|discriminate].
      left. rewrite A1, A2, F1, F2. repeat split.
      intros E. destruct (F3 E) as [E' _]. discriminate.
    + right. exists w1, w2, (world st0). cbv zeta.
      split; [exact M1|]. split; [exact M2|]. split; [exact M3|].
      split; [|split].
      * intros Hm. rewrite Hm in Em2. discriminate.
      * intros Hm. rewrite Hm in Em1. discriminate.
      * intros _. exists script. split; [exact Hf|].
        destruct Hfin as [(F1 & F2 & F3) | (-> & _ & F1 & F2)].
        -- left. rewrite A1, A2, F1, F2, !app_nil_r. repeat split.
           intros E. destruct (F3 E) as [_ E']. discriminate.
        -- right. exists (world st1). split; [now apply Hw|].
           rewrite A1, A2, F1, F2, executed_calls_app. now split.
  - (* merge-only, or a mode that the parser refuses *)
    destruct Hfin as [(F1 & F2 & F3) | (_ & F & _)]; [|discriminate].
    rewrite F1, F2, !app_nil_r.
    destruct Hasm as [(A1 & A2 & e & ->) | (script & Hf & A1 & A2 & _)].
    + left. rewrite A1, A2. repeat split.
      intros E. destruct (F3 E) as [E' _]. discriminate.
    + right. exists w1, w2, (world st0). cbv zeta.
      split; [exact M1|]. split; [exact M2|]. split; [exact M3|].
      split; [|split].
      * intros _. exists script. split; [exact Hf|]. split; [exact A1 | exact A2].
      * intros Hm. rewrite Hm in Em1. discriminate.
      * intros Hm. rewrite Hm in Em2. discriminate.
Qed.


(** *** Dry runs *)

Lemma print_events_dry (evs : list event) :
  Forall is_print evs -> Forall is_dry evs /\ spawns evs = [].
Proof.
  induction 1 as [|ev evs Hev _ [IH1 IH2]]; [now split|].
  destruct ev; try contradiction; simpl; split; auto.
Qed.

Lemma commanded_dry_trace cmd cwd (st : state) r w evs :
  commanded cmd cwd true st r w evs ->
  r = Normal tt /\ w = world st /\ evs = [EvEcho cmd].
Proof. inversion 1; subst; try discriminate. now repeat split. Qed.

Lemma checked_dry_trace (p : Path) code msg (st : state) r w evs :
  checked p code msg true st r w evs ->
  r = Normal tt /\ w = world st /\ evs = [].
Proof. inversion 1; subst; try discriminate. now repeat split. Qed.

Lemma assembled_reads_dry (args : Args) (run : Run) (st : state) r w evs :
  a_dry_run args = true ->
  assembled_reads args run st r w evs ->
  (r = Normal tt \/ exists msg, r = Raise (FileNotFoundError msg)) /\
  w = world st /\ spawns evs = [] /\ Forall is_dry evs.
Proof.
  intros Hd Hr.
  destruct (assembled_reads_trace args run st r w evs Hr)
    as [(msg & -> & -> & Hc) | (script & checks & Hc & -> & Hres & Hw)].
  - destruct (exists_events_quiet evs Hc) as (_ & Hs & _ & Hdry). eauto 6.
  - destruct (exists_events_quiet checks Hc) as (_ & Hs & _ & Hdry).
    rewrite Hd in *. split; [|split; [auto|split]].
    + destruct Hres as [-> | [Hx _]]; [now left | discriminate].
    + now rewrite spawns_app, Hs.
    + apply Forall_app. split; [exact Hdry | apply command_events_dry].
Qed.

Lemma assembled_dry (args : Args) (run : Run) (st : state) r w evs :
  a_dry_run args = true ->
  assembled args run st r w evs ->
  (r = Normal tt \/ exists msg, r = Raise (FileNotFoundError msg)) /\
  w = world st /\ spawns evs = [] /\ Forall is_dry evs.
Proof.
  intros Hd.
  inversion 1 as [cutadapt e w0 evs0 Hm Hc
                 | cutadapt w1 evs1 r0 w0 evs0 Hm Hc Hr
                 | r0 w0 evs0 Hm Hr]; subst.
  - rewrite Hd in Hc. apply commanded_dry_trace in Hc as (Hx & _). discriminate.
  - rewrite Hd in Hc. apply commanded_dry_trace in Hc as (_ & -> & ->).
    destruct (assembled_reads_dry args run _ _ _ _ Hd Hr) as (Hres & -> & Hs & Hdry).
    split; [exact Hres|]. split; [reflexivity|]. split.
    + now rewrite spawns_app, Hs.
    + apply Forall_app. split; [repeat constructor | exact Hdry].
  - now apply (assembled_reads_dry args run st).
Qed.

Lemma finished_dry (args : Args) (run : Run) (st : state) r w evs :
  a_dry_run args = true ->
  finished args run st r w evs ->
  r = Return 0 /\ w = world st /\ Forall is_print evs.
Proof.
  intros Hd.
  inversion 1 as [w0 evs0 Hc
                 | w1 evs1 e w0 evs0 Hc Hp
                 | w1 evs1 w0 evs0 Hc Hp
                 | w1 evs1 src w2 evs2 r0 w0 evs0 Hc Hp Hr]; subst;
    rewrite Hd in Hc; apply checked_dry_trace in Hc as (Hx & Hw1 & Hev1);
    try discriminate; subst.
  - inversion Hp as [ | cutadapt e0 w3 evs3 Hm Hcmd | | ]; subst.
    rewrite Hd in Hcmd. apply commanded_dry_trace in Hcmd as (Hy & _). discriminate.
  - inversion Hp as [ | | | cutadapt w3 evs3 w4 evs4 Hm Hcmd Hchk]; subst.
    rewrite Hd in Hchk. apply checked_dry_trace in Hchk as (Hy & _). discriminate.
  - assert (w2 = world st /\ Forall is_print evs2) as [-> Hev2].
    { inversion Hp as [Hm | | cutadapt w3 evs3 w4 evs4 Hm Hcmd Hchk | ]; subst.
      - split; [reflexivity | constructor].
      - rewrite Hd in Hcmd, Hchk.
        apply commanded_dry_trace in Hcmd as (_ & -> & ->).
        apply checked_dry_trace in Hchk as (_ & -> & ->).
        split; [reflexivity | repeat constructor]. }
    inversion Hr as [Hd' | w3 evs3 Hd' | e0 w3 evs3 Hd']; subst;
      try (rewrite Hd in Hd'; discriminate).
    split; [reflexivity|]. split; [reflexivity|].
    cbn [app]. apply Forall_app. split; [exact Hev2|].
    constructor; [exact I|]. apply closing_report_quiet.
Qed.

(** C7: in a dry run [main] executes no external program and opens no file
    for the conversion; once the assembly command has been echoed nothing
    is done but printing, so that no output is checked and the run ends
    with code 0; the runs that do not end with code 0 are those stopped by
    a missing input, by a [mkdir] that fails, by an invalid run identifier
    or by a missing [AssemblePairs.py]. *)
Theorem dry_run_effects (args : Args) (st : state) r st' :
  a_dry_run args = true ->
  main args st = (r, st') ->
  exists evs,
    log st' = log st ++ evs /\
    spawns evs = [] /\ Forall is_dry evs /\
    (r = Return 0 \/
     (r = Return 2 /\
      (fs_exists (world st) (path_of (a_r1 args)) = false \/
       fs_exists (world st) (path_of (a_r2 args)) = false)) \/
     r = Raise OSError \/
     (exists e w, r = Raise e /\ validate_run_id (run_id_of args w) = Some e) \/
     (exists msg, r = Raise (FileNotFoundError msg))) /\
    (forall run st1 st2,
       main_resolve args st = (Normal run, st1) ->
       main_assemble args run st1 = (Normal tt, st2) ->
       exists evs2,
         main_finish args run st2 = (Return 0, after st2 (world st2) evs2) /\
         Forall is_print evs2).
Proof.
  intros Hd H. destruct (main_ran args st r st' H) as (evs & Hlog & Hran).
  exists evs. split; [exact Hlog|].
  assert (forall run st1 st2,
            main_resolve args st = (Normal run, st1) ->
            main_assemble args run st1 = (Normal tt, st2) ->
            exists evs2,
              main_finish args run st2 = (Return 0, after st2 (world st2) evs2) /\
              Forall is_print evs2) as Hfinish.
  { intros run st1 st2 _ _.
    destruct (main_finish_yields args run st2) as (r2 & w2 & evs2 & E & Hf).
    destruct (finished_dry args run st2 r2 w2 evs2 Hd Hf) as (-> & -> & Hp).
    now exists evs2. }
  inversion Hran as [w0 evs0 Hres
                    | e w0 evs0 Hres
                    | run w1 evs1 e w0 evs0 Hres Hasm
                    | run w1 evs1 w2 evs2 r0 w0 evs3 Hres Hasm Hfin]; subst.
  - destruct (resolved_quiet args st _ _ _ Hres) as (_ & Hs & Hdry).
    split; [exact Hs|]. split; [exact Hdry|]. split; [|exact Hfinish].
    right. left. split; [reflexivity|]. inversion Hres; subst; auto.
  - destruct (resolved_quiet args st _ _ _ Hres) as (_ & Hs & Hdry).
    split; [exact Hs|]. split; [exact Hdry|]. split; [|exact Hfinish].
    inversion Hres; subst; eauto 8.
  - destruct (resolved_quiet args st _ _ _ Hres) as (_ & Hs & Hdry).
    destruct (assembled_dry args run _ _ _ _ Hd Hasm) as (Hr & _ & Hs2 & Hdry2).
    split; [now rewrite spawns_app, Hs, Hs2|].
    split; [apply Forall_app; now split|]. split; [|exact Hfinish].
    destruct Hr as [Hr | [msg Hr]]; [discriminate|].
    injection Hr as ->. repeat right. eauto.
  - destruct (resolved_quiet args st _ _ _ Hres) as (_ & Hs & Hdry).
    destruct (assembled_dry args run _ _ _ _ Hd Hasm) as (_ & _ & Hs2 & Hdry2).
    destruct (finished_dry args run _ _ _ _ Hd Hfin) as (-> & _ & Hp).
    destruct (print_events_dry evs3 Hp) as [Hdry3 Hs3].
    split; [now rewrite !spawns_app, Hs, Hs2, Hs3|].
    split; [repeat (apply Forall_app; split); assumption|].
    split; [now left | exact Hfinish].
Qed.

End PipelineFacts.

(** ** Concrete runs

    The statements above at work on the small implementation of the
    interface. *)

Lemma exit_codes_witness :
  exit_status (fst (main Toy.merge_trim_run1 (Toy.start Toy.machine_without_reads))) = 2%Z
  /\ exit_status (fst (main Toy.merge_only_run1 (Toy.start Toy.machine_silent_assembler))) = 3%Z
  /\ exit_status (fst (main Toy.merge_trim_run1 (Toy.start Toy.machine_silent_trimmer))) = 4%Z
  /\ exit_status (fst (main Toy.merge_trim_run1 (Toy.start Toy.machine))) = 0%Z.
Proof.
  split; [|split; [|split]].
  - destruct (proj1 (@exit_codes Toy.lib Toy.sys Toy.merge_trim_run1
                       (Toy.start Toy.machine_without_reads)))
      as (evs & E & _).
    + left. vm_compute. reflexivity.
    + rewrite E. reflexivity.
  - pose (args := Toy.merge_only_run1).
    pose (st := Toy.start Toy.machine_silent_assembler).
    pose (run := planned_run args (lit "run1")).
    apply (proj1 (proj2 (@exit_codes Toy.lib Toy.sys args st)) run
             (snd (main_resolve args st))
             (snd (main_assemble args run (snd (main_resolve args st))))).
    + vm_compute. reflexivity.
    + vm_compute. reflexivity.
    + reflexivity.
    + vm_compute. reflexivity.
  - pose (args := Toy.merge_trim_run1).
    pose (st := Toy.start Toy.machine_silent_trimmer).
    pose (run := planned_run args (lit "run1")).
    pose (st1 := snd (main_resolve args st)).
    pose (st2 := snd (main_assemble args run st1)).
    pose (st3 := snd (main_check_assembly args run st2)).
    apply (proj1 (proj2 (proj2 (@exit_codes Toy.lib Toy.sys args st))) run st1 st2 st3
             (snd (run_cutadapt_single (assemble_pass run) (merge_then_trim_fastq run)
                     (adapters run) (a_threads args) (a_cutadapt_error_rate args)
                     (a_cutadapt_overlap args) (a_cutadapt_min_length args)
                     (a_dry_run args) st3))).
    + vm_compute. reflexivity.
    + vm_compute. reflexivity.
    + vm_compute. reflexivity.
    + reflexivity.
    + vm_compute. reflexivity.
    + reflexivity.
    + vm_compute. reflexivity.
  - pose (args := Toy.merge_trim_run1).
    pose (st := Toy.start Toy.machine).
    pose (run := planned_run args (lit "run1")).
    pose (st1 := snd (main_resolve args st)).
    pose (st2 := snd (main_assemble args run st1)).
    pose (st3 := snd (main_check_assembly args run st2)).
    pose (st4 := snd (main_post_trim args run st3)).
    apply (proj1 (proj2 (proj2 (proj2 (@exit_codes Toy.lib Toy.sys args st))))
             run (merge_then_trim_fastq run) st4).
    + exists st1, st2, st3. repeat split; vm_compute; reflexivity.
    + right.
      exists (snd (fastq_to_fasta (merge_then_trim_fastq run)
                     (path_with_suffix (merge_then_trim_fastq run) (lit ".fasta")) st4)).
      vm_compute. reflexivity.
Defined.



Lemma run_directory_name_witness :
  @main_resolve Toy.lib Toy.sys Toy.merge_only_run1 (Toy.start Toy.machine)
  = (Normal (planned_run Toy.merge_only_run1 (lit "run1")),
     snd (main_resolve Toy.merge_only_run1 (Toy.start Toy.machine)))
  /\ run_name (planned_run Toy.merge_only_run1 (lit "run1"))
     = lit "s1_withoutTrim_run1"
  /\ run_dir (planned_run Toy.merge_only_run1 (lit "run1"))
     = lit "/data/s1_withoutTrim_run1".
Proof.
  assert (@main_resolve Toy.lib Toy.sys Toy.merge_only_run1 (Toy.start Toy.machine)
          = (Normal (planned_run Toy.merge_only_run1 (lit "run1")),
             snd (main_resolve Toy.merge_only_run1 (Toy.start Toy.machine)))) as H
    by (vm_compute; reflexivity).
  split; [exact H|].
  destruct (@run_directory_name Toy.lib Toy.sys _ _ _ _ H) as (Hn & Hd & _).
  split.
  - rewrite Hn. vm_compute. reflexivity.
  - rewrite Hd. vm_compute. reflexivity.
Defined.

Lemma invocations_by_mode_witness :
  echoes (log (snd (main Toy.merge_only_run1 (Toy.start Toy.machine))))
  = map (map lit)
      [ [ "/opt/bin/python3"; "/opt/bin/AssemblePairs.py"; "align";
          "-1"; "/data/s1_R2.fastq"; "-2"; "/data/s1_R1.fastq";
          "--coord"; "illumina"; "--rc"; "tail";
          "--outname"; "/data/s1_withoutTrim_run1/s1_withoutTrim_run1_presto";
          "--log"; "/data/s1_withoutTrim_run1/s1_withoutTrim_run1_AP_align.log" ] ]
  /\ echoes (log (snd (main Toy.trim_merge_run1 (Toy.start Toy.machine))))
     = map (map lit)
         [ [ "/opt/bin/cutadapt"; "-j"; "8";
             "-g"; "^TGAGTTCCACGACACCGTCA"; "-G"; "^CTAATACGACTCCGAATTCC";
             "-a"; "GGAATTCGGAGTCGTATTAG$"; "-A"; "TGACGGTGTCGTGGAACTCA$";
             "-e"; "0.15"; "-O"; "10"; "--minimum-length"; "50";
             "-o"; "/data/s1_trimThenMerge_run1/s1_trimThenMerge_run1_trim_R1.fastq";
             "-p"; "/data/s1_trimThenMerge_run1/s1_trimThenMerge_run1_trim_R2.fastq";
             "/data/s1_R1.fastq"; "/data/s1_R2.fastq" ];
           [ "/opt/bin/python3"; "/opt/bin/AssemblePairs.py"; "align";
             "-1"; "/data/s1_trimThenMerge_run1/s1_trimThenMerge_run1_trim_R2.fastq";
             "-2"; "/data/s1_trimThenMerge_run1/s1_trimThenMerge_run1_trim_R1.fastq";
             "--coord"; "illumina"; "--rc"; "tail";
             "--outname"; "/data/s1_trimThenMerge_run1/s1_trimThenMerge_run1_presto";
             "--log"; "/data/s1_trimThenMerge_run1/s1_trimThenMerge_run1_AP_align.log" ] ]
  /\ map snd (spawns (log (snd (main Toy.trim_merge_run1 (Toy.start Toy.machine)))))
     = [None; Some (lit "/data/s1_trimThenMerge_run1")]
  /\ echoes (log (snd (main Toy.merge_trim_run1 (Toy.start Toy.machine))))
     = map (map lit)
         [ [ "/opt/bin/python3"; "/opt/bin/AssemblePairs.py"; "align";
             "-1"; "/data/s1_R2.fastq"; "-2"; "/data/s1_R1.fastq";
             "--coord"; "illumina"; "--rc"; "tail";
             "--outname"; "/data/s1_mergeThenTrim_run1/s1_mergeThenTrim_run1_presto";
             "--log"; "/data/s1_mergeThenTrim_run1/s1_mergeThenTrim_run1_AP_align.log" ];
           [ "/opt/bin/cutadapt"; "-j"; "8";
             "-g"; "^TGAGTTCCACGACACCGTCA"; "-g"; "^CTAATACGACTCCGAATTCC";
             "-a"; "GGAATTCGGAGTCGTATTAG$"; "-a"; "TGACGGTGTCGTGGAACTCA$";
             "-e"; "0.15"; "-O"; "10"; "--minimum-length"; "50";
             "-o"; "/data/s1_mergeThenTrim_run1/s1_mergeThenTrim_run1.fastq";
             "/data/s1_mergeThenTrim_run1/s1_mergeThenTrim_run1_presto_assemble-pass.fastq" ] ]
  /\ spawns (log (snd (main Toy.trim_merge_dry_run (Toy.start Toy.machine)))) = [].
Proof.
  split; [|split; [|split; [|split]]].
  - destruct (@invocations_by_mode Toy.lib Toy.sys Toy.merge_only_run1
                (Toy.start Toy.machine) _ _ (surjective_pairing _))
      as (evs & Hlog & [(_ & _ & Hr) | (w1 & w2 & w3 & Hall)]);
      [exfalso; apply Hr; vm_compute; reflexivity|].
    cbv zeta in Hall. destruct Hall as (M1 & M2 & M3 & Hmo & _ & _).
    cbn [fs_mkdir Toy.sys] in M1, M2, M3.
    injection M1 as <-. injection M2 as <-. injection M3 as <-.
    destruct (Hmo eq_refl) as (script & Hf & He & _).
    unfold script_found in Hf. vm_compute in Hf. injection Hf as <-.
    rewrite Hlog. cbn [log Toy.start app]. rewrite He. vm_compute. reflexivity.
  - destruct (@invocations_by_mode Toy.lib Toy.sys Toy.trim_merge_run1
                (Toy.start Toy.machine) _ _ (surjective_pairing _))
      as (evs & Hlog & [(_ & _ & Hr) | (w1 & w2 & w3 & Hall)]);
      [exfalso; apply Hr; vm_compute; reflexivity|].
    cbv zeta in Hall. destruct Hall as (M1 & M2 & M3 & _ & Htm & _).
    cbn [fs_mkdir Toy.sys] in M1, M2, M3.
    injection M1 as <-. injection M2 as <-. injection M3 as <-.
    destruct (Htm eq_refl) as [(_ & _ & Hr) | (w4 & script & Hw4 & Hf & He & _)];
      [exfalso; apply Hr; vm_compute; reflexivity|].
    unfold world_after_call in Hw4. vm_compute in Hw4. injection Hw4 as <-.
    unfold script_found in Hf. vm_compute in Hf. injection Hf as <-.
    rewrite Hlog. cbn [log Toy.start app]. rewrite He. vm_compute. reflexivity.
  - destruct (@invocations_by_mode Toy.lib Toy.sys Toy.trim_merge_run1
                (Toy.start Toy.machine) _ _ (surjective_pairing _))
      as (evs & Hlog & [(_ & _ & Hr) | (w1 & w2 & w3 & Hall)]);
      [exfalso; apply Hr; vm_compute; reflexivity|].
    cbv zeta in Hall. destruct Hall as (M1 & M2 & M3 & _ & Htm & _).
    cbn [fs_mkdir Toy.sys] in M1, M2, M3.
    injection M1 as <-. injection M2 as <-. injection M3 as <-.
    destruct (Htm eq_refl) as [(_ & _ & Hr) | (w4 & script & _ & _ & _ & Hs)];
      [exfalso; apply Hr; vm_compute; reflexivity|].
    rewrite Hlog. cbn [log Toy.start app]. rewrite Hs. reflexivity.
  - destruct (@invocations_by_mode Toy.lib Toy.sys Toy.merge_trim_run1
                (Toy.start Toy.machine) _ _ (surjective_pairing _))
      as (evs & Hlog & [(_ & _ & Hr) | (w1 & w2 & w3 & Hall)]);
      [exfalso; apply Hr; vm_compute; reflexivity|].
    cbv zeta in Hall. destruct Hall as (M1 & M2 & M3 & _ & _ & Hmt).
    cbn [fs_mkdir Toy.sys] in M1, M2, M3.
    injection M1 as <-. injection M2 as <-. injection M3 as <-.
    destruct (Hmt eq_refl) as (script & Hf & [(_ & _ & Hr) | (w5 & Hw5 & He & _)]);
      [exfalso; apply Hr; vm_compute; reflexivity|].
    unfold script_found in Hf. vm_compute in Hf. injection Hf as <-.
    unfold world_after_call in Hw5. vm_compute in Hw5. injection Hw5 as <-.
    rewrite Hlog. cbn [log Toy.start app]. rewrite He. vm_compute. reflexivity.
  - destruct (@invocations_by_mode Toy.lib Toy.sys Toy.trim_merge_dry_run
                (Toy.start Toy.machine) _ _ (surjective_pairing _))
      as (evs & Hlog & [(_ & Hs & _) | (w1 & w2 & w3 & Hall)]).
    + rewrite Hlog. cbn [log Toy.start app]. exact Hs.
    + cbv zeta in Hall. destruct Hall as (_ & _ & _ & _ & Htm & _).
      rewrite Hlog. cbn [log Toy.start app].
      destruct (Htm eq_refl) as [(_ & Hs & _) | (w4 & script & _ & _ & _ & Hs)];
        rewrite Hs; reflexivity.
Defined.

Lemma dry_run_effects_witness :
  a_dry_run Toy.trim_merge_dry_run = true
  /\ fst (main Toy.trim_merge_dry_run (Toy.start Toy.machine)) = Return 0
  /\ spawns (log (snd (main Toy.trim_merge_dry_run (Toy.start Toy.machine)))) = []
  /\ Forall is_dry (log (snd (main Toy.trim_merge_dry_run (Toy.start Toy.machine)))).
Proof.
  split; [reflexivity|]. split; [vm_compute; reflexivity|].
  destruct (@dry_run_effects Toy.lib Toy.sys Toy.trim_merge_dry_run
              (Toy.start Toy.machine) _ _ eq_refl (surjective_pairing _))
    as (evs & Hlog & Hs & Hd & _).
  rewrite Hlog. cbn [log Toy.start app]. now split.
Defined.

Lemma assembly_invocation_witness :
  exists evs,
    log (snd (main_assemble Toy.merge_only_run1
                (planned_run Toy.merge_only_run1 (lit "run1"))
                (snd (main_resolve Toy.merge_only_run1 (Toy.start Toy.machine)))))
    = log (snd (main_resolve Toy.merge_only_run1 (Toy.start Toy.machine))) ++ evs
    /\ spawns evs
       = [([lit "/opt/bin/python3"; lit "/opt/bin/AssemblePairs.py"; lit "align";
            lit "-1"; lit "/data/s1_R2.fastq"; lit "-2"; lit "/data/s1_R1.fastq";
            lit "--coord"; lit "illumina"; lit "--rc"; lit "tail";
            lit "--outname";
            lit "/data/s1_withoutTrim_run1/s1_withoutTrim_run1_presto";
            lit "--log";
            lit "/data/s1_withoutTrim_run1/s1_withoutTrim_run1_AP_align.log"],
           Some (lit "/data/s1_withoutTrim_run1"))].
Proof.
  destruct (@assembly_invocation Toy.lib Toy.sys Toy.merge_only_run1
              (planned_run Toy.merge_only_run1 (lit "run1"))
              (snd (main_resolve Toy.merge_only_run1 (Toy.start Toy.machine)))
              _ _ (surjective_pairing _))
    as (evs & Hlog & _).
  exists evs. split; [exact Hlog|].
  assert (spawns (log (snd (main_resolve Toy.merge_only_run1 (Toy.start Toy.machine)))
                  ++ evs)
          = spawns (log (snd (main_assemble Toy.merge_only_run1
                               (planned_run Toy.merge_only_run1 (lit "run1"))
                               (snd (main_resolve Toy.merge_only_run1
                                       (Toy.start Toy.machine)))))))
    as H by now rewrite Hlog.
  rewrite spawns_app in H.
  replace (spawns (log (snd (main_resolve Toy.merge_only_run1 (Toy.start Toy.machine)))))
    with (@nil (list str * option str)) in H by (vm_compute; reflexivity).
  cbn [app] in H. rewrite H. vm_compute. reflexivity.
Defined.

(** * Further properties *)

(** ** The run identifier *)

Lemma validate_run_id_none (run_id : str) :
  validate_run_id run_id = None <->
  forall c, In c run_id -> ~ In c INVALID_RUN_ID_CHARS.
Proof.
  unfold validate_run_id.
  destruct (existsb (fun ch => Py.contains INVALID_RUN_ID_CHARS [ch]) run_id) eqn:E.
  - split; [discriminate|]. intros H. exfalso.
    apply existsb_exists in E as (c & Hin & Hc).
    apply (H c Hin). now apply PyFacts.contains_single.
  - split; [|reflexivity]. intros _ c Hin Hbad.
    assert (existsb (fun ch => Py.contains INVALID_RUN_ID_CHARS [ch]) run_id = true)
      as E' by (apply existsb_exists; exists c; split;
                [exact Hin | now apply PyFacts.contains_single]).
    rewrite E in E'. discriminate.
Qed.

(** X1: [validate_run_id] accepts a run identifier exactly when none of its
    characters is among the nine invalid ones; every refusal is the same
    [ValueError]; and stripping the identifier, as [main] does, never
    changes the verdict, so the empty identifier is accepted. *)
Theorem validate_run_id_verdict (run_id : str) :
  (validate_run_id run_id = None <->
   forall c, In c run_id -> ~ In c INVALID_RUN_ID_CHARS)
  /\ (validate_run_id run_id = None \/
      validate_run_id run_id =
      Some (ValueError (lit "--run-id contains invalid characters: "
                        ++ INVALID_RUN_ID_CHARS)))
  /\ validate_run_id (Py.strip run_id) = validate_run_id run_id
  /\ validate_run_id [] = None.
Proof.
  split; [apply validate_run_id_none|]. split; [|split; [|reflexivity]].
  - unfold validate_run_id.
    destruct (existsb _ run_id); [now right | now left].
  - destruct (validate_run_id run_id) as [e|] eqn:E.
    + unfold validate_run_id in E.
      destruct (existsb (fun ch => Py.contains INVALID_RUN_ID_CHARS [ch]) run_id)
        eqn:Ex; [|discriminate].
      injection E as <-. now apply validate_run_id_invalid.
    + apply validate_run_id_none. intros c Hin.
      apply (proj1 (validate_run_id_none run_id) E c). now apply strip_incl.
Qed.

(** ** Prefix inference, further *)

Lemma prefix_of_str_trans (a b c : str) :
  prefix_of_str a b -> prefix_of_str b c -> prefix_of_str a c.
Proof. intros [r1 ->] [r2 ->]. exists (r1 ++ r2). now rewrite app_assoc. Qed.

Lemma prefix_of_str_refl (a : str) : prefix_of_str a a.
Proof. exists []. now rewrite app_nil_r. Qed.

Lemma slice_to_neg_prefix (s : str) (k : nat) : prefix_of_str (Py.slice_to_neg s k) s.
Proof.
  unfold Py.slice_to_neg. destruct k; [now exists s|].
  exists (skipn (length s - S k) s). symmetry. apply firstn_skipn.
Qed.

Lemma strip_first_suffix_prefix (suffixes : list str) (name : str) :
  prefix_of_str (strip_first_suffix suffixes name) name.
Proof.
  induction suffixes as [|x l IH]; simpl; [apply prefix_of_str_refl|].
  destruct (Py.endswith name x); [apply slice_to_neg_prefix | exact IH].
Qed.

Lemma strip_first_marker_prefix (markers : list str) (name p : str) :
  strip_first_marker markers name = Some p -> prefix_of_str p name.
Proof.
  induction markers as [|x l IH]; simpl; [discriminate|].
  destruct (Py.endswith name x); [|exact IH].
  intros H. injection H as <-. apply slice_to_neg_prefix.
Qed.

(** X2: whatever the file name, [infer_prefix] returns a prefix of it: the
    inference only cuts the name short and never adds or changes a
    character. *)
Theorem infer_prefix_is_prefix {L : PyLib} (r1_path : Path) :
  prefix_of_str (infer_prefix r1_path) (path_name r1_path).
Proof.
  unfold infer_prefix, infer_prefix_of_name.
  apply prefix_of_str_trans with (b := strip_first_suffix FASTQ_SUFFIXES (path_name r1_path));
    [|apply strip_first_suffix_prefix].
  set (stem := strip_first_suffix FASTQ_SUFFIXES (path_name r1_path)).
  destruct (strip_first_marker R1_MARKERS stem) as [p|] eqn:Em.
  - now apply (strip_first_marker_prefix R1_MARKERS).
  - destruct (Py.contains stem (lit "_R1_")) eqn:Ec; [|apply prefix_of_str_refl].
    destruct (split_from_first (lit "_R1_") stem ltac:(discriminate) Ec [])
      as (pre & Hhd & [post Hocc] & _).
    unfold Py.split. rewrite Hhd. simpl. now exists (lit "_R1_" ++ post).
Qed.

Lemma marker_ends_no_suffix (base marker suffix : str) :
  In marker R1_MARKERS -> In suffix FASTQ_SUFFIXES ->
  Py.endswith (base ++ marker) suffix = false.
Proof.
  unfold R1_MARKERS, FASTQ_SUFFIXES. cbn [In].
  intros [<- | [<- | [<- | [<- | []]]]] [<- | [<- | [<- | [<- | []]]]];
    endswith_miss.
Qed.

(** X3: a name that ends in one of the four R1 markers and carries no FASTQ
    suffix at all loses the marker all the same: the marker is cut whether
    or not a suffix was cut before it. *)
Theorem infer_prefix_without_suffix {L : PyLib} (r1_path : Path) (base marker : str) :
  In marker R1_MARKERS ->
  path_name r1_path = base ++ marker ->
  infer_prefix r1_path = base.
Proof.
  intros Hm Hn. unfold infer_prefix, infer_prefix_of_name. rewrite Hn.
  rewrite strip_first_suffix_miss
    by (intros suffix Hs; now apply marker_ends_no_suffix).
  now rewrite (strip_first_marker_hit _ _ Hm).
Qed.

Lemma infer_prefix_without_suffix_witness :
  @infer_prefix Toy.lib (lit "/data/s1-R1") = lit "s1".
Proof.
  apply (@infer_prefix_without_suffix Toy.lib (lit "/data/s1-R1") (lit "s1") (lit "-R1")).
  - right. right. left. reflexivity.
  - reflexivity.
Defined.

(** ** Mode labels, further *)

(** X4: for one sample prefix, the name of the run directory tells the
    mode and the run identifier apart: two runs in modes that [--mode]
    admits get the same name only when both the mode and the run identifier
    are the same, since no label is the start of another one followed by an
    underscore. *)
Theorem run_dir_name_separates_runs (prefix mode1 rid1 mode2 rid2 : str) :
  In mode1 MODE_CHOICES -> In mode2 MODE_CHOICES ->
  run_dir_name prefix mode1 rid1 = run_dir_name prefix mode2 rid2 ->
  mode1 = mode2 /\ rid1 = rid2.
Proof.
  intros H1 H2 H. unfold run_dir_name in H.
  do 2 apply app_inv_head in H.
  unfold MODE_CHOICES in H1, H2. cbn [In] in H1, H2.
  destruct H1 as [<- | [<- | [<- | []]]]; destruct H2 as [<- | [<- | [<- | []]]];
    cbv in H; try discriminate H;
    (split; [reflexivity|]); repeat (injection H as H); exact H.
Qed.

Lemma run_dir_name_separates_runs_witness :
  lit "merge-only" = lit "merge-only" /\ lit "run1" = lit "run1".
Proof.
  apply (run_dir_name_separates_runs (lit "s1")).
  - left. reflexivity.
  - left. reflexivity.
  - reflexivity.
Defined.

(** ** FASTQ to FASTA, further *)

(** The header as the loop cuts it before it takes the first token. *)
Lemma fastq_to_fasta_text_unfold (fin : str) :
  fastq_to_fasta_text fin =
  match fst (readline fin) with
  | [] => {| written := []; raised := None |}
  | _ :: _ =>
      match fst (readline (skip_lines 3 fin)) with
      | [] => {| written := []; raised := Some TRUNCATED |}
      | _ :: _ =>
          let header := Py.strip (fst (readline fin)) in
          let header :=
            if Py.startswith header "@" then Py.slice_from_1 header
            else header in
          match Py.split_ws header with
          | [] => {| written := []; raised := Some IndexError |}
          | token :: _ =>
              prepend
                (fasta_record token (Py.strip (fst (readline (skip_lines 1 fin)))))
                (fastq_to_fasta_text (skip_lines 4 fin))
          end
      end
  end.
Proof.
  pose proof (convert_loop_total fin) as H.
  rewrite convert_loop_step in H. cbv zeta in H |- *.
  destruct (fst (readline fin)) as [|c header] eqn:Eh; [now injection H|].
  destruct (fst (readline (skip_lines 3 fin))); [now injection H|].
  destruct (Py.split_ws _) as [|token more]; [now injection H|].
  rewrite fastq_to_fasta_text_fuel in H
    by (apply record_consumed; rewrite Eh; discriminate).
  injection H as <-. f_equal. unfold fasta_record. cbn [app].
  now rewrite <- !app_assoc.
Qed.

Lemma strip_decompose (s : str) :
  exists ws1 ws2,
    s = ws1 ++ Py.strip s ++ ws2 /\ all_space ws1 /\ all_space ws2.
Proof.
  destruct (PyFacts.lstrip_decompose s) as [ws1 [H1 E1]].
  destruct (PyFacts.rstrip_decompose (Py.lstrip s)) as [ws2 [H2 E2]].
  exists ws1, ws2. unfold Py.strip. rewrite <- E2. auto.
Qed.

Lemma strip_app_space (s ws : str) :
  all_space ws -> Py.strip (s ++ ws) = Py.strip s.
Proof.
  intros H. destruct (strip_decompose s) as (ws1 & ws2 & E & H1 & H2).
  rewrite E at 1. rewrite <- !app_assoc.
  apply PyFacts.strip_core; [exact H1 | | apply PyFacts.strip_trimmed].
  apply Forall_app. now split.
Qed.

Lemma no_line_feed_strip (s : str) : no_line_feed s -> no_line_feed (Py.strip s).
Proof.
  intros H. apply Forall_forall. intros c Hc.
  apply strip_incl in Hc. revert c Hc. now apply Forall_forall.
Qed.

(** A line as [readline] returns it holds no line feed but its last
    character. *)
Lemma readline_body (fin : str) :
  exists body,
    no_line_feed body /\
    (fst (readline fin) = body \/ fst (readline fin) = body ++ NL).
Proof.
  induction fin as [|c fin (body & Hb & IH)]; simpl.
  - exists []. split; [constructor | now left].
  - destruct (N.eqb c 10) eqn:E.
    + apply N.eqb_eq in E. subst c. exists []. split; [constructor | now right].
    + apply N.eqb_neq in E. exists (c :: body).
      split; [now constructor|].
      destruct (readline fin) as [line rest]. simpl in *.
      destruct IH as [-> | ->]; [now left | now right].
Qed.

Lemma strip_line_no_line_feed (fin : str) :
  no_line_feed (Py.strip (fst (readline fin))).
Proof.
  destruct (readline_body fin) as (body & Hb & [-> | ->]).
  - now apply no_line_feed_strip.
  - rewrite strip_app_space by (now repeat constructor).
    now apply no_line_feed_strip.
Qed.

(** Every item of [s.split()] is a run of characters without whitespace,
    and none is empty. *)
Lemma split_ws_from_items (s : str) :
  forall cur,
    no_space cur ->
    Forall (fun t => t <> [] /\ no_space t) (Py.split_ws_from cur s).
Proof.
  assert (forall cur, no_space cur -> cur <> [] -> rev cur <> [] /\ no_space (rev cur))
    as Hrev.
  { intros cur Hc Hne. split; [|now apply Forall_rev].
    intros E. apply Hne. rewrite <- (rev_involutive cur), E. reflexivity. }
  induction s as [|c s IH]; intros cur Hcur; simpl.
  - destruct cur as [|d cur]; constructor; [|constructor].
    now apply Hrev.
  - destruct (Py.is_space c) eqn:Ec.
    + destruct cur as [|d cur]; [apply IH; constructor|].
      constructor; [now apply Hrev | apply IH; constructor].
    + apply IH. now constructor.
Qed.

Lemma fasta_text_app (a b : str) :
  fasta_text a -> fasta_text b -> fasta_text (a ++ b).
Proof.
  induction 1 as [|token core rest Hne Hns Htr Hnl _ IH]; intros Hb; [exact Hb|].
  rewrite <- app_assoc. constructor; auto.
Qed.

(** X5: whatever the input text, garbage included, the conversion ends in
    one of three ways, normally, with the truncated-record error or with
    the [IndexError] of a header without token, and what it has written by
    then is a run of complete two-line FASTA records: [>] with a token that
    is not empty and holds no whitespace, then a sequence line without
    whitespace around it.  No partial record is ever written. *)
Theorem fastq_to_fasta_output_shape (fin : str) :
  fasta_text (written (fastq_to_fasta_text fin))
  /\ (raised (fastq_to_fasta_text fin) = None
      \/ raised (fastq_to_fasta_text fin) = Some TRUNCATED
      \/ raised (fastq_to_fasta_text fin) = Some IndexError).
Proof.
  remember (length fin) as n eqn:En. revert fin En.
  induction n as [n IH] using lt_wf_ind. intros fin En.
  rewrite fastq_to_fasta_text_unfold. cbv zeta.
  destruct (fst (readline fin)) as [|c header] eqn:Eh;
    [split; [constructor | now left]|].
  destruct (fst (readline (skip_lines 3 fin)));
    [split; [constructor | right; now left]|].
  rewrite <- Eh.
  set (hd := if Py.startswith (Py.strip (fst (readline fin))) (lit "@")
             then Py.slice_from_1 (Py.strip (fst (readline fin)))
             else Py.strip (fst (readline fin))).
  pose proof (split_ws_from_items hd [] ltac:(constructor)) as Hitems.
  fold (Py.split_ws hd) in Hitems.
  destruct (Py.split_ws hd) as [|token more];
    [split; [constructor | right; now right]|].
  inversion Hitems as [|? ? [Hne Hns] _]; subst.
  assert (length (skip_lines 4 fin) < length fin) as Hlt
    by (apply record_consumed; rewrite Eh; discriminate).
  destruct (IH _ Hlt (skip_lines 4 fin) eq_refl) as [Hw Hr].
  split; [|exact Hr]. cbn [prepend written].
  constructor; auto.
  - apply PyFacts.strip_trimmed.
  - apply strip_line_no_line_feed.
Qed.

(** A record whose lines end in a line feed, read by the loop. *)
Lemma fastq_record_unfold (h s p q rest : str) :
  no_line_feed h -> no_line_feed s -> no_line_feed p -> no_line_feed q ->
  fastq_to_fasta_text (fastq_record h s p q ++ rest) =
  let header := Py.strip (h ++ NL) in
  let header :=
    if Py.startswith header "@" then Py.slice_from_1 header else header in
  match Py.split_ws header with
  | [] => {| written := []; raised := Some IndexError |}
  | token :: _ =>
      prepend (fasta_record token (Py.strip (s ++ NL))) (fastq_to_fasta_text rest)
  end.
Proof.
  intros Hh Hs Hp Hq. rewrite fastq_to_fasta_text_unfold.
  assert (fastq_record h s p q ++ rest =
          h ++ NL ++ s ++ NL ++ p ++ NL ++ q ++ NL ++ rest) as ->
    by (unfold fastq_record; now rewrite <- !app_assoc).
  cbn [skip_lines].
  rewrite (readline_line h _ Hh). cbn [fst snd].
  rewrite (readline_line s _ Hs). cbn [fst snd].
  rewrite (readline_line p _ Hp). cbn [fst snd].
  rewrite (readline_line q _ Hq). cbn [fst snd].
  destruct (h ++ NL) as [|c0 hl] eqn:Eh; [now destruct h|]. rewrite <- Eh.
  destruct (q ++ NL) as [|c1 ql] eqn:Eq; [now destruct q|].
  reflexivity.
Qed.

(** X6: the converter never looks into the third and fourth line of a
    record: two inputs that differ only there, whatever these lines hold
    (the separator need not be a plus sign, the quality line need not be as
    long as the sequence and may be empty), are converted alike. *)
Theorem fastq_to_fasta_ignores_quality (h s p q p' q' rest : str) :
  no_line_feed h -> no_line_feed s ->
  no_line_feed p -> no_line_feed q -> no_line_feed p' -> no_line_feed q' ->
  fastq_to_fasta_text (fastq_record h s p q ++ rest) =
  fastq_to_fasta_text (fastq_record h s p' q' ++ rest).
Proof.
  intros Hh Hs Hp Hq Hp' Hq'.
  rewrite (fastq_record_unfold h s p q rest), (fastq_record_unfold h s p' q' rest);
    auto.
Qed.

Lemma fastq_to_fasta_ignores_quality_witness :
  fastq_to_fasta_text (fastq_record "@r1" "ACGT" "+" "IIII" ++ lit "@r2")
  = fastq_to_fasta_text (fastq_record "@r1" "ACGT" "not a plus" [] ++ lit "@r2").
Proof.
  apply (fastq_to_fasta_ignores_quality
           (lit "@r1") (lit "ACGT") (lit "+") (lit "IIII") (lit "not a plus") []
           (lit "@r2"));
    repeat constructor; discriminate.
Defined.

(** A run of records that ends in a line feed can be followed by more
    input. *)
Lemma records_then_app_tail (a out tail : str) :
  records_then a out tail ->
  tail = [] ->
  a = [] \/ (exists a', a = a' ++ NL) ->
  forall b, records_then (a ++ b) out b.
Proof.
  intros H.
  induction H as [tail | h s p q token core rest out tail Hh Hs Hp Hq Ht Hc Hrest IH
                 | h s p q token core Hh Hs Hp Hq Hne Ht Hc];
    intros Et Hend b.
  - subst tail. apply rt_done.
  - rewrite <- app_assoc. apply rt_record; auto.
    apply IH; [exact Et|].
    destruct rest as [|c rest']; [now left|]. right.
    destruct Hend as [E | [a' E]];
      [apply (f_equal (@length _)) in E; unfold fastq_record in E;
       rewrite !length_app in E; simpl in E; lia|].
    destruct (exists_last (l := c :: rest') ltac:(discriminate)) as (r0 & d & Er).
    exists r0. rewrite Er in E |- *.
    unfold fastq_record in E. rewrite <- !app_assoc in E.
    rewrite !app_assoc in E. apply app_inj_tail in E as [_ ->]. reflexivity.
  - exfalso. destruct Hend as [E | [a' E]];
      [apply (f_equal (@length _)) in E; rewrite !length_app in E; simpl in E; lia|].
    destruct (exists_last Hne) as (q0 & d & Eq).
    rewrite Eq in E. rewrite !app_assoc in E.
    apply app_inj_tail in E as [_ ->].
    rewrite Eq in Hq. apply Forall_app in Hq as [_ Hq].
    inversion Hq as [|? ? Hd _]. now apply Hd.
Qed.

Lemma records_then_app (a out : str) :
  records_then a out [] ->
  a = [] \/ (exists a', a = a' ++ NL) ->
  forall b, records_then (a ++ b) out b.
Proof. intros H. now apply (@records_then_app_tail a out [] H). Qed.

(** X7: converting a concatenation.  When [a] is a run of complete records
    with header tokens that is empty or ends in a line feed, converting [a]
    followed by any text [b] writes the FASTA text of [a] and then goes on
    exactly as the conversion of [b] alone: the same further output and the
    same way to end. *)
Theorem fastq_to_fasta_concat (a out b : str) :
  records_then a out [] ->
  a = [] \/ (exists a', a = a' ++ NL) ->
  fastq_to_fasta_text (a ++ b) = prepend out (fastq_to_fasta_text b).
Proof.
  intros H Hend. apply records_then_converted. now apply records_then_app.
Qed.

Lemma one_record_then :
  records_then (fastq_record "@r1 x" "ACGT" "+" "IIII") (fasta_record "r1" "ACGT") [].
Proof.
  rewrite <- (app_nil_r (fastq_record _ _ _ _)), <- (app_nil_r (fasta_record _ _)).
  apply rt_record.
  - repeat constructor; discriminate.
  - repeat constructor; discriminate.
  - repeat constructor; discriminate.
  - repeat constructor; discriminate.
  - exists [], [at_sign], [], (lit " x"). repeat split.
    + constructor.
    + constructor.
    + now left.
    + discriminate.
    + repeat constructor.
  - exists [], []. repeat split; constructor.
  - apply rt_done.
Qed.

Lemma fastq_to_fasta_concat_witness :
  fastq_to_fasta_text (fastq_record "@r1 x" "ACGT" "+" "IIII" ++ lit "@r2")
  = {| written := fasta_record "r1" "ACGT"; raised := Some TRUNCATED |}.
Proof.
  rewrite (fastq_to_fasta_concat
             (fastq_record "@r1 x" "ACGT" "+" "IIII") (fasta_record "r1" "ACGT")
             (lit "@r2") one_record_then
             (or_intror (ex_intro _ (lit "@r1 x" ++ NL ++ lit "ACGT" ++ NL ++ lit "+"
                                     ++ NL ++ lit "IIII") eq_refl))).
  reflexivity.
Defined.

(** X8: a blank line after the last record is not forgiven.  When the
    input is a run of complete records followed by one more line feed, or
    the line feed alone, every record is written and the conversion then
    ends in the truncated-record error: the blank line is read as the
    header of a record that has no quality line. *)
Theorem fastq_to_fasta_trailing_blank_line (a out : str) :
  records_then a out [] ->
  a = [] \/ (exists a', a = a' ++ NL) ->
  fastq_to_fasta_text (a ++ NL) = {| written := out; raised := Some TRUNCATED |}.
Proof.
  intros H Hend.
  rewrite (records_then_converted _ _ _ (records_then_app a out H Hend NL)).
  rewrite (fastq_truncated NL) by (split; [discriminate | reflexivity]).
  unfold prepend. simpl. now rewrite app_nil_r.
Qed.

Lemma fastq_to_fasta_trailing_blank_line_witness :
  fastq_to_fasta_text (fastq_record "@r1 x" "ACGT" "+" "IIII" ++ NL)
  = {| written := fasta_record "r1" "ACGT"; raised := Some TRUNCATED |}.
Proof.
  apply (fastq_to_fasta_trailing_blank_line
           (fastq_record "@r1 x" "ACGT" "+" "IIII") (fasta_record "r1" "ACGT")
           one_record_then).
  right. exists (lit "@r1 x" ++ NL ++ lit "ACGT" ++ NL ++ lit "+" ++ NL ++ lit "IIII").
  reflexivity.
Defined.

(** ** The pipeline, further *)

Section FurtherPipeline.

Context {L : PyLib} {Sy : System L}.

Lemma stdout_lines_app (a b : list event) :
  stdout_lines (a ++ b) = stdout_lines a ++ stdout_lines b.
Proof.
  induction a as [|ev a IH]; [reflexivity|].
  destruct ev; simpl; now rewrite IH.
Qed.

Lemma stderr_lines_app (a b : list event) :
  stderr_lines (a ++ b) = stderr_lines a ++ stderr_lines b.
Proof.
  induction a as [|ev a IH]; [reflexivity|].
  destruct ev; simpl; now rewrite IH.
Qed.

Lemma reads_app (a b : list event) : reads (a ++ b) = reads a ++ reads b.
Proof.
  induction a as [|ev a IH]; [reflexivity|].
  destruct ev; simpl; now rewrite IH.
Qed.

Lemma writes_app (a b : list event) : writes (a ++ b) = writes a ++ writes b.
Proof.
  induction a as [|ev a IH]; [reflexivity|].
  destruct ev; simpl; now rewrite IH.
Qed.

Lemma silent_nil : silent [].
Proof. repeat split. Qed.

Lemma silent_app (a b : list event) : silent a -> silent b -> silent (a ++ b).
Proof.
  intros (A1 & A2 & A3 & A4 & A5) (B1 & B2 & B3 & B4 & B5). unfold silent.
  rewrite mkdirs_app, stdout_lines_app, stderr_lines_app, reads_app, writes_app.
  rewrite A1, A2, A3, A4, A5, B1, B2, B3, B4, B5. repeat split.
Qed.

Lemma silent_exists (evs : list event) : Forall is_exists evs -> silent evs.
Proof.
  induction 1 as [|ev evs Hev _ IH]; [apply silent_nil|].
  destruct ev; try contradiction. exact IH.
Qed.

Lemma silent_command (cmd : list str) (cwd : option str) (dry_run : bool) :
  silent (command_events cmd cwd dry_run).
Proof. destruct dry_run; repeat split. Qed.

Lemma commanded_silent cmd cwd dry_run (st : state) r w evs :
  commanded cmd cwd dry_run st r w evs -> silent evs.
Proof.
  intros H. rewrite (commanded_events _ _ _ _ _ _ _ H). apply silent_command.
Qed.

Lemma assembled_reads_silent (args : Args) (run : Run) (st : state) r w evs :
  assembled_reads args run st r w evs -> silent evs.
Proof.
  intros H. inversion H as [msg checks Hc | script checks r0 w0 evs0 Hc Hcmd]; subst.
  - now apply silent_exists.
  - apply silent_app; [now apply silent_exists | exact (commanded_silent _ _ _ _ _ _ _ Hcmd)].
Qed.

Lemma assembled_silent (args : Args) (run : Run) (st : state) r w evs :
  assembled args run st r w evs -> silent evs.
Proof.
  intros H.
  inversion H as [ca e w0 evs0 Hm Hcmd | ca w1 evs1 r0 w0 evs0 Hm Hcmd Hr
                 | r0 w0 evs0 Hm Hr]; subst.
  - exact (commanded_silent _ _ _ _ _ _ _ Hcmd).
  - apply silent_app;
      [exact (commanded_silent _ _ _ _ _ _ _ Hcmd)
      | exact (assembled_reads_silent _ _ _ _ _ _ Hr)].
  - exact (assembled_reads_silent _ _ _ _ _ _ Hr).
Qed.

(** The events of a check that passes are silent. *)
Lemma checked_normal_silent (p : Path) code msg dry_run (st : state) w evs :
  checked p code msg dry_run st (Normal tt) w evs ->
  silent evs /\ echoes evs = [] /\ w = world st /\
  evs = if dry_run then [] else [EvExists p].
Proof.
  intros H. inversion H as [Hd | Hd Hex | Hd Hex]; subst; repeat split.
Qed.

Lemma checked_return (p : Path) code code' msg dry_run (st : state) w evs :
  checked p code msg dry_run st (Return code') w evs ->
  code' = code /\ dry_run = false /\ w = world st /\
  fs_exists (world st) p = false /\ evs = [EvExists p; EvStderr msg].
Proof.
  intros H. inversion H as [Hd | Hd Hex | Hd Hex]; subst. repeat split. exact Hex.
Qed.

(** What [fastq_to_fasta] opens. *)
Lemma fastq_to_fasta_opens (in_path out_path : Path) (st : state) r w evs :
  fastq_to_fasta in_path out_path st = (r, after st w evs) ->
  (r = Normal tt -> evs = [EvOpenRead in_path; EvOpenWrite out_path])
  /\ reads evs = [in_path]
  /\ (writes evs = [] \/ writes evs = [out_path])
  /\ mkdirs evs = [] /\ stdout_lines evs = [] /\ stderr_lines evs = []
  /\ echoes evs = [] /\ spawns evs = [].
Proof.
  unfold fastq_to_fasta, bind, emit, ask, raise, after. cbn [world log].
  destruct (fs_read_text (world st) in_path _) as [fin|].
  - cbn [world log].
    destruct (fs_create (world st) out_path) as [w1|].
    + destruct (raised (fastq_to_fasta_text fin)) as [e|]; intros H;
        injection H as <- _ Hlog; rewrite <- app_assoc in Hlog;
        apply app_inv_head in Hlog; subst evs;
        (repeat split; try discriminate; auto).
    + intros H. injection H as <- _ Hlog. rewrite <- app_assoc in Hlog.
      apply app_inv_head in Hlog. subst evs.
      repeat split; try discriminate; auto.
  - intros H. injection H as <- _ Hlog. apply app_inv_head in Hlog. subst evs.
    repeat split; try discriminate; auto.
Qed.

(** The ways [main_convert] can end, in what it prints and opens. *)
Lemma reported_summary (args : Args) (run : Run) (src : Path) (st : state) r w evs :
  reported args run src st r w evs ->
  mkdirs evs = [] /\ stderr_lines evs = [] /\ echoes evs = [] /\ spawns evs = [] /\
  ((r = Return 0 /\
    stdout_lines evs =
      (if a_dry_run args then [dry_conversion_line src] else [])
      ++ stdout_lines (closing_report run src) /\
    reads evs = (if a_dry_run args then [] else [src]) /\
    writes evs = (if a_dry_run args then [] else [path_with_suffix src ".fasta"]) /\
    (a_dry_run args = true -> w = world st))
   \/ (exists e, r = Raise e /\ a_dry_run args = false /\ stdout_lines evs = [])).
Proof.
  intros H. inversion H as [Hd | w0 evs0 Hd Hrun Hconv | e w0 evs0 Hd Hrun Hconv]; subst.
  - rewrite Hd. repeat split. left. repeat split.
  - destruct (fastq_to_fasta_opens _ _ _ _ _ _ Hrun)
      as (Hevs & _ & _ & _ & _ & _ & _ & _).
    rewrite (Hevs eq_refl), Hd. repeat split. left. repeat split.
    intros; discriminate.
  - destruct (fastq_to_fasta_opens _ _ _ _ _ _ Hrun)
      as (_ & _ & _ & Hm & Ho & He & Hec & Hsp).
    repeat split; auto. right. exists e. repeat split; auto.
Qed.

(** The ways [main_post_trim] can end. *)
Lemma post_trimmed_summary (args : Args) (run : Run) (st : state) r w evs :
  post_trimmed args run st r w evs ->
  mkdirs evs = [] /\ stdout_lines evs = [] /\ reads evs = [] /\ writes evs = [] /\
  ((exists src, r = Normal src /\ src = fasta_source_of args run /\
                stderr_lines evs = [] /\
                (a_dry_run args = true -> w = world st))
   \/ (exists e, r = Raise e /\ stderr_lines evs = [])
   \/ (r = Return 4 /\ Py.str_eqb (a_mode args) "merge-trim" = true /\
       exists cutadapt,
         evs = command_events (single_trim_cmd args run cutadapt) None (a_dry_run args)
               ++ [EvExists (merge_then_trim_fastq run); EvStderr (trim_missing run)])).
Proof.
  intros H.
  inversion H as [Hm | ca e w0 evs0 Hm Hcmd | ca w1 evs1 w0 evs0 Hm Hcmd Hchk
                 | ca w1 evs1 w0 evs0 Hm Hcmd Hchk]; subst.
  - repeat split. left. exists (assemble_pass run). unfold fasta_source_of.
    rewrite Hm. repeat split.
  - destruct (commanded_silent _ _ _ _ _ _ _ Hcmd) as (S1 & S2 & S3 & S4 & S5).
    repeat split; auto. right. left. now exists e.
  - destruct (commanded_silent _ _ _ _ _ _ _ Hcmd) as (S1 & S2 & S3 & S4 & S5).
    destruct (checked_normal_silent _ _ _ _ _ _ _ Hchk)
      as ((T1 & T2 & T3 & T4 & T5) & _ & Hw & _).
    rewrite mkdirs_app, stdout_lines_app, reads_app, writes_app, stderr_lines_app.
    rewrite S1, S2, S3, S4, S5, T1, T2, T3, T4, T5.
    repeat split. left. exists (merge_then_trim_fastq run). unfold fasta_source_of.
    rewrite Hm. repeat split.
    intros Hd. rewrite Hw. cbn [world after]. rewrite Hd in Hcmd.
    now apply commanded_dry_run in Hcmd.
  - destruct (commanded_silent _ _ _ _ _ _ _ Hcmd) as (S1 & S2 & S3 & S4 & S5).
    destruct (checked_return _ _ _ _ _ _ _ _ Hchk) as (_ & _ & _ & _ & ->).
    rewrite mkdirs_app, stdout_lines_app, reads_app, writes_app.
    rewrite S1, S2, S4, S5. repeat split. right. right. repeat split; auto.
    exists ca. now rewrite (commanded_events _ _ _ _ _ _ _ Hcmd).
Qed.

(** The ways [main_finish] can end. *)
Lemma finished_summary (args : Args) (run : Run) (st : state) r w evs :
  finished args run st r w evs ->
  mkdirs evs = [] /\
  ((r = Return 0 /\
    stderr_lines evs = [] /\
    stdout_lines evs =
      (if a_dry_run args then [dry_conversion_line (fasta_source_of args run)] else [])
      ++ stdout_lines (closing_report run (fasta_source_of args run)) /\
    reads evs = (if a_dry_run args then [] else [fasta_source_of args run]) /\
    writes evs =
      (if a_dry_run args then []
       else [path_with_suffix (fasta_source_of args run) ".fasta"]) /\
    (a_dry_run args = true -> w = world st))
   \/ (r = Return 3 /\
       evs = [EvExists (assemble_pass run); EvStderr (assembly_missing run)])
   \/ (r = Return 4 /\ Py.str_eqb (a_mode args) "merge-trim" = true /\
       exists cutadapt,
         evs = (EvExists (assemble_pass run)
                :: command_events (single_trim_cmd args run cutadapt) None
                     (a_dry_run args))
               ++ [EvExists (merge_then_trim_fastq run); EvStderr (trim_missing run)])
   \/ (exists e, r = Raise e /\ stdout_lines evs = [] /\ stderr_lines evs = [])).
Proof.
  intros H.
  inversion H as [w0 evs0 Hchk | w1 evs1 e w0 evs0 Hchk Hpost
                 | w1 evs1 w0 evs0 Hchk Hpost
                 | w1 evs1 src w2 evs2 r0 w0 evs0 Hchk Hpost Hrep]; subst.
  - destruct (checked_return _ _ _ _ _ _ _ _ Hchk) as (_ & _ & _ & _ & ->).
    split; [reflexivity|]. right. left. now split.
  - destruct (checked_normal_silent _ _ _ _ _ _ _ Hchk)
      as ((T1 & T2 & T3 & T4 & T5) & _ & Hw & _).
    destruct (post_trimmed_summary _ _ _ _ _ _ Hpost)
      as (P1 & P2 & P3 & P4 & [(src & E & _) | [(e' & E & P5) | (E & _)]]);
      try discriminate.
    rewrite mkdirs_app, T1, P1. split; [reflexivity|]. right. right. right.
    exists e. rewrite stdout_lines_app, stderr_lines_app, T2, T3, P2, P5. now repeat split.
  - destruct (checked_normal_silent _ _ _ _ _ _ _ Hchk)
      as ((T1 & T2 & T3 & T4 & T5) & _ & Hw & Hevs1).
    destruct (post_trimmed_summary _ _ _ _ _ _ Hpost)
      as (P1 & P2 & P3 & P4 & [(src & E & _) | [(e' & E & P5) | (_ & Hm & ca & E)]]);
      try discriminate.
    rewrite mkdirs_app, T1, P1. split; [reflexivity|]. right. right. left.
    split; [reflexivity|]. split; [exact Hm|]. exists ca.
    assert (a_dry_run args = false) as Hd.
    { inversion Hpost as [| | |ca' w1' evs1' w0' evs0' _ _ Hc]; subst.
      now destruct (checked_return _ _ _ _ _ _ _ _ Hc) as (_ & Hd & _). }
    rewrite Hevs1, E, Hd. reflexivity.
  - destruct (checked_normal_silent _ _ _ _ _ _ _ Hchk)
      as ((T1 & T2 & T3 & T4 & T5) & _ & Hw & _).
    destruct (post_trimmed_summary _ _ _ _ _ _ Hpost)
      as (P1 & P2 & P3 & P4 & [(src' & E & Hsrc & P5 & Hpw) | [(e' & E & _) | (E & _)]]);
      try discriminate.
    injection E as <-. subst src.
    destruct (reported_summary _ _ _ _ _ _ _ Hrep)
      as (R1 & R2 & _ & _ & [(-> & R3 & R4 & R5 & Rw) | (e & -> & _ & R3)]).
    + rewrite !mkdirs_app, T1, P1, R1. split; [reflexivity|]. left.
      rewrite !stderr_lines_app, !stdout_lines_app, !reads_app, !writes_app.
      rewrite T2, T3, T4, T5, P2, P3, P4, P5, R2, R3, R4, R5. repeat split.
      intros Hd. rewrite (Rw Hd). cbn [world after]. rewrite (Hpw Hd).
      cbn [world after]. exact Hw.
    + rewrite !mkdirs_app, T1, P1, R1. split; [reflexivity|]. right. right. right.
      exists e. rewrite !stderr_lines_app, !stdout_lines_app.
      rewrite T2, T3, P2, P5, R2, R3. now repeat split.
Qed.

(** The ways [main_resolve] can end, in what it prints and opens. *)
Lemma resolved_summary (args : Args) (st : state) r w evs :
  resolved args st r w evs ->
  stdout_lines evs = [] /\ reads evs = [] /\ writes evs = [] /\
  ((r = Return 2 /\ mkdirs evs = [] /\
    ((fs_exists (world st) (path_of (a_r1 args)) = false /\
      stderr_lines evs = [lit "R1 not found: " ++ path_str (path_of (a_r1 args))]) \/
     (fs_exists (world st) (path_of (a_r1 args)) = true /\
      stderr_lines evs = [lit "R2 not found: " ++ path_str (path_of (a_r2 args))])))
   \/ (exists e, r = Raise e /\ stderr_lines evs = [])
   \/ (exists run, r = Normal run /\ stderr_lines evs = [])).
Proof.
  intros H. inversion H; subst; repeat split.
  - left. repeat split. left. now split.
  - left. repeat split. right. now split.
  - right. left. now exists OSError.
  - right. left. now exists e.
  - right. left. now exists OSError.
  - right. left. now exists OSError.
  - right. right. now eexists.
Qed.

(** X9: apart from the echoed command lines, [main] prints on the standard
    output only when it returns 0, and then exactly the closing report:
    [Done.], the run directory, the merged FASTQ that was converted (the
    trimmed one in mode [merge-trim], the pass output of the assembly
    otherwise), the FASTA file and the log, preceded in a dry run by the
    line that stands for the conversion.  A run that ends in any other way
    prints none of these lines. *)
Theorem report_only_on_success (args : Args) (st : state) r st' :
  main args st = (r, st') ->
  exists evs,
    log st' = log st ++ evs /\
    ((r = Return 0 /\
      exists w1,
        let run := planned_run args (run_id_of args w1) in
        let src := fasta_source_of args run in
        stdout_lines evs =
          (if a_dry_run args then [dry_conversion_line src] else []) ++
          [ lit "Done.";
            lit "output folder: " ++ path_str (run_dir run);
            lit "merged fastq: " ++ path_str src;
            lit "fasta: " ++ path_str (path_with_suffix src ".fasta");
            lit "log: " ++ path_str (log_path run) ])
     \/ (r <> Return 0 /\ stdout_lines evs = [])).
Proof.
  intros H. destruct (main_ran _ _ _ _ H) as (evs & Hlog & Hran).
  exists evs. split; [exact Hlog|].
  inversion Hran as [w evs0 Hres | e w evs0 Hres | run w1 evs1 e w evs0 Hres Hasm
                    | run w1 evs1 w2 evs2 r0 w evs0 Hres Hasm Hfin]; subst.
  - right. split; [discriminate|]. now destruct (resolved_summary _ _ _ _ _ Hres).
  - right. split; [discriminate|]. now destruct (resolved_summary _ _ _ _ _ Hres).
  - right. split; [discriminate|].
    destruct (resolved_summary _ _ _ _ _ Hres) as (R1 & _).
    destruct (assembled_silent _ _ _ _ _ _ Hasm) as (_ & A2 & _).
    now rewrite stdout_lines_app, R1, A2.
  - destruct (resolved_summary _ _ _ _ _ Hres) as (R1 & _).
    destruct (assembled_silent _ _ _ _ _ _ Hasm) as (_ & A2 & _).
    destruct (resolved_run_planned _ _ _ _ _ Hres) as (w0 & Hrun & _).
    rewrite !stdout_lines_app, R1, A2. cbn [app].
    destruct (finished_summary _ _ _ _ _ _ Hfin)
      as (_ & [(-> & _ & F & _) | [(-> & ->) | [(-> & _ & ca & ->) | (e & -> & F & _)]]]).
    + left. split; [reflexivity|]. exists w0. cbv zeta. rewrite <- Hrun. exact F.
    + right. split; [discriminate | reflexivity].
    + right. split; [discriminate|].
      cbn [app stdout_lines]. rewrite stdout_lines_app.
      destruct (silent_command (single_trim_cmd args run ca) None (a_dry_run args))
        as (_ & -> & _). reflexivity.
    + right. split; [discriminate | exact F].
Qed.


(** X11: the only files [main] itself opens are those of the conversion,
    and only after every check has passed.  A run that returns 0 outside a
    dry run opens exactly one file for reading, the trimmed merged reads in
    mode [merge-trim] and the pass output of the assembly in the other
    modes, and exactly one for writing, the same path with the suffix
    [.fasta]; a run that returns 2, 3 or 4, and any dry run that returns 0,
    opens none. *)
Theorem conversion_files (args : Args) (st : state) r st' :
  main args st = (r, st') ->
  exists evs,
    log st' = log st ++ evs /\
    (r = Return 0 ->
       exists w1,
         let run := planned_run args (run_id_of args w1) in
         let src := if Py.str_eqb (a_mode args) "merge-trim"
                    then merge_then_trim_fastq run else assemble_pass run in
         reads evs = (if a_dry_run args then [] else [src]) /\
         writes evs =
           (if a_dry_run args then [] else [path_with_suffix src ".fasta"])) /\
    (r = Return 2 \/ r = Return 3 \/ r = Return 4 ->
       reads evs = [] /\ writes evs = []).
Proof.
  intros H. destruct (main_ran _ _ _ _ H) as (evs & Hlog & Hran).
  exists evs. split; [exact Hlog|].
  inversion Hran as [w evs0 Hres | e w evs0 Hres | run w1 evs1 e w evs0 Hres Hasm
                    | run w1 evs1 w2 evs2 r0 w evs0 Hres Hasm Hfin]; subst.
  - destruct (resolved_summary _ _ _ _ _ Hres) as (_ & R2 & R3 & _).
    split; [discriminate | now intros _].
  - split; [discriminate | intros [E | [E | E]]; discriminate].
  - split; [discriminate | intros [E | [E | E]]; discriminate].
  - destruct (resolved_summary _ _ _ _ _ Hres) as (_ & R2 & R3 & _).
    destruct (assembled_silent _ _ _ _ _ _ Hasm) as (_ & _ & _ & A4 & A5).
    destruct (resolved_run_planned _ _ _ _ _ Hres) as (w0 & Hrun & _).
    rewrite !reads_app, !writes_app, R2, R3, A4, A5. cbn [app].
    destruct (finished_summary _ _ _ _ _ _ Hfin)
      as (_ & [(-> & _ & _ & F4 & F5 & _)
              | [(-> & ->) | [(-> & _ & ca & ->) | (e & -> & _)]]]).
    + split; [|intros [E | [E | E]]; discriminate].
      intros _. exists w0. cbv zeta. rewrite <- Hrun. now split.
    + split; [discriminate | now intros _].
    + split; [discriminate|]. intros _.
      cbn [app reads writes]. rewrite reads_app, writes_app.
      now destruct (silent_command (single_trim_cmd args run ca) None (a_dry_run args))
        as (_ & _ & _ & -> & ->).
    + split; [discriminate | intros [E | [E | E]]; discriminate].
Qed.

(** X12: a dry run that returns 0 still creates directories, and does
    nothing else to the world: the world it leaves is the one reached from
    the initial world by the three [mkdir] calls, on the base output
    directory, the run directory and the parent of the assembly output
    name, in this order. *)
Theorem dry_run_creates_directories (args : Args) (st : state) st' :
  a_dry_run args = true ->
  main args st = (Return 0, st') ->
  exists w0 w1 w2,
    let run := planned_run args (run_id_of args w1) in
    fs_mkdir (world st) (base_outdir_of args) = Some w1 /\
    fs_mkdir w1 (run_dir run) = Some w2 /\
    fs_mkdir w2 (path_parent (assemble_outname run)) = Some w0 /\
    world st' = w0 /\
    exists evs,
      log st' = log st ++ evs /\
      mkdirs evs = [base_outdir_of args; run_dir run;
                    path_parent (assemble_outname run)].
Proof.
  intros Hd H. destruct (main_ran _ _ _ _ H) as (evs & Hlog & Hran).
  inversion Hran as [w evs0 Hres | e w evs0 Hres | run w1 evs1 e w evs0 Hres Hasm
                    | run w1 evs1 w2 evs2 r0 w evs0 Hres Hasm Hfin]; subst.
  destruct (assembled_dry _ _ _ _ _ _ Hd Hasm) as (_ & Hw2 & _).
  destruct (finished_dry _ _ _ _ _ _ Hd Hfin) as (_ & Hw & _).
  cbn [world after] in Hw2, Hw.
  destruct (assembled_silent _ _ _ _ _ _ Hasm) as (A1 & _).
  destruct (finished_summary _ _ _ _ _ _ Hfin) as (F1 & _).
  inversion Hres; subst.
  match goal with
  | M1 : fs_mkdir (world st) _ = Some ?a,
    M2 : fs_mkdir ?a _ = Some ?b,
    M3 : fs_mkdir ?b _ = Some ?c |- _ => exists c, a, b
  end.
  cbv zeta. repeat split; auto.
  eexists. split; [exact Hlog|].
  rewrite !mkdirs_app, A1, F1. reflexivity.
Qed.

(** X13: in mode [trim-merge] the paired trim comes first, and nothing can
    stop it: [resolve_cutadapt_cmd] never fails (a [cutadapt] that is not on
    the search path is run as a module of the interpreter), so the first
    thing [main_assemble] does is to echo the trim command and, outside a
    dry run, to execute it.  [AssemblePairs.py] is looked up only after
    that, and not at all when the trim fails. *)
Theorem paired_trim_comes_first (args : Args) (run : Run) (st : state) r st' :
  a_mode args = lit "trim-merge" ->
  main_assemble args run st = (r, st') ->
  let cmd := paired_trim_cmd args run (cutadapt_cmd_of (world st)) in
  exists rest,
    log st' = log st ++ command_events cmd None (a_dry_run args) ++ rest /\
    (forall e,
       a_dry_run args = false -> subprocess_run (world st) cmd None = inl e ->
       r = Raise e /\ rest = [] /\ world st' = world st).
Proof.
  intros Hm H. cbv zeta.
  unfold main_assemble in H. rewrite Hm in H.
  change (Py.str_eqb (lit "trim-merge") (lit "trim-merge")) with true in H.
  cbv iota in H.
  unfold run_cutadapt_paired in H. unfold bind at 1 2 3 in H.
  rewrite resolve_cutadapt_cmd_eq in H. fold (paired_trim_cmd args run (cutadapt_cmd_of (world st))) in H.
  set (cmd := paired_trim_cmd args run (cutadapt_cmd_of (world st))) in *.
  destruct (run_command_yields cmd (a_dry_run args) None st)
    as (r1 & w1 & evs1 & E & Hcmd).
  rewrite E in H. cbn [option_map] in Hcmd.
  pose proof (commanded_events _ _ _ _ _ _ _ Hcmd) as Hevs.
  inversion Hcmd as [Hd | w Hd Hrun | e Hd Hrun]; subst r1 w1.
  - unfold ret in H.
    destruct (yields_elim _ _ _ _ _ (run_assemblepairs_yields _ _ _ _ _ _ _ _ _ _ _) H)
      as (evs2 & Hlog & _).
    exists evs2. split.
    + rewrite Hlog. cbn [log after]. now rewrite <- app_assoc, <- Hevs.
    + intros e Hd'. rewrite Hd in Hd'. discriminate.
  - unfold ret in H.
    destruct (yields_elim _ _ _ _ _ (run_assemblepairs_yields _ _ _ _ _ _ _ _ _ _ _) H)
      as (evs2 & Hlog & _).
    exists evs2. split.
    + rewrite Hlog. cbn [log after]. now rewrite <- app_assoc, <- Hevs.
    + intros e _ He. rewrite Hrun in He. discriminate.
  - injection H as <- <-. exists []. split.
    + cbn [log after]. now rewrite app_nil_r, <- Hevs.
    + intros e' _ He. rewrite Hrun in He. injection He as <-. now repeat split.
Qed.


(** X15: where [AssemblePairs.py] is looked for.  A path given explicitly
    is the only one tried: it is returned when it exists, and otherwise the
    lookup fails without a look at the conda environment or the search
    path.  Without one, the script under the [Scripts] directory of the
    conda prefix wins over the search path whenever it exists; a program
    found on the search path is returned without a check of its existence.
    Whatever happens, the lookup changes nothing in the world and fails
    with [FileNotFoundError] only. *)
Theorem assemblepairs_lookup (explicit : option str) (st : state) :
  (forall e,
     truthy explicit = Some e ->
     resolve_assemblepairs_path explicit st =
     (if fs_exists (world st) (path_of e) then Normal (path_of e)
      else Raise (FileNotFoundError (lit "AssemblePairs.py not found at: " ++ e)),
      after st (world st) [EvExists (path_of e)]))
  /\ (forall cp,
        truthy explicit = None ->
        truthy (env_conda_prefix (world st)) = Some cp ->
        fs_exists (world st) (conda_candidate cp) = true ->
        resolve_assemblepairs_path explicit st =
        (Normal (conda_candidate cp),
         after st (world st) [EvExists (conda_candidate cp)]))
  /\ (forall f,
        truthy explicit = None ->
        (forall cp, truthy (env_conda_prefix (world st)) = Some cp ->
                    fs_exists (world st) (conda_candidate cp) = false) ->
        truthy (shutil_which (world st) "AssemblePairs.py") = Some f ->
        fst (resolve_assemblepairs_path explicit st) = Normal (path_of f))
  /\ (forall r st',
        resolve_assemblepairs_path explicit st = (r, st') ->
        world st' = world st /\
        ((exists p, r = Normal p) \/ (exists msg, r = Raise (FileNotFoundError msg)))).
Proof.
  unfold resolve_assemblepairs_path, conda_candidate.
  split; [|split; [|split]].
  - intros e ->. unfold exists_; unfold bind, emit, ask, ret, raise, after; cbn [world log].
    now destruct (fs_exists (world st) (path_of e)).
  - intros cp -> Hcp Hex. unfold bind at 1. unfold ask at 1. rewrite Hcp.
    unfold exists_; unfold bind, emit, ask, ret, after; cbn [world log]. now rewrite Hex.
  - intros f -> Hcp Hf. unfold bind at 1. unfold ask at 1.
    destruct (truthy (env_conda_prefix (world st))) as [cp|] eqn:E.
    + unfold exists_; unfold bind, emit, ask, ret; cbn [world log].
      rewrite (Hcp cp eq_refl). cbn [world log]. now rewrite Hf.
    + unfold bind, ask, ret. cbn [world log]. now rewrite Hf.
  - intros r st'. destruct (truthy explicit) as [e|].
    + unfold exists_; unfold bind, emit, ask, ret, raise; cbn [world log].
      destruct (fs_exists (world st) (path_of e)); intros H; injection H as <- <-;
        (split; [reflexivity|]); [left | right]; eexists; reflexivity.
    + unfold bind at 1. unfold ask at 1.
      destruct (truthy (env_conda_prefix (world st))) as [cp|].
      * unfold exists_; unfold bind, emit, ask, ret, raise; cbn [world log].
        destruct (fs_exists (world st) _); cbn [world log];
          [|destruct (truthy (shutil_which (world st) (lit "AssemblePairs.py")))];
          intros H; injection H as <- <-; (split; [reflexivity|]);
          first [left; eexists; reflexivity | right; eexists; reflexivity].
      * unfold bind, ask, ret, raise. cbn [world log].
        destruct (truthy (shutil_which (world st) (lit "AssemblePairs.py")));
          intros H; injection H as <- <-; (split; [reflexivity|]);
          first [left; eexists; reflexivity | right; eexists; reflexivity].
Qed.

Lemma strip_blank (s : str) : all_space s -> Py.strip s = [].
Proof.
  intros H. rewrite <- (app_nil_r s).
  apply (PyFacts.strip_core s [] []); [exact H | constructor | split; exact I].
Qed.

(** X16: a run identifier that holds nothing but whitespace is neither
    refused nor replaced by the time stamp: it is stripped to the empty
    identifier, which passes the validation, and the name of the run
    directory then ends in the underscore that follows the mode label. *)
Theorem blank_run_id_kept (args : Args) (st : state) (rid : str) r st1 :
  a_run_id args = Some rid -> rid <> [] -> all_space rid ->
  main_resolve args st = (r, st1) ->
  (forall msg, r <> Raise (ValueError msg))
  /\ (forall run,
        r = Normal run ->
        run_id run = [] /\
        run_name run = prefix_of args ++ lit "_" ++ mode_label (a_mode args) ++ lit "_").
Proof.
  intros Hrid Hne Hsp H.
  destruct (main_resolve_resolved _ _ _ _ H) as (evs & _ & Hres).
  assert (forall w, run_id_of args w = []) as Hid
    by (intros w; rewrite (run_id_of_explicit args rid w Hrid Hne); now apply strip_blank).
  split.
  - intros msg E. subst r. inversion Hres; subst.
    match goal with V : validate_run_id _ = Some _ |- _ => rewrite Hid in V; discriminate V end.
  - intros run ->. destruct (resolved_run_planned _ _ _ _ _ Hres) as (w1 & -> & _).
    rewrite Hid. split; [reflexivity|].
    cbn [run_name planned_run]. unfold run_dir_name. now rewrite app_nil_r.
Qed.


End FurtherPipeline.

(** ** FASTQ to FASTA and the number of lines *)

Lemma line_count_readline (fin : str) :
  fin <> [] -> line_count fin = S (line_count (snd (readline fin))).
Proof.
  induction fin as [|c fin IH]; intros Hne; [now contradiction Hne|].
  cbn [line_count readline]. destruct (N.eqb c 10); [reflexivity|].
  destruct fin as [|d fin']; [reflexivity|].
  rewrite (IH ltac:(discriminate)).
  destruct (readline (d :: fin')) as [line rest]. reflexivity.
Qed.

Lemma skip_lines_nil (n : nat) : skip_lines n [] = [].
Proof. induction n as [|n IH]; [reflexivity | exact IH]. Qed.

Lemma line_count_skip (n : nat) :
  forall fin, skip_lines n fin <> [] ->
              line_count fin = n + line_count (skip_lines n fin).
Proof.
  induction n as [|n IH]; intros fin Hne; [reflexivity|].
  cbn [skip_lines] in Hne |- *.
  assert (fin <> []) as Hfin
    by (intros ->; apply Hne; cbn [readline snd]; apply skip_lines_nil).
  rewrite (line_count_readline fin Hfin), (IH _ Hne). reflexivity.
Qed.

Lemma line_count_short (n : nat) :
  forall fin, skip_lines n fin = [] -> line_count fin <= n.
Proof.
  induction n as [|n IH]; intros fin H.
  - cbn [skip_lines] in H. subst fin. apply Nat.le_refl.
  - destruct fin as [|c fin']; [apply Nat.le_0_l|].
    rewrite (line_count_readline (c :: fin') ltac:(discriminate)).
    apply le_n_S. apply IH. exact H.
Qed.

(** X17: the way the conversion ends and the number of lines of the input.
    A conversion that ends normally has read a number of lines that is a
    multiple of four, and one that ends in the truncated-record error has
    read a number of lines that is not: lines are only counted, a line is
    never told from another by what it holds. *)
Theorem fastq_to_fasta_line_count (fin : str) :
  (raised (fastq_to_fasta_text fin) = None -> Nat.modulo (line_count fin) 4 = 0)
  /\ (raised (fastq_to_fasta_text fin) = Some TRUNCATED ->
      Nat.modulo (line_count fin) 4 <> 0).
Proof.
  remember (length fin) as n eqn:En. revert fin En.
  induction n as [n IH] using lt_wf_ind. intros fin En.
  rewrite fastq_to_fasta_text_unfold. cbv zeta.
  destruct (fst (readline fin)) as [|c header] eqn:Eh.
  - apply readline_empty in Eh. subst fin. split; [reflexivity | discriminate].
  - assert (fin <> []) as Hfin by (intros ->; discriminate Eh).
    destruct (fst (readline (skip_lines 3 fin))) as [|d qual] eqn:Eq.
    + apply readline_empty in Eq. split; [discriminate|]. intros _.
      pose proof (line_count_short 3 fin Eq) as Hle.
      rewrite (line_count_readline fin Hfin) in Hle |- *.
      destruct (line_count (snd (readline fin))) as [|[|[|k]]]; cbn; try discriminate.
      lia.
    + assert (skip_lines 4 fin <> [] \/ skip_lines 4 fin = []) as Hrest
        by (destruct (skip_lines 4 fin); [now right | left; discriminate]).
      assert (skip_lines 3 fin <> []) as H3 by (intros E; rewrite E in Eq; discriminate Eq).
      assert (line_count fin = 4 + line_count (skip_lines 4 fin)) as Hcount.
      { rewrite (line_count_skip 3 fin H3).
        rewrite (line_count_readline _ H3). cbn [skip_lines]. lia. }
      rewrite <- Eh.
      destruct (Py.split_ws _) as [|token more].
      * split; discriminate.
      * cbn [prepend raised].
        assert (length (skip_lines 4 fin) < length fin) as Hlt
          by (apply record_consumed; rewrite Eh; discriminate).
        subst n. destruct (IH _ Hlt (skip_lines 4 fin) eq_refl) as [I1 I2].
        rewrite Hcount.
        replace (4 + line_count (skip_lines 4 fin))
          with (line_count (skip_lines 4 fin) + 1 * 4) by lia.
        rewrite Nat.Div0.mod_add. now split.
Qed.

(** ** Concrete runs, further *)

Lemma report_only_on_success_witness :
  In (lit "Done.")
     (stdout_lines (log (snd (main Toy.merge_trim_run1 (Toy.start Toy.machine)))))
  /\ stdout_lines
       (log (snd (main Toy.merge_only_run1 (Toy.start Toy.machine_silent_assembler))))
     = [].
Proof.
  split.
  - destruct (@report_only_on_success Toy.lib Toy.sys Toy.merge_trim_run1
                (Toy.start Toy.machine) _ _ (surjective_pairing _))
      as (evs & Hlog & [(_ & w1 & Hout) | (Hr & _)]).
    + rewrite Hlog. cbn [log Toy.start app]. cbv zeta in Hout. rewrite Hout.
      left. reflexivity.
    + exfalso. apply Hr. vm_compute. reflexivity.
  - destruct (@report_only_on_success Toy.lib Toy.sys Toy.merge_only_run1
                (Toy.start Toy.machine_silent_assembler) _ _ (surjective_pairing _))
      as (evs & Hlog & [(Hr & _) | (_ & Hout)]).
    + exfalso. vm_compute in Hr. discriminate Hr.
    + rewrite Hlog. cbn [log Toy.start app]. exact Hout.
Defined.


Lemma conversion_files_witness :
  reads (log (snd (main Toy.merge_trim_run1 (Toy.start Toy.machine))))
  = [lit "/data/s1_mergeThenTrim_run1/s1_mergeThenTrim_run1.fastq"]
  /\ writes (log (snd (main Toy.merge_trim_run1 (Toy.start Toy.machine))))
     = [lit "/data/s1_mergeThenTrim_run1/s1_mergeThenTrim_run1.fasta"].
Proof.
  destruct (@conversion_files Toy.lib Toy.sys Toy.merge_trim_run1
              (Toy.start Toy.machine) _ _ (surjective_pairing _))
    as (evs & Hlog & H0 & _).
  destruct (H0 ltac:(vm_compute; reflexivity)) as (w1 & Hr & Hw).
  rewrite Hlog. cbn [log Toy.start app]. rewrite Hr, Hw.
  split; vm_compute; reflexivity.
Defined.

Lemma dry_run_creates_directories_witness :
  a_dry_run Toy.trim_merge_dry_run = true
  /\ world (snd (main Toy.trim_merge_dry_run (Toy.start Toy.machine)))
     = Toy.with_dir
         (Toy.with_dir (Toy.with_dir Toy.machine (lit "/data"))
            (lit "/data/s1_trimThenMerge_run1"))
         (lit "/data/s1_trimThenMerge_run1").
Proof.
  split; [reflexivity|].
  destruct (@dry_run_creates_directories Toy.lib Toy.sys Toy.trim_merge_dry_run
              (Toy.start Toy.machine)
              (snd (main Toy.trim_merge_dry_run (Toy.start Toy.machine)))
              eq_refl ltac:(vm_compute; reflexivity))
    as (w0 & w1 & w2 & M1 & M2 & M3 & Hw & _).
  rewrite Hw. cbn [fs_mkdir Toy.sys] in M1, M2, M3.
  injection M1 as <-. injection M2 as <-. injection M3 as <-.
  vm_compute. reflexivity.
Defined.

Lemma paired_trim_comes_first_witness :
  fst (main_assemble Toy.trim_merge_run1
         (planned_run Toy.trim_merge_run1 (lit "run1"))
         (Toy.start Toy.machine_without_assembler))
  = Raise (FileNotFoundError
             "AssemblePairs.py not found. Activate presto_env or install presto.")
  /\ exists rest,
       log (snd (main_assemble Toy.trim_merge_run1
                   (planned_run Toy.trim_merge_run1 (lit "run1"))
                   (Toy.start Toy.machine_without_assembler)))
       = command_events
           (paired_trim_cmd Toy.trim_merge_run1
              (planned_run Toy.trim_merge_run1 (lit "run1"))
              [lit "/opt/bin/cutadapt"])
           None false ++ rest.
Proof.
  split; [vm_compute; reflexivity|].
  destruct (@paired_trim_comes_first Toy.lib Toy.sys Toy.trim_merge_run1
              (planned_run Toy.trim_merge_run1 (lit "run1"))
              (Toy.start Toy.machine_without_assembler) _ _
              eq_refl (surjective_pairing _))
    as (rest & Hlog & _).
  exists rest. exact Hlog.
Defined.

Lemma blank_run_id_kept_witness :
  exists run,
    fst (main_resolve Toy.blank_run_id (Toy.start Toy.machine)) = Normal run
    /\ run_id run = []
    /\ run_name run = lit "s1_withoutTrim_".
Proof.
  exists (planned_run Toy.blank_run_id []).
  assert (fst (main_resolve Toy.blank_run_id (Toy.start Toy.machine))
          = Normal (planned_run Toy.blank_run_id [])) as E
    by (vm_compute; reflexivity).
  split; [exact E|].
  destruct (@blank_run_id_kept Toy.lib Toy.sys Toy.blank_run_id
              (Toy.start Toy.machine) (lit "  ") _ _ eq_refl
              ltac:(discriminate) ltac:(repeat constructor)
              (surjective_pairing _))
    as (_ & H).
  destruct (H _ E) as (Hid & Hname).
  split; [exact Hid|]. rewrite Hname. vm_compute. reflexivity.
Defined.

